(** * pintos_impl: the frame table (vm/frame.c) and the system-call layer
    (userprog/syscall.c)

    A shallow embedding of the two C files and the properties stated about
    them.  Kernel code runs in a state-and-outcome monad: a function either
    returns, terminates the calling process, halts the kernel (PANIC or a
    failed ASSERT), powers the machine off, or takes a page fault on a
    dereference. *)

From Stdlib Require Import ZArith String List Lia Bool.
Import ListNotations.
Open Scope Z_scope.

(** ** Outcomes and the kernel monad *)

Inductive outcome (S A : Type) : Type :=
| Ret (a : A) (s : S)            (* the function returned [a] *)
| Exit (status : Z) (s : S)      (* thread_exit (): the calling process is gone *)
| Panic (msg : string) (s : S)   (* PANIC / failed ASSERT: the kernel halted *)
| PowerOff (s : S)               (* shutdown_power_off () *)
| Fault (addr : Z) (s : S).      (* page fault on dereferencing [addr] *)

Arguments Ret {S A} a s.
Arguments Exit {S A} status s.
Arguments Panic {S A} msg s.
Arguments PowerOff {S A} s.
Arguments Fault {S A} addr s.

Definition M (S A : Type) : Type := S -> outcome S A.

Definition ret {S A} (a : A) : M S A := fun s => Ret a s.

Definition bind {S A B} (m : M S A) (f : A -> M S B) : M S B :=
  fun s =>
    match m s with
    | Ret a s' => f a s'
    | Exit st s' => Exit st s'
    | Panic msg s' => Panic msg s'
    | PowerOff s' => PowerOff s'
    | Fault a s' => Fault a s'
    end.

Notation "x <- c1 ;; c2" := (bind c1 (fun x => c2))
  (at level 61, c1 at next level, right associativity).
Notation "c1 ;; c2" := (bind c1 (fun _ => c2))
  (at level 61, right associativity).

Definition panic {S A} (msg : string) : M S A := fun s => Panic msg s.

(** ASSERT (c) *)
Definition assert {S} (c : bool) (msg : string) : M S unit :=
  fun s => if c then Ret tt s else Panic msg s.

(** The state an outcome leaves the kernel in. *)
Definition final {S A} (o : outcome S A) : S :=
  match o with
  | Ret _ s | Exit _ s | Panic _ s | PowerOff s | Fault _ s => s
  end.

(** ** Machine integers *)

(** uint32_t, size_t, uintptr_t and pointers: arithmetic modulo 2^32. *)
Definition u32 (z : Z) : Z := z mod 4294967296.

(** int: the same 32 bits read as a signed number. *)
Definition s32 (z : Z) : Z :=
  let w := u32 z in if w <? 2147483648 then w else w - 4294967296.

(** #define MIN(x, y) (((x)>(y))?(y):(x)) *)
Definition MIN (x y : Z) : Z := if x >? y then y else x.

(** ** threads/vaddr.h

    The header is not among the sources; these are its macros with the
    values of the base system (4 kB pages, kernel mapped at 3 GB). *)
Module Vaddr.

Definition PGBITS : Z := 12.
Definition PGSIZE : Z := Z.shiftl 1 PGBITS.
Definition PGMASK : Z := PGSIZE - 1.
Definition PHYS_BASE : Z := 3221225472.

(** pg_ofs (va): the offset of [va] inside its page. *)
Definition pg_ofs (va : Z) : Z := Z.land va PGMASK.

(** pg_round_down (va): the start of the page [va] lies in. *)
Definition pg_round_down (va : Z) : Z := Z.shiftl (Z.shiftr va PGBITS) PGBITS.

End Vaddr.

(** ** vm/frame.c *)
Module Frame.
Import Vaddr.

(** struct thread, as far as frame.c reads it. *)
Record thread := { tid : Z; is_process : bool }.

(** struct fte_reference: one (process, user virtual address) mapping. *)
Record fte_reference := { process : Z; vaddr : Z }.

(** struct fte.  [refcnt] is kept as a C int. *)
Record fte := { paddr : Z; reference_list : list fte_reference; refcnt : Z }.

(** Modelled from the spec: lib/kernel/clist.c is not among the sources.
    A clist is "the circular sequence of all live FTEs plus a single movable
    scan cursor (hand)".  The sequence is kept in insertion order, the
    successor of the last entry being the first; [hand] is the position of
    the cursor, 0 in the empty table. *)
Record clist := { items : list fte; hand : nat }.

(** Modelled from the spec: clist_init, the empty table. *)
Definition clist_init : clist := {| items := []; hand := 0 |}.

(** Modelled from the spec: clist_hand, the entry under the cursor, NULL in
    the empty table. *)
Definition clist_hand (c : clist) : option fte := nth_error (items c) (hand c).

(** Modelled from the spec: e->next in the circular sequence. *)
Definition clist_next (c : clist) (e : nat) : nat :=
  if (S e <? length (items c))%nat then S e else 0%nat.

(** Modelled from the spec: clist_push_back, "inserted at the tail of the
    circular sequence". *)
Definition clist_push_back (c : clist) (x : fte) : clist :=
  {| items := items c ++ [x]; hand := hand c |}.

Fixpoint remove_nth {A} (i : nat) (l : list A) : list A :=
  match l with
  | [] => []
  | x :: r => match i with O => r | S j => x :: remove_nth j r end
  end.

(** Modelled from the spec: clist_remove unlinks the entry at position [e];
    "hand moves to the next live entry, or to an empty-table sentinel if the
    table becomes empty". *)
Definition clist_remove (c : clist) (e : nat) : clist :=
  {| items := remove_nth e (items c);
     hand := if (e <? hand c)%nat then pred (hand c)
             else if (Nat.eqb e (hand c) && Nat.eqb (S e) (length (items c)))%bool
                  then 0%nat
                  else hand c |}.

(** The kernel state frame.c works on.  [user_pool] and [heap_free] stand for
    the page allocator (threads/palloc.c) and malloc (threads/malloc.c). *)
Record kernel := {
  ft : clist;               (* static struct clist ft *)
  user_pool : list Z;       (* free pages of the user pool *)
  heap_free : nat;          (* blocks malloc can still hand out *)
  mem : Z -> Z;             (* bytes of kernel memory *)
  cur : thread              (* thread_current () *)
}.

Definition set_ft (c : clist) (k : kernel) : kernel :=
  {| ft := c; user_pool := user_pool k; heap_free := heap_free k;
     mem := mem k; cur := cur k |}.
Definition set_user_pool (p : list Z) (k : kernel) : kernel :=
  {| ft := ft k; user_pool := p; heap_free := heap_free k;
     mem := mem k; cur := cur k |}.
Definition set_heap_free (n : nat) (k : kernel) : kernel :=
  {| ft := ft k; user_pool := user_pool k; heap_free := n;
     mem := mem k; cur := cur k |}.
Definition set_mem (m : Z -> Z) (k : kernel) : kernel :=
  {| ft := ft k; user_pool := user_pool k; heap_free := heap_free k;
     mem := m; cur := cur k |}.

(** Modelled from the spec: threads/palloc.c is not among the sources.
    "acquire_zeroed_page(pool) -> page-or-none": the next free page of the
    user pool, NULL (0) when the pool is exhausted. *)
Definition palloc_get_page_user : M kernel Z :=
  fun k =>
    match user_pool k with
    | [] => Ret 0 k
    | p :: rest => Ret p (set_user_pool rest k)
    end.

(** Modelled from the spec: "release_page(page)"; a NULL page is ignored. *)
Definition palloc_free_page (p : Z) : M kernel unit :=
  fun k => if p =? 0 then Ret tt k else Ret tt (set_user_pool (p :: user_pool k) k).

(** Modelled from the spec: threads/malloc.c is not among the sources.
    automalloc (x): a block for one bookkeeping structure, or NULL (false)
    on "allocation failure for bookkeeping structures". *)
Definition automalloc : M kernel bool :=
  fun k =>
    match heap_free k with
    | O => Ret false k
    | S n => Ret true (set_heap_free n k)
    end.

(** Modelled from the spec: free gives one block back. *)
Definition free : M kernel unit :=
  fun k => Ret tt (set_heap_free (S (heap_free k)) k).

Definition thread_current : M kernel thread := fun k => Ret (cur k) k.

(** memset (dst, c, n) *)
Definition memset (dst c n : Z) : M kernel unit :=
  fun k =>
    Ret tt (set_mem (fun a => if (dst <=? a) && (a <? dst + n) then c else mem k a) k).

(** void init_fte (struct fte *fte) *)
Definition init_fte : fte := {| paddr := 0; reference_list := []; refcnt := 0 |}.

Definition get_fte (e : nat) : M kernel fte :=
  fun k => Ret (nth e (items (ft k)) init_fte) k.

Fixpoint update_nth {A} (i : nat) (f : A -> A) (l : list A) : list A :=
  match l with
  | [] => []
  | x :: r => match i with O => f x :: r | S j => x :: update_nth j f r end
  end.

(** A store through the pointer to the entry at position [e]. *)
Definition modify_fte (e : nat) (f : fte -> fte) : M kernel unit :=
  fun k =>
    Ret tt (set_ft {| items := update_nth e f (items (ft k)); hand := hand (ft k) |} k).

Definition set_paddr (fr : Z) (p : fte) : fte :=
  {| paddr := fr; reference_list := reference_list p; refcnt := refcnt p |}.
Definition set_reference_list (l : list fte_reference) (p : fte) : fte :=
  {| paddr := paddr p; reference_list := l; refcnt := refcnt p |}.
Definition set_refcnt (n : Z) (p : fte) : fte :=
  {| paddr := paddr p; reference_list := reference_list p; refcnt := n |}.

(** init_fte (fte); clist_push_back (&ft, &fte->celem): the new entry's
    position is returned in place of the pointer [fte]. *)
Definition push_fte : M kernel nat :=
  fun k => Ret (length (items (ft k))) (set_ft (clist_push_back (ft k) init_fte) k).

(** clist_remove (&ft, &p->celem) *)
Definition unlink_fte (e : nat) : M kernel unit :=
  fun k => Ret tt (set_ft (clist_remove (ft k) e) k).

Section FrameTable.

(** vm/clock.c is not among the sources: the victim policy is a parameter. *)
Variable clock_get_victim : clist -> option fte * clist.

(** static struct fte *frame_get_victim (void)  [clock is the default] *)
Definition frame_get_victim : M kernel (option fte) :=
  fun k => let '(v, c) := clock_get_victim (ft k) in Ret v (set_ft c k).

(** this_is_disaster: *)
Definition this_is_disaster (fr : Z) : M kernel Z :=
  palloc_free_page fr ;;
  ret 0.

(** void *frame_alloc (void *vaddr) *)
Definition frame_alloc (va : Z) : M kernel Z :=
  fr <- palloc_get_page_user ;;
  (if fr =? 0
   then (frame_get_victim ;; panic "frame_alloc(): Out of frame.")
   else ret tt) ;;
  got_fte <- automalloc ;;
  if negb got_fte then this_is_disaster fr else
  e <- push_fte ;;
  modify_fte e (set_paddr fr) ;;
  got_ref <- automalloc ;;
  if negb got_ref then this_is_disaster fr else
  t <- thread_current ;;
  assert (is_process t) "fte_ref->process->is_process" ;;
  modify_fte e (fun p =>
    set_refcnt 1
      (set_reference_list
         (reference_list p ++ [{| process := tid t; vaddr := va |}]) p)) ;;
  memset fr 0 PGSIZE ;;
  ret fr.

(** The second loop of frame_free's search: from [e] along ->next until the
    hand comes round again. *)
Fixpoint scan_from (fuel : nat) (c : clist) (fr : Z) (e : nat) : option nat :=
  match fuel with
  | O => None
  | S n =>
      if Nat.eqb e (hand c) then None
      else if paddr (nth e (items c) init_fte) =? fr then Some e
      else scan_from n c fr (clist_next c e)
  end.

(** The search of frame_free: the first entry, from the hand round the
    circle, whose page is [fr]. *)
Definition frame_lookup (c : clist) (fr : Z) : option nat :=
  match clist_hand c with
  | None => None
  | Some p =>
      if paddr p =? fr then Some (hand c)
      else scan_from (length (items c)) c fr (clist_next c (hand c))
  end.

(** The list walk of do_frame_free: drops the first reference of [t]. *)
Fixpoint remove_reference (t : Z) (l : list fte_reference)
  : option (list fte_reference) :=
  match l with
  | [] => None
  | r :: rest =>
      if process r =? t then Some rest
      else match remove_reference t rest with
           | Some rest' => Some (r :: rest')
           | None => None
           end
  end.

(** do_frame_free: *)
Definition do_frame_free (e : nat) (fr : Z) : M kernel unit :=
  modify_fte e (fun p => set_refcnt (s32 (refcnt p - 1)) p) ;;
  t <- thread_current ;;
  p <- get_fte e ;;
  match remove_reference (tid t) (reference_list p) with
  | Some l => modify_fte e (set_reference_list l) ;; free
  | None => ret tt
  end ;;
  p <- get_fte e ;;
  if refcnt p =? 0
  then palloc_free_page fr ;;
       unlink_fte e ;;
       free
  else ret tt.

(** void frame_free (void *fr) *)
Definition frame_free (fr : Z) : M kernel unit :=
  fun k =>
    match frame_lookup (ft k) fr with
    | Some e => do_frame_free e fr k
    | None => Ret tt k
    end.

End FrameTable.

(** void frame_init (void) *)
Definition frame_init (k : kernel) : kernel := set_ft clist_init k.

(** Steps from [e] along ->next until the hand is reached. *)
Definition steps_to_hand (c : clist) (e : nat) : nat :=
  if (e <=? hand c)%nat then (hand c - e)%nat
  else (length (items c) - e + hand c)%nat.

(** The entry frame_alloc leaves at the tail of the table on success. *)
Definition fresh_fte (t fr va : Z) : fte :=
  {| paddr := fr;
     reference_list := [{| process := t; vaddr := va |}];
     refcnt := 1 |}.

(** A well-formed frame table: the hand is on an entry (or on the sentinel of
    the empty table), no live frame's page is free in the pool, and the pool
    holds no NULL page. *)
Definition frame_table_ok (k : kernel) : Prop :=
  ((hand (ft k) < length (items (ft k)))%nat
   \/ (items (ft k) = [] /\ hand (ft k) = 0%nat))
  /\ (forall e, In e (items (ft k)) -> ~ In (paddr e) (user_pool k))
  /\ ~ In 0 (user_pool k).

(** (process, virtual address) has a Frame Reference somewhere in the table. *)
Definition referenced (k : kernel) (t va : Z) : Prop :=
  exists e r, In e (items (ft k)) /\ In r (reference_list e)
              /\ process r = t /\ vaddr r = va.

(** "reference_count == |reference_list|", and no entry with a zero count. *)
Definition fte_counted (e : fte) : Prop :=
  refcnt e = Z.of_nat (length (reference_list e)).
Definition no_zero_count (k : kernel) : Prop :=
  forall e, In e (items (ft k)) -> refcnt e <> 0.

(** The hand is on an entry, or on the sentinel of the empty table. *)
Definition hand_ok (c : clist) : Prop :=
  (hand c < length (items c))%nat \/ (items c = [] /\ hand c = 0%nat).

(** Every entry has as many references as its count says, the count being a
    positive C int. *)
Definition counts_ok (k : kernel) : Prop :=
  forall e, In e (items (ft k)) ->
    fte_counted e /\ 0 < refcnt e < 2147483648.

(** The calling process has a reference in every entry that owns page [fr]. *)
Definition holds_frame (k : kernel) (fr : Z) : Prop :=
  forall e, In e (items (ft k)) -> paddr e = fr ->
    exists r, In r (reference_list e) /\ process r = tid (cur k).

(** The entry frame_free leaves in place of the one it found. *)
Definition released (p : fte) (l' : list fte_reference) : fte :=
  {| paddr := paddr p; reference_list := l'; refcnt := s32 (refcnt p - 1) |}.

(** A victim policy for concrete runs: it finds no victim. *)
Definition no_victim (c : clist) : option fte * clist := (None, c).

(** A concrete kernel: empty table, two free user pages, the calling thread
    is process 7, and [n] heap blocks are left. *)
Definition boot (n : nat) : kernel :=
  {| ft := clist_init;
     user_pool := [3223781376; 3223785472];
     heap_free := n;
     mem := fun _ => 204;
     cur := {| tid := 7; is_process := true |} |}.

End Frame.

(** ** userprog/syscall.c *)
Module Syscall.
Import Vaddr.

(** lib/syscall-nr.h is not among the sources: the call numbers are the
    positions in its enumeration, in the order of the switch. *)
Definition SYS_HALT : Z := 0.
Definition SYS_EXIT : Z := 1.
Definition SYS_EXEC : Z := 2.
Definition SYS_WAIT : Z := 3.
Definition SYS_CREATE : Z := 4.
Definition SYS_REMOVE : Z := 5.
Definition SYS_OPEN : Z := 6.
Definition SYS_FILESIZE : Z := 7.
Definition SYS_READ : Z := 8.
Definition SYS_WRITE : Z := 9.
Definition SYS_SEEK : Z := 10.
Definition SYS_TELL : Z := 11.
Definition SYS_CLOSE : Z := 12.
Definition SYS_MMAP : Z := 13.
Definition SYS_MUNMAP : Z := 14.
Definition SYS_CHDIR : Z := 15.
Definition SYS_MKDIR : Z := 16.
Definition SYS_READDIR : Z := 17.
Definition SYS_ISDIR : Z := 18.
Definition SYS_INUMBER : Z := 19.

Definition STDOUT_FILENO : Z := 1.

(** What the kernel did, in order: the calls of the user-pointer translator,
    the bytes dereferenced for reading, and the calls of the page allocator. *)
Inductive event : Type :=
| EvTranslate (uaddr : Z)     (* user_vtop (uaddr) *)
| EvRead (addr : Z)           (* a byte read at addr *)
| EvGetPage (page : Z)        (* palloc_get_page (0) returned page *)
| EvFreePage (page : Z).      (* palloc_free_page (page) *)

(** What reached the console. *)
Inductive console_item : Type :=
| ConExit (name : string) (status : Z)   (* printf ("%s: exit(%d)\n", ...) *)
| ConBuf (bytes : list Z)                (* putbuf (buffer, n) *)
| ConText (text : string).               (* printf of a literal *)

(** struct openfile *)
Record openfile := { fd : Z; f : Z }.

(** struct thread, as far as syscall.c uses it. *)
Record thread := {
  name : string;
  exit_status : Z;
  lastfd : Z;
  open_list : list openfile
}.

(** struct intr_frame, as far as syscall.c uses it. *)
Record intr_frame := { esp : Z; eax : Z }.

Definition set_eax (v : Z) (fr : intr_frame) : intr_frame :=
  {| esp := esp fr; eax := v |}.

(** The kernel state syscall.c works on.  [E] is the state of the
    collaborators (scheduler, process loader, file system). *)
Record kernel (E : Type) := {
  mem : Z -> Z;                 (* bytes, by kernel virtual address *)
  pagedir : Z -> option Z;      (* user page -> kernel address of its frame *)
  kernel_pool : list Z;         (* free pages of the kernel pool *)
  heap_free : nat;              (* blocks calloc can still hand out *)
  cur : thread;                 (* thread_current () *)
  console : list console_item;
  log : list event;
  ext : E
}.

Arguments mem {E} _ _.
Arguments pagedir {E} _ _.
Arguments kernel_pool {E} _.
Arguments heap_free {E} _.
Arguments cur {E} _.
Arguments console {E} _.
Arguments log {E} _.
Arguments ext {E} _.

(** The services of the collaborators syscall.c calls. *)
Record services (E : Type) := {
  process_execute : list Z -> E -> Z * E;
  get_thread_by_tid : Z -> E -> bool;
  sema_down_loaded : Z -> E -> E;
  process_wait : Z -> E -> Z * E;
  filesys_create : list Z -> Z -> E -> bool * E;
  filesys_remove : list Z -> E -> bool * E;
  filesys_open : list Z -> E -> option Z * E
}.

Arguments process_execute {E} _.
Arguments get_thread_by_tid {E} _.
Arguments sema_down_loaded {E} _.
Arguments process_wait {E} _.
Arguments filesys_create {E} _.
Arguments filesys_remove {E} _.
Arguments filesys_open {E} _.

Section Machine.
Context {E : Type}.

(** The state with its memory and its log replaced. *)
Definition with_mem_log (m : Z -> Z) (l : list event) (k : kernel E) : kernel E :=
  {| mem := m; pagedir := pagedir k; kernel_pool := kernel_pool k;
     heap_free := heap_free k; cur := cur k; console := console k;
     log := l; ext := ext k |}.

Definition add_log (ev : event) (k : kernel E) : kernel E :=
  with_mem_log (mem k) (log k ++ [ev]) k.

Definition set_kernel_pool (p : list Z) (k : kernel E) : kernel E :=
  {| mem := mem k; pagedir := pagedir k; kernel_pool := p;
     heap_free := heap_free k; cur := cur k; console := console k;
     log := log k; ext := ext k |}.
Definition set_heap_free (n : nat) (k : kernel E) : kernel E :=
  {| mem := mem k; pagedir := pagedir k; kernel_pool := kernel_pool k;
     heap_free := n; cur := cur k; console := console k;
     log := log k; ext := ext k |}.
Definition set_cur (t : thread) (k : kernel E) : kernel E :=
  {| mem := mem k; pagedir := pagedir k; kernel_pool := kernel_pool k;
     heap_free := heap_free k; cur := t; console := console k;
     log := log k; ext := ext k |}.
Definition add_console (c : console_item) (k : kernel E) : kernel E :=
  {| mem := mem k; pagedir := pagedir k; kernel_pool := kernel_pool k;
     heap_free := heap_free k; cur := cur k; console := console k ++ [c];
     log := log k; ext := ext k |}.
Definition set_ext (e : E) (k : kernel E) : kernel E :=
  {| mem := mem k; pagedir := pagedir k; kernel_pool := kernel_pool k;
     heap_free := heap_free k; cur := cur k; console := console k;
     log := log k; ext := e |}.

(** The memory cell a dereference of [a] in kernel mode reaches: kernel
    addresses are mapped one to one, a user address goes through the page
    directory of the running process and reaches nothing when its page is
    not mapped. *)
Definition resolve (k : kernel E) (a : Z) : option Z :=
  if PHYS_BASE <=? a then Some a
  else match pagedir k (pg_round_down a) with
       | Some kpage => Some (kpage + pg_ofs a)
       | None => None
       end.

(** The byte a dereference of [a] would read. *)
Definition load (k : kernel E) (a : Z) : option Z :=
  match resolve k a with Some c => Some (mem k c) | None => None end.

(** The byte at [a] as a collaborator sees it (0 where nothing is mapped). *)
Definition peek (k : kernel E) (a : Z) : Z :=
  match load k a with Some b => b | None => 0 end.

(** *p, for reading one byte *)
Definition read_byte (a : Z) : M (kernel E) Z :=
  fun k =>
    match resolve k a with
    | Some c => Ret (mem k c) (add_log (EvRead a) k)
    | None => Fault a (add_log (EvRead a) k)
    end.

(** *p = v, one byte *)
Definition store (a v : Z) : M (kernel E) unit :=
  fun k =>
    match resolve k a with
    | Some c => Ret tt (with_mem_log (fun x => if x =? c then v else mem k x) (log k) k)
    | None => Fault a k
    end.

(** Modelled from the spec: the user-pointer translator is not among the
    sources.  "given a user virtual address, return the corresponding
    kernel-accessible address if that page is currently mapped and the
    address is strictly below the user/kernel split address; otherwise
    signal an invalid-pointer condition" (a null result). *)
Definition translate (k : kernel E) (ua : Z) : Z :=
  if ua <? PHYS_BASE
  then match pagedir k (pg_round_down ua) with
       | Some kpage => kpage + pg_ofs ua
       | None => 0
       end
  else 0.

(** Modelled from the spec: user_vtop, the translator as the code calls it;
    the call is recorded in the log. *)
Definition user_vtop (ua : Z) : M (kernel E) Z :=
  fun k => Ret (translate k ua) (add_log (EvTranslate ua) k).

(** Modelled from the spec: threads/palloc.c is not among the sources.
    palloc_get_page (0): the next free page of the kernel pool, NULL (0)
    when there is none. *)
Definition palloc_get_page : M (kernel E) Z :=
  fun k =>
    match kernel_pool k with
    | [] => Ret 0 (add_log (EvGetPage 0) k)
    | p :: rest => Ret p (add_log (EvGetPage p) (set_kernel_pool rest k))
    end.

(** Modelled from the spec: "release_page(page)"; a NULL page is ignored. *)
Definition palloc_free_page (p : Z) : M (kernel E) unit :=
  fun k =>
    if p =? 0 then Ret tt (add_log (EvFreePage p) k)
    else Ret tt (add_log (EvFreePage p) (set_kernel_pool (p :: kernel_pool k) k)).

(** lib/string.c is not among the sources: memcpy, strlen and strlcpy are the
    byte loops of the kernel's C library, with the ASSERTs it makes on their
    pointer arguments. *)

(** The while loop of memcpy: [n] bytes, one by one. *)
Fixpoint memcpy_bytes (n : nat) (dst src : Z) : M (kernel E) unit :=
  match n with
  | O => ret tt
  | S n' =>
      b <- read_byte src ;;
      store dst b ;;
      memcpy_bytes n' (dst + 1) (src + 1)
  end.

(** void *memcpy (void *dst, const void *src, size_t size) *)
Definition memcpy (n : nat) (dst src : Z) : M (kernel E) unit :=
  assert (negb (dst =? 0) || (n =? 0)%nat) "dst != NULL || size == 0" ;;
  assert (negb (src =? 0) || (n =? 0)%nat) "src != NULL || size == 0" ;;
  memcpy_bytes n dst src.

(** strlen (s).  The scan is given [fuel] bytes; strlcpy hands it the rest of
    the page of [s], where the ASSERT of strlbond has found the terminator,
    so the fuel does not run out (strlen_terminates below).  Its own
    ASSERT (string != NULL) is the one strlcpy, its only caller here, has
    just made. *)
Fixpoint strlen (fuel : nat) (s : Z) : M (kernel E) Z :=
  match fuel with
  | O => panic "strlen: no terminator in the page"
  | S n =>
      b <- read_byte s ;;
      if b =? 0 then ret 0
      else (len <- strlen n (s + 1) ;; ret (len + 1))
  end.

(** size_t strlcpy (char *dst, const char *src, size_t size) *)
Definition strlcpy (dst src size : Z) : M (kernel E) Z :=
  assert (negb (dst =? 0)) "dst != NULL" ;;
  assert (negb (src =? 0)) "src != NULL" ;;
  src_len <- strlen (Z.to_nat (PGSIZE - pg_ofs src)) src ;;
  (if size >? 0
   then let dst_len := if src_len <? size - 1 then src_len else size - 1 in
        memcpy (Z.to_nat dst_len) dst src ;;
        store (dst + dst_len) 0
   else ret tt) ;;
  ret src_len.

(** The for loop of str_over_boundary: [n] bytes from address [a] on. *)
Fixpoint sob_scan (n : nat) (a : Z) : M (kernel E) bool :=
  match n with
  | O => ret true
  | S n' =>
      b <- read_byte a ;;
      if b =? 0 then ret false else sob_scan n' (a + 1)
  end.

(** static bool str_over_boundary (const char *s) *)
Definition str_over_boundary (s : Z) : M (kernel E) bool :=
  let page := pg_round_down s in
  let offset := pg_ofs s in
  sob_scan (Z.to_nat (PGSIZE - offset)) (page + offset).

(** static char *strlbond (char *dst, const char *src, size_t size) *)
Definition strlbond (dst src size : Z) : M (kernel E) Z :=
  s <- user_vtop src ;;
  let soffset := pg_ofs src in
  over <- str_over_boundary s ;;
  ds <- (if over
         then let n := MIN (PGSIZE - soffset) (u32 (size - 1)) in
              memcpy (Z.to_nat n) dst s ;;
              store (dst + n) 0 ;;
              ret (n, pg_round_down (u32 (src + PGSIZE)))
         else ret (0, s)) ;;
  let doffset := fst ds in
  let s' := snd ds in
  over' <- str_over_boundary s' ;;
  assert (negb over') "!str_over_boundary (s)" ;;
  strlcpy (dst + doffset) s' (u32 (size - doffset)) ;;
  ret dst.

(** The string a collaborator finds at [a]. *)
Fixpoint cstring (fuel : nat) (k : kernel E) (a : Z) : list Z :=
  match fuel with
  | O => []
  | S n => if peek k a =? 0 then [] else peek k a :: cstring n k (a + 1)
  end.

(** The [n] bytes putbuf takes from [a]. *)
Fixpoint bytes_at (n : nat) (k : kernel E) (a : Z) : list Z :=
  match n with
  | O => []
  | S n' => peek k a :: bytes_at n' k (a + 1)
  end.

Definition putbuf (buffer n : Z) : M (kernel E) unit :=
  fun k => Ret tt (add_console (ConBuf (bytes_at (Z.to_nat n) k buffer)) k).

Definition printf (text : string) : M (kernel E) unit :=
  fun k => Ret tt (add_console (ConText text) k).

(** Modelled from the spec: calloc (1, sizeof (struct openfile)), true when
    a block was handed out, false on "allocation failure for bookkeeping
    structures". *)
Definition calloc : M (kernel E) bool :=
  fun k =>
    match heap_free k with
    | O => Ret false k
    | S n => Ret true (set_heap_free n k)
    end.

(** A 32-bit little-endian word: *(uint32_t * ) a *)
Definition read_word (a : Z) : M (kernel E) Z :=
  b0 <- read_byte a ;;
  b1 <- read_byte (a + 1) ;;
  b2 <- read_byte (a + 2) ;;
  b3 <- read_byte (a + 3) ;;
  ret (b0 + 256 * b1 + 65536 * b2 + 16777216 * b3).

(** What strlbond does once [doffset] and [s] are settled. *)
Definition copy_tail (dst size doffset s' : Z) : M (kernel E) Z :=
  over' <- str_over_boundary s' ;;
  assert (negb over') "!str_over_boundary (s)" ;;
  strlcpy (dst + doffset) s' (u32 (size - doffset)) ;;
  ret dst.

(** A run of [j] non-NUL bytes from [a], closed by a NUL. *)
Definition c_string_at (k : kernel E) (a j : Z) : Prop :=
  (forall i, 0 <= i < j -> exists b, load k (a + i) = Some b /\ b <> 0)
  /\ load k (a + j) = Some 0.

(** Every mapped user page lies in a page-aligned frame of kernel memory. *)
Definition pagedir_ok (k : kernel E) : Prop :=
  forall pg kpage, pagedir k pg = Some kpage ->
    PHYS_BASE <= kpage /\ pg_ofs kpage = 0.

(** No user address reaches a cell of the kernel buffer [dst, dst + size). *)
Definition private_buffer (k : kernel E) (dst size : Z) : Prop :=
  forall a c, a < PHYS_BASE -> resolve k a = Some c ->
    c < dst \/ dst + size <= c.

(** "no byte past the bound ever read": every read of the log [l] is one of
    the first [size] bytes of the source, at its user address or at the
    address it translates to. *)
Definition reads_within_bound (k : kernel E) (src size : Z) (l : list event)
  : Prop :=
  forall a, In (EvRead a) l ->
    src <= a < src + size \/ translate k src <= a < translate k src + size.

(** The calls of the translator in a log. *)
Definition translations (l : list event) : list Z :=
  flat_map (fun ev => match ev with EvTranslate a => [a] | _ => [] end) l.

End Machine.

Section Calls.
Context {E : Type} (sv : services E).

(** static void halt (void) *)
Definition halt : M (kernel E) unit := fun k => PowerOff k.

(** static void exit (int status): never returns. *)
Definition exit {A : Type} (status : Z) : M (kernel E) A :=
  fun k =>
    let t := cur k in
    Exit status
      (add_console (ConExit (name t) status)
         (set_cur {| name := name t; exit_status := status;
                     lastfd := lastfd t; open_list := open_list t |} k)).

(** The calls into the collaborators. *)
Definition do_process_execute (cmd_line : Z) : M (kernel E) Z :=
  fun k =>
    let r := process_execute sv (cstring (Z.to_nat PGSIZE) k cmd_line) (ext k) in
    Ret (fst r) (set_ext (snd r) k).
Definition do_get_thread_by_tid (pid : Z) : M (kernel E) bool :=
  fun k => Ret (get_thread_by_tid sv pid (ext k)) k.
Definition do_sema_down_loaded (pid : Z) : M (kernel E) unit :=
  fun k => Ret tt (set_ext (sema_down_loaded sv pid (ext k)) k).
Definition do_process_wait (pid : Z) : M (kernel E) Z :=
  fun k =>
    let r := process_wait sv pid (ext k) in Ret (fst r) (set_ext (snd r) k).
Definition do_filesys_create (file initial_size : Z) : M (kernel E) bool :=
  fun k =>
    let r := filesys_create sv (cstring (Z.to_nat PGSIZE) k file) initial_size (ext k) in
    Ret (fst r) (set_ext (snd r) k).
Definition do_filesys_remove (file : Z) : M (kernel E) bool :=
  fun k =>
    let r := filesys_remove sv (cstring (Z.to_nat PGSIZE) k file) (ext k) in
    Ret (fst r) (set_ext (snd r) k).
Definition do_filesys_open (file : Z) : M (kernel E) (option Z) :=
  fun k =>
    let r := filesys_open sv (cstring (Z.to_nat PGSIZE) k file) (ext k) in
    Ret (fst r) (set_ext (snd r) k).

(** static pid_t exec (const char *_cmd_line) *)
Definition exec (_cmd_line : Z) : M (kernel E) Z :=
  if PHYS_BASE <=? _cmd_line then ret (-1) else
  cmd_line <- palloc_get_page ;;
  strlbond cmd_line _cmd_line PGSIZE ;;
  pid <- do_process_execute cmd_line ;;
  palloc_free_page cmd_line ;;
  child <- do_get_thread_by_tid pid ;;
  assert child "child" ;;
  do_sema_down_loaded pid ;;
  ret pid.

(** static int wait (pid_t pid) *)
Definition wait (pid : Z) : M (kernel E) Z := do_process_wait pid.

(** static bool create (const char *_file, unsigned initial_size) *)
Definition create (_file initial_size : Z) : M (kernel E) bool :=
  if PHYS_BASE <=? _file then ret false else
  file <- palloc_get_page ;;
  strlbond file _file PGSIZE ;;
  success <- do_filesys_create file initial_size ;;
  palloc_free_page file ;;
  ret success.

(** static bool remove (const char *_file) *)
Definition remove (_file : Z) : M (kernel E) bool :=
  if PHYS_BASE <=? _file then ret false else
  file <- palloc_get_page ;;
  strlbond file _file PGSIZE ;;
  success <- do_filesys_remove file ;;
  palloc_free_page file ;;
  ret success.

Definition set_lastfd (n : Z) (t : thread) : thread :=
  {| name := name t; exit_status := exit_status t; lastfd := n;
     open_list := open_list t |}.
Definition push_openfile (o : openfile) (t : thread) : thread :=
  {| name := name t; exit_status := exit_status t; lastfd := lastfd t;
     open_list := open_list t ++ [o] |}.

(** ++t->lastfd, --t->lastfd and the list_push_back of open. *)
Definition incr_lastfd : M (kernel E) Z :=
  fun k => let n := s32 (lastfd (cur k) + 1) in
           Ret n (set_cur (set_lastfd n (cur k)) k).
Definition decr_lastfd : M (kernel E) unit :=
  fun k => Ret tt (set_cur (set_lastfd (s32 (lastfd (cur k) - 1)) (cur k)) k).
Definition push_open_list (o : openfile) : M (kernel E) unit :=
  fun k => Ret tt (set_cur (push_openfile o (cur k)) k).

(** static int open (const char *_file) *)
Definition open (_file : Z) : M (kernel E) Z :=
  if PHYS_BASE <=? _file then ret (-1) else
  file <- palloc_get_page ;;
  strlbond file _file PGSIZE ;;
  fh <- do_filesys_open file ;;
  palloc_free_page file ;;
  match fh with
  | None => ret (-1)
  | Some h =>
      fd' <- incr_lastfd ;;
      got <- calloc ;;
      if negb got
      then decr_lastfd ;; ret (-1)
      else push_open_list {| fd := fd'; f := h |} ;; ret fd'
  end.

(** static int filesize (int fd) *)
Definition filesize (fd' : Z) : M (kernel E) Z := ret 0.

(** static int read (int fd, void *_buffer, unsigned size) *)
Definition read (fd' _buffer size : Z) : M (kernel E) Z :=
  if PHYS_BASE <=? _buffer then ret (-1) else ret 0.

(** The while loop of write; each round takes at least one byte off [size],
    so [size] rounds are enough (write_loop_fuel below). *)
Fixpoint write_loop (fuel : nat) (fd' _buffer buffer size wrote : Z)
  : M (kernel E) Z :=
  match fuel with
  | O => ret wrote
  | S n =>
      if size >? 0
      then strlbond buffer _buffer (MIN (u32 (size + 1)) PGSIZE) ;;
           (if fd' =? STDOUT_FILENO
            then putbuf buffer (MIN size (PGSIZE - 1))
            else ret tt) ;;
           write_loop n fd' _buffer buffer
             (u32 (size - MIN size (PGSIZE - 1)))
             (s32 (wrote + MIN size (PGSIZE - 1)))
      else ret wrote
  end.

(** static int write (int fd, const void *_buffer, unsigned size) *)
Definition write (fd' _buffer size : Z) : M (kernel E) Z :=
  if PHYS_BASE <=? _buffer then ret (-1) else
  buffer <- palloc_get_page ;;
  wrote <- write_loop (Z.to_nat size) fd' _buffer buffer size 0 ;;
  palloc_free_page buffer ;;
  ret wrote.

(** static void seek (int fd, unsigned position) *)
Definition seek (fd' position : Z) : M (kernel E) unit := ret tt.

(** static unsigned tell (int fd) *)
Definition tell (fd' : Z) : M (kernel E) Z := ret 0.

(** static void close (int fd) *)
Definition close (fd' : Z) : M (kernel E) unit := ret tt.

Definition Z_of_bool (b : bool) : Z := if b then 1 else 0.

(** The switch of syscall_handler: [esp1] is the translated stack pointer,
    *(esp + i) the word 4 * i bytes above it.  The messages of printf and
    PANIC are given without the newline that ends them in the source. *)
Definition syscall_switch (fr : intr_frame) (esp1 syscall_num : Z)
  : M (kernel E) intr_frame :=
  let arg (i : Z) := read_word (esp1 + 4 * i) in
  if syscall_num =? SYS_HALT then halt ;; ret fr
  else if syscall_num =? SYS_EXIT then a1 <- arg 1 ;; exit (s32 a1)
  else if syscall_num =? SYS_EXEC then
    a1 <- arg 1 ;; r <- exec a1 ;; ret (set_eax (u32 r) fr)
  else if syscall_num =? SYS_WAIT then
    a1 <- arg 1 ;; r <- wait (s32 a1) ;; ret (set_eax (u32 r) fr)
  else if syscall_num =? SYS_CREATE then
    a1 <- arg 1 ;; a2 <- arg 2 ;; r <- create a1 a2 ;;
    ret (set_eax (Z_of_bool r) fr)
  else if syscall_num =? SYS_REMOVE then
    a1 <- arg 1 ;; r <- remove a1 ;; ret (set_eax (Z_of_bool r) fr)
  else if syscall_num =? SYS_OPEN then
    a1 <- arg 1 ;; r <- open a1 ;; ret (set_eax (u32 r) fr)
  else if syscall_num =? SYS_FILESIZE then
    a1 <- arg 1 ;; r <- filesize (s32 a1) ;; ret (set_eax (u32 r) fr)
  else if syscall_num =? SYS_READ then
    a1 <- arg 1 ;; a2 <- arg 2 ;; a3 <- arg 3 ;;
    r <- read (s32 a1) a2 a3 ;; ret (set_eax (u32 r) fr)
  else if syscall_num =? SYS_WRITE then
    a1 <- arg 1 ;; a2 <- arg 2 ;; a3 <- arg 3 ;;
    write (s32 a1) a2 a3 ;; ret fr
  else if syscall_num =? SYS_SEEK then
    a1 <- arg 1 ;; a2 <- arg 2 ;; seek (s32 a1) a2 ;; ret fr
  else if syscall_num =? SYS_TELL then
    a1 <- arg 1 ;; r <- tell (s32 a1) ;; ret (set_eax (u32 r) fr)
  else if syscall_num =? SYS_CLOSE then
    a1 <- arg 1 ;; close (s32 a1) ;; ret fr
  else if syscall_num =? SYS_MMAP then printf "SYS_MMAP" ;; ret fr
  else if syscall_num =? SYS_MUNMAP then printf "SYS_MUNMAP" ;; ret fr
  else if syscall_num =? SYS_CHDIR then printf "SYS_CHDIR" ;; ret fr
  else if syscall_num =? SYS_MKDIR then printf "SYS_MKDIR" ;; ret fr
  else if syscall_num =? SYS_READDIR then printf "SYS_READDIR" ;; ret fr
  else if syscall_num =? SYS_ISDIR then printf "SYS_ISDIR" ;; ret fr
  else if syscall_num =? SYS_INUMBER then printf "SYS_INUMBER" ;; ret fr
  else panic "Wrong System call.".

(** static void syscall_handler (struct intr_frame *f).  The result is the
    frame as the handler leaves it. *)
Definition syscall_handler (fr : intr_frame) : M (kernel E) intr_frame :=
  let esp0 := esp fr in
  assert (negb (esp0 =? 0)) "esp" ;;
  (if PHYS_BASE <=? esp0 then exit (-1) else ret tt) ;;
  esp1 <- user_vtop esp0 ;;
  (if esp1 =? 0 then exit (-1) else ret tt) ;;
  w <- read_word esp1 ;;
  syscall_switch fr esp1 (s32 w).

End Calls.

(** *** Words used to state the properties *)

(** The 32-bit word the kernel finds at the kernel address [a]. *)
Definition word_at {E} (k : kernel E) (a : Z) : Z :=
  mem k a + 256 * mem k (a + 1) + 65536 * mem k (a + 2) + 16777216 * mem k (a + 3).

(** The calls of the page allocator in a log. *)
Definition pallocs (l : list event) : list event :=
  filter (fun ev => match ev with
                    | EvGetPage _ | EvFreePage _ => true
                    | _ => false
                    end) l.

(** A computation that leaves the kernel pool alone and never calls the page
    allocator, whatever its outcome. *)
Definition pool_neutral {E A} (m : M (kernel E) A) : Prop :=
  forall k,
    kernel_pool (final (m k)) = kernel_pool k
    /\ pallocs (log (final (m k))) = pallocs (log k).

(** The state in which the switch starts: the stack pointer was translated
    and the call number read. *)
Definition at_switch {E} (k : kernel E) (fr : intr_frame) : kernel E :=
  with_mem_log (mem k)
    (log k ++ [EvTranslate (esp fr);
               EvRead (translate k (esp fr));
               EvRead (translate k (esp fr) + 1);
               EvRead (translate k (esp fr) + 2);
               EvRead (translate k (esp fr) + 3)]) k.

(** "terminate the calling process with a failure exit status" *)
Definition kills_caller {E A} (o : outcome (kernel E) A) : Prop :=
  exists k', o = Exit (-1) k'.

(** The argument slot that holds the pointer of a call. *)
Definition pointer_slot (num : Z) : Z :=
  if (num =? SYS_READ) || (num =? SYS_WRITE) then 2 else 1.

(** The frame with the in-band failure value of a call in eax: false for
    create and remove, -1 for the other calls. *)
Definition in_band_failure (num : Z) (fr : intr_frame) : intr_frame :=
  if (num =? SYS_CREATE) || (num =? SYS_REMOVE) then set_eax 0 fr
  else set_eax 4294967295 fr.

(** [k'] is the state in which a call of exec, create, remove, open or write
    on the pointer [p], started in [k], returned. *)
Definition completed_scratch_call {E} (sv : services E) (p : Z)
  (k k' : kernel E) : Prop :=
  (exists v, exec sv p k = Ret v k')
  \/ (exists n v, create sv p n k = Ret v k')
  \/ (exists v, remove sv p k = Ret v k')
  \/ (exists v, open sv p k = Ret v k')
  \/ (exists d n v, write d p n k = Ret v k').

(** Between [k] and [k'] the page allocator was called exactly twice: to get
    the page [page] and then to free that same page. *)
Definition one_scratch_page {E} (page : Z) (k k' : kernel E) : Prop :=
  pallocs (log k') = pallocs (log k) ++ [EvGetPage page; EvFreePage page].

(** A computation that changes nothing of the kernel state but memory and
    the log, whatever its outcome. *)
Definition only_mem_log {E A} (m : M (kernel E) A) : Prop :=
  forall k, exists m' l', final (m k) = with_mem_log m' l' k.

(** Every descriptor of the open-file list is at most the last one given out. *)
Definition fds_bounded (t : thread) : Prop :=
  forall o, In o (open_list t) -> fd o <= lastfd t.

(** The user's string of length [L] at [src] fits the scratch page [page]. *)
Definition fits_scratch {E} (k : kernel E) (src L page : Z) : Prop :=
  pagedir_ok k /\ 0 <= src /\ 0 <= L < PGSIZE /\ src + L < PHYS_BASE
  /\ c_string_at k src L /\ src + L < pg_round_down src + 2 * PGSIZE
  /\ PHYS_BASE <= page /\ private_buffer k page PGSIZE.

(** A computation that leaves the memory cell [c] as it found it, whatever
    its outcome; [post] is what it promises of the value it returns. *)
Definition keeps_cell {E A} (c : Z) (post : A -> Prop) (m : M (kernel E) A)
  : Prop :=
  forall k, mem (final (m k)) c = mem k c
            /\ (forall a k', m k = Ret a k' -> post a).

(** [k1] has the page directory of [k] and, outside the page at [page], the
    memory of [k]. *)
Definition same_outside {E} (page : Z) (k k1 : kernel E) : Prop :=
  pagedir k1 = pagedir k
  /\ forall c, c < page \/ page + PGSIZE <= c -> mem k1 c = mem k c.

(** The sizes of the chunks in which write puts [size] bytes out. *)
Fixpoint chunks (fuel : nat) (size : Z) : list Z :=
  match fuel with
  | O => []
  | S n =>
      if size >? 0
      then MIN size (PGSIZE - 1) :: chunks n (size - MIN size (PGSIZE - 1))
      else []
  end.

(** *** A concrete machine for runs of the code *)

(** Collaborators that always succeed: the child gets pid 3, a file opens
    with handle 100. *)
Definition stub_services : services unit :=
  {| process_execute := fun _ e => (3, e);
     get_thread_by_tid := fun _ _ => true;
     sema_down_loaded := fun _ e => e;
     process_wait := fun _ e => (0, e);
     filesys_create := fun _ _ e => (true, e);
     filesys_remove := fun _ e => (true, e);
     filesys_open := fun _ e => (Some 100, e) |}.

Definition bytes_of_word (w : Z) : list Z :=
  [w mod 256; (w / 256) mod 256; (w / 65536) mod 256; (w / 16777216) mod 256].

(** Memory [m] with the bytes [bs] placed from address [a] on. *)
Fixpoint place (a : Z) (bs : list Z) (m : Z -> Z) : Z -> Z :=
  match bs with
  | [] => m
  | b :: r => fun x => if x =? a then b else place (a + 1) r m x
  end.

(** User pages and the frames behind them: the stack page 0xBFFFF000 in
    frame 0xC0100000, the data page 0x08048000 in frame 0xC0200000 and, when
    [both] is set, the next page 0x08049000 in frame 0xC0201000. *)
Definition stack_page : Z := 3221221376.
Definition stack_frame : Z := 3222274048.
Definition data_page : Z := 134512640.
Definition data_frame : Z := 3223322624.
Definition next_page : Z := 134516736.
Definition next_frame : Z := 3223326720.
Definition scratch_page : Z := 3224371200.

(** The process "main" trapped with esp = 0xBFFFFF00, the words [stack] on
    its stack, the bytes [data] at offset [ofs] of the data frame, every
    other byte being [fill]; two scratch pages are free. *)
Definition machine (both : bool) (stack : list Z) (ofs : Z) (data : list Z)
  (fill : Z) : kernel unit :=
  {| mem := place (stack_frame + 3840) (concat (map bytes_of_word stack))
              (place (data_frame + ofs) data (fun _ => fill));
     pagedir := fun pg =>
       if pg =? stack_page then Some stack_frame
       else if pg =? data_page then Some data_frame
       else if both && (pg =? next_page) then Some next_frame
       else None;
     kernel_pool := [scratch_page; scratch_page + 4096];
     heap_free := 8;
     cur := {| name := "main"; exit_status := 0; lastfd := 2; open_list := [] |};
     console := [];
     log := [];
     ext := tt |}.

(** The trap frame of that process; eax holds 57005 before the call. *)
Definition trap_frame : intr_frame := {| esp := stack_page + 3840; eax := 57005 |}.

End Syscall.

(** * Properties of the frame table *)
Module FrameFacts.
Import Vaddr Frame.

Lemma update_nth_last {A} (f : A -> A) (l : list A) (x : A) :
  update_nth (length l) f (l ++ [x]) = l ++ [f x].
Proof. induction l as [|y l IH]; simpl; [reflexivity | now rewrite IH]. Qed.

Lemma remove_nth_last {A} (l : list A) (x : A) :
  remove_nth (length l) (l ++ [x]) = l.
Proof. induction l as [|y l IH]; simpl; [reflexivity | now rewrite IH]. Qed.

Lemma nth_last {A} (l : list A) (x d : A) : nth (length l) (l ++ [x]) d = x.
Proof. induction l as [|y l IH]; simpl; [reflexivity | exact IH]. Qed.

Lemma nth_front {A} (l : list A) (x d : A) (e : nat) :
  (e < length l)%nat -> nth e (l ++ [x]) d = nth e l d /\ In (nth e l d) l.
Proof.
  intros H. split; [now apply app_nth1 | now apply nth_In].
Qed.

(** The circular scan reaches an entry pushed at the tail when no earlier
    entry owns the same page. *)
Lemma scan_from_pushed (l : list fte) (x : fte) (h : nat) :
  (forall y, In y l -> paddr y <> paddr x) ->
  forall d e fuel,
    (h < e)%nat -> (e + d = length l)%nat -> (d < fuel)%nat ->
    scan_from fuel {| items := l ++ [x]; hand := h |} (paddr x) e
    = Some (length l).
Proof.
  intros Hfresh d. induction d as [|d IH]; intros e fuel Hh He Hf.
  - destruct fuel as [|fuel]; [lia|]. simpl.
    replace (Nat.eqb e h) with false by (symmetry; apply Nat.eqb_neq; lia).
    assert (e = length l) by lia. subst e.
    rewrite nth_last, Z.eqb_refl. reflexivity.
  - destruct fuel as [|fuel]; [lia|]. simpl.
    replace (Nat.eqb e h) with false by (symmetry; apply Nat.eqb_neq; lia).
    destruct (nth_front l x init_fte e) as [Hn Hin]; [lia|].
    rewrite Hn.
    replace (paddr (nth e l init_fte) =? paddr x) with false
      by (symmetry; apply Z.eqb_neq; now apply Hfresh).
    unfold clist_next. simpl. rewrite length_app. simpl.
    replace (S e <? length l + 1)%nat with true
      by (symmetry; apply Nat.ltb_lt; lia).
    apply IH; lia.
Qed.

Lemma frame_lookup_pushed (l : list fte) (x : fte) (h : nat) :
  (forall y, In y l -> paddr y <> paddr x) ->
  ((h < length l)%nat \/ (l = [] /\ h = 0%nat)) ->
  frame_lookup {| items := l ++ [x]; hand := h |} (paddr x) = Some (length l).
Proof.
  intros Hfresh [Hh | [-> ->]].
  - unfold frame_lookup, clist_hand. simpl.
    rewrite nth_error_app1 by exact Hh.
    destruct (nth_error l h) as [y|] eqn:Hy.
    + apply nth_error_In in Hy.
      replace (paddr y =? paddr x) with false
        by (symmetry; apply Z.eqb_neq; now apply Hfresh).
      unfold clist_next. simpl. rewrite length_app. simpl.
      replace (S h <? length l + 1)%nat with true
        by (symmetry; apply Nat.ltb_lt; lia).
      apply scan_from_pushed with (d := (length l - S h)%nat);
        [exact Hfresh | lia | lia | lia].
    + apply nth_error_None in Hy. lia.
  - unfold frame_lookup, clist_hand. simpl. now rewrite Z.eqb_refl.
Qed.

(** The search loop of frame_free ends before its fuel does: with the hand on
    an entry, any fuel above the distance to the hand gives the same result,
    and the fuel it is run with, the length of the table, is above it. *)
Lemma scan_from_fuel (c : clist) (fr : Z) :
  (hand c < length (items c))%nat ->
  forall d e f1 f2,
    (e < length (items c))%nat -> steps_to_hand c e = d ->
    (d < f1)%nat -> (d < f2)%nat ->
    scan_from f1 c fr e = scan_from f2 c fr e.
Proof.
  intros Hh d. induction d as [|d IH]; intros e f1 f2 He Hd H1 H2;
    destruct f1 as [|f1]; destruct f2 as [|f2]; try lia; cbn [scan_from];
    unfold steps_to_hand in Hd;
    destruct (Nat.leb_spec e (hand c)) as [Hle | Hgt].
  - replace e with (hand c) by lia. now rewrite Nat.eqb_refl.
  - lia.
  - replace (Nat.eqb e (hand c)) with false by (symmetry; apply Nat.eqb_neq; lia).
    destruct (paddr (nth e (items c) init_fte) =? fr); [reflexivity|].
    apply IH; unfold clist_next, steps_to_hand;
      destruct (Nat.ltb_spec (S e) (length (items c)));
      try destruct (Nat.leb_spec (S e) (hand c));
      try destruct (Nat.leb_spec 0 (hand c)); lia.
  - replace (Nat.eqb e (hand c)) with false by (symmetry; apply Nat.eqb_neq; lia).
    destruct (paddr (nth e (items c) init_fte) =? fr); [reflexivity|].
    apply IH; unfold clist_next, steps_to_hand;
      destruct (Nat.ltb_spec (S e) (length (items c)));
      try destruct (Nat.leb_spec (S e) (hand c));
      try destruct (Nat.leb_spec 0 (hand c)); lia.
Qed.

Lemma steps_to_hand_bound (c : clist) (e : nat) :
  (hand c < length (items c))%nat -> (e < length (items c))%nat ->
  (steps_to_hand c e < length (items c))%nat.
Proof.
  intros Hh He. unfold steps_to_hand.
  destruct (Nat.leb_spec e (hand c)); lia.
Qed.

Section Alloc.
Variable clock_get_victim : clist -> option fte * clist.

(** What a successful frame_alloc did. *)
Lemma frame_alloc_success (k k1 : kernel) (va fr : Z) :
  frame_alloc clock_get_victim va k = Ret fr k1 -> fr <> 0 ->
  exists rest n,
    user_pool k = fr :: rest /\ heap_free k = S (S n)
    /\ is_process (cur k) = true
    /\ ft k1 = {| items := items (ft k) ++ [fresh_fte (tid (cur k)) fr va];
                  hand := hand (ft k) |}
    /\ user_pool k1 = rest /\ heap_free k1 = n /\ cur k1 = cur k.
Proof.
  unfold frame_alloc, bind, palloc_get_page_user.
  destruct k as [c pool hf m t]; simpl.
  destruct pool as [|p rest]; simpl.
  - unfold frame_get_victim, panic; simpl.
    destruct (clock_get_victim c); discriminate.
  - destruct (p =? 0) eqn:Hp; simpl.
    + unfold frame_get_victim, panic; simpl.
      destruct (clock_get_victim c); discriminate.
    + unfold ret, automalloc; simpl.
      destruct hf as [|hf]; simpl.
      { unfold this_is_disaster, bind, palloc_free_page, ret. rewrite Hp.
        intros H; inversion H; congruence. }
      destruct hf as [|hf]; simpl.
      { unfold this_is_disaster, bind, palloc_free_page, ret. rewrite Hp.
        intros H; inversion H; congruence. }
      unfold assert. destruct (is_process t) eqn:Ht; [|discriminate].
      simpl. intros H; inversion H; subst; clear H. intros _.
      exists rest, hf. simpl.
      rewrite !update_nth_last. repeat split; try reflexivity.
Qed.

(** frame_alloc succeeds whenever a page and two heap blocks are available
    and the caller is a process. *)
Lemma frame_alloc_succeeds (k : kernel) (va fr : Z) (rest : list Z) (n : nat) :
  user_pool k = fr :: rest -> fr <> 0 -> heap_free k = S (S n) ->
  is_process (cur k) = true ->
  exists k1, frame_alloc clock_get_victim va k = Ret fr k1.
Proof.
  intros Hp Hfr Hh Ht.
  unfold frame_alloc, bind, palloc_get_page_user, automalloc.
  destruct k as [c pool hf m t]; simpl in *. subst pool hf. simpl.
  apply Z.eqb_neq in Hfr. rewrite Hfr. simpl.
  unfold assert. rewrite Ht. simpl. eexists. reflexivity.
Qed.

(** Releasing, as the same process, the frame that was just pushed at the
    tail of a well-formed table. *)
Lemma frame_free_fresh (k1 : kernel) (l : list fte) (h : nat) (fr va : Z) :
  ft k1 = {| items := l ++ [fresh_fte (tid (cur k1)) fr va]; hand := h |} ->
  (forall y, In y l -> paddr y <> fr) ->
  ((h < length l)%nat \/ (l = [] /\ h = 0%nat)) ->
  fr <> 0 ->
  frame_free fr k1
  = Ret tt {| ft := {| items := l; hand := h |};
              user_pool := fr :: user_pool k1;
              heap_free := S (S (heap_free k1));
              mem := mem k1; cur := cur k1 |}.
Proof.
  intros Hft Hfresh Hh Hfr.
  unfold frame_free. rewrite Hft.
  change fr with (paddr (fresh_fte (tid (cur k1)) fr va)) at 1.
  rewrite frame_lookup_pushed by assumption.
  destruct k1 as [c pool hf m t]; simpl in *. subst c.
  unfold do_frame_free, bind, modify_fte, thread_current, get_fte; simpl.
  rewrite !update_nth_last, !nth_last. simpl.
  rewrite Z.eqb_refl. simpl.
  rewrite !update_nth_last, !nth_last. simpl.
  unfold palloc_free_page. apply Z.eqb_neq in Hfr. rewrite Hfr. simpl.
  unfold free, clist_remove; simpl.
  rewrite remove_nth_last, length_app. simpl.
  f_equal. unfold set_heap_free, set_ft; simpl. f_equal. f_equal.
  destruct Hh as [Hh | [-> ->]].
  - replace (length l <? h)%nat with false by (symmetry; apply Nat.ltb_ge; lia).
    replace (Nat.eqb (length l) h) with false by (symmetry; apply Nat.eqb_neq; lia).
    reflexivity.
  - reflexivity.
Qed.

(** On its success path frame_alloc keeps the counts: every entry still has
    as many references as its count says, and none has the count zero. *)
Lemma frame_alloc_success_counted (k k1 : kernel) (va fr : Z) :
  frame_alloc clock_get_victim va k = Ret fr k1 -> fr <> 0 ->
  (forall e, In e (items (ft k)) -> fte_counted e /\ refcnt e <> 0) ->
  forall e, In e (items (ft k1)) -> fte_counted e /\ refcnt e <> 0.
Proof.
  intros Halloc Hfr Hinv e He.
  destruct (frame_alloc_success k k1 va fr Halloc Hfr)
    as (rest & n & _ & _ & _ & Hft & _).
  rewrite Hft in He. cbn [items] in He. apply in_app_or in He.
  destruct He as [He | [<- | []]]; [now apply Hinv|].
  split; [reflexivity | discriminate].
Qed.

(** X23: on a well-formed table, for a pair not yet mapped, a successful
    frame_alloc followed at once by frame_free of the returned page (by the
    same process) gives the table back as it was: same cardinality, the new
    entry gone, no reference for the pair left; the page and the two heap
    blocks are back as well. *)
Theorem frame_alloc_free_restores (k k1 : kernel) (va fr : Z) :
  frame_table_ok k ->
  ~ referenced k (tid (cur k)) va ->
  frame_alloc clock_get_victim va k = Ret fr k1 -> fr <> 0 ->
  exists k2,
    frame_free fr k1 = Ret tt k2
    /\ ft k2 = ft k
    /\ length (items (ft k2)) = length (items (ft k))
    /\ (forall e, In e (items (ft k2)) -> paddr e <> fr)
    /\ ~ referenced k2 (tid (cur k)) va
    /\ user_pool k2 = user_pool k /\ heap_free k2 = heap_free k.
Proof.
  intros (Hhand & Hlive & Hnull) Hnew Halloc Hfr.
  destruct (frame_alloc_success k k1 va fr Halloc Hfr)
    as (rest & n & Hpool & Hheap & _ & Hft & Hpool1 & Hheap1 & Hcur).
  assert (Hfresh : forall y, In y (items (ft k)) -> paddr y <> fr).
  { intros y Hy Heq. apply (Hlive y Hy). rewrite Hpool, Heq. now left. }
  rewrite <- Hcur in Hft.
  rewrite (frame_free_fresh k1 (items (ft k)) (hand (ft k)) fr va Hft Hfresh Hhand Hfr).
  eexists. split; [reflexivity|]. simpl.
  assert (Hsame : {| items := items (ft k); hand := hand (ft k) |} = ft k)
    by (destruct (ft k); reflexivity).
  rewrite Hsame, Hpool, Hpool1, Hheap, Hheap1.
  split; [reflexivity|]. split; [reflexivity|]. split; [exact Hfresh|].
  split; [|split; reflexivity].
  intros (e & r & He & Hr). apply Hnew. exists e, r.
  simpl in He. now split.
Qed.

End Alloc.

Lemma frame_alloc_free_restores_witness :
  let k := final (frame_alloc no_victim 134516736 (boot 4)) in
  length (items (ft k)) = 1%nat
  /\ exists k2,
       frame_free 3223785472 (final (frame_alloc no_victim 134512640 k))
       = Ret tt k2
       /\ ft k2 = ft k
       /\ length (items (ft k2)) = length (items (ft k))
       /\ (forall e, In e (items (ft k2)) -> paddr e <> 3223785472)
       /\ ~ referenced k2 (tid (cur k)) 134512640
       /\ user_pool k2 = user_pool k /\ heap_free k2 = heap_free k.
Proof.
  intros k. split; [reflexivity|].
  apply (frame_alloc_free_restores no_victim k).
  - unfold frame_table_ok; simpl. split; [left; lia|].
    split; [intros e [<-|[]] [H|[]]; discriminate|].
    intros [H|[]]; discriminate.
  - intros (e & r & [<-|[]] & [<-|[]] & _ & Hv). discriminate.
  - reflexivity.
  - discriminate.
Defined.

(** C3: when the second bookkeeping allocation of frame_alloc fails, the
    call returns NULL and the entry it had already pushed stays in the table
    with a reference count of zero. *)
Theorem frame_alloc_leaves_zero_count_fte :
  exists k1,
    frame_alloc no_victim 134512640 (boot 1) = Ret 0 k1
    /\ ft k1 = {| items := [{| paddr := 3223781376; reference_list := [];
                                refcnt := 0 |}];
                  hand := 0 |}
    /\ ~ no_zero_count k1.
Proof.
  eexists. split; [reflexivity|]. split; [reflexivity|].
  intros H. apply (H {| paddr := 3223781376; reference_list := []; refcnt := 0 |}).
  - simpl. now left.
  - reflexivity.
Qed.

(** frame_free decrements the count before it looks for the caller's
    reference: called by process 7 on a frame that processes 8 and 9 map, it
    leaves the count at 1 and both references in the list. *)
Lemma frame_free_by_stranger :
  let shared := {| paddr := 3223781376;
                   reference_list := [{| process := 8; vaddr := 134512640 |};
                                      {| process := 9; vaddr := 134516736 |}];
                   refcnt := 2 |} in
  let k := set_ft {| items := [shared]; hand := 0 |} (boot 2) in
  fte_counted shared
  /\ exists k',
       frame_free 3223781376 k = Ret tt k'
       /\ items (ft k') = [set_refcnt 1 shared]
       /\ ~ fte_counted (set_refcnt 1 shared).
Proof.
  intros shared k. split; [reflexivity|].
  eexists. split; [reflexivity|]. split; [reflexivity|]. discriminate.
Qed.

(** C8: allocate followed by release does not always give the table its
    cardinality back.  On the empty, well-formed table with one heap block
    left, frame_alloc for the unmapped pair (7, 0x08048000) returns NULL with
    the entry it had pushed still linked, frame_free of the returned address
    finds nothing to release, and the table holds one entry where it held
    none.  On the table so left (heap blocks being available again) the next
    frame_alloc succeeds with the page of the stale entry, frame_free finds
    the stale entry first, and the new entry stays with its reference for
    the pair: two entries where there was one. *)
Theorem frame_alloc_free_not_restored :
  (frame_table_ok (boot 1) /\ ~ referenced (boot 1) 7 134512640
   /\ exists k1 k2,
        frame_alloc no_victim 134512640 (boot 1) = Ret 0 k1
        /\ frame_free 0 k1 = Ret tt k2
        /\ length (items (ft (boot 1))) = 0%nat
        /\ length (items (ft k2)) = 1%nat)
  /\ (let k := set_heap_free 2 (final (frame_alloc no_victim 134512640 (boot 1))) in
      ~ frame_table_ok k
      /\ exists fr k1 k2,
           frame_alloc no_victim 134512640 k = Ret fr k1 /\ fr <> 0
           /\ frame_free fr k1 = Ret tt k2
           /\ length (items (ft k)) = 1%nat
           /\ length (items (ft k2)) = 2%nat
           /\ referenced k2 7 134512640).
Proof.
  split.
  - split; [|split].
    + split; [right; split; reflexivity|].
      split; [intros e []|]. intros [H|[H|[]]]; discriminate.
    + intros (e & r & [] & _).
    + eexists. eexists.
      split; [reflexivity|]. split; [reflexivity|]. split; reflexivity.
  - intros k. split.
    + intros (_ & Hlive & _).
      apply (Hlive {| paddr := 3223781376; reference_list := []; refcnt := 0 |});
        simpl; now left.
    + eexists. eexists. eexists.
      split; [reflexivity|]. split; [discriminate|].
      split; [reflexivity|]. split; [reflexivity|]. split; [reflexivity|].
      exists {| paddr := 3223781376;
                reference_list := [{| process := 7; vaddr := 134512640 |}];
                refcnt := 1 |}, {| process := 7; vaddr := 134512640 |}.
      split; [simpl; auto|]. split; [now left|]. split; reflexivity.
Qed.

(** C5: a failure of the first allocation is unwound completely; a failure
    of the second one releases the page but leaves the table one entry
    longer than before the call, the entry still naming the released page. *)
Theorem frame_alloc_failure_not_unwound :
  frame_alloc no_victim 134512640 (boot 0) = Ret 0 (boot 0)
  /\ exists k1,
       frame_alloc no_victim 134512640 (boot 1) = Ret 0 k1
       /\ user_pool k1 = user_pool (boot 1)
       /\ length (items (ft k1)) = S (length (items (ft (boot 1))))
       /\ ft k1 <> ft (boot 1)
       /\ (exists e, In e (items (ft k1)) /\ In (paddr e) (user_pool k1))
       /\ heap_free k1 = 0%nat.
Proof.
  split; [reflexivity|].
  eexists. split; [reflexivity|]. simpl.
  repeat split.
  - discriminate.
  - eexists. split; [now left|]. simpl. now left.
Qed.

End FrameFacts.

(** * Properties of the system-call layer *)
Module SyscallFacts.
Import Vaddr Syscall.

(** ** Pages *)

Lemma pg_ofs_mod (a : Z) : pg_ofs a = a mod 4096.
Proof.
  unfold pg_ofs, PGMASK, PGSIZE, PGBITS.
  change (Z.shiftl 1 12 - 1) with (Z.ones 12).
  now rewrite Z.land_ones by lia.
Qed.

Lemma pg_round_down_div (a : Z) : pg_round_down a = 4096 * (a / 4096).
Proof.
  unfold pg_round_down, PGBITS.
  rewrite Z.shiftl_mul_pow2, Z.shiftr_div_pow2 by lia.
  change (2 ^ 12) with 4096. lia.
Qed.

Lemma PGSIZE_val : PGSIZE = 4096.
Proof. reflexivity. Qed.

Lemma pg_split (a : Z) : pg_round_down a + pg_ofs a = a.
Proof. rewrite pg_ofs_mod, pg_round_down_div. Z.div_mod_to_equations. lia. Qed.

Lemma pg_ofs_range (a : Z) : 0 <= pg_ofs a < PGSIZE.
Proof. rewrite pg_ofs_mod, PGSIZE_val. Z.div_mod_to_equations. lia. Qed.

(** An address between [s] and the end of the page of [s] lies in that page. *)
Lemma same_page (s x : Z) :
  s <= x < pg_round_down s + PGSIZE ->
  pg_round_down x = pg_round_down s /\ pg_ofs x = pg_ofs s + (x - s).
Proof.
  rewrite !pg_round_down_div, !pg_ofs_mod, PGSIZE_val.
  intros H. Z.div_mod_to_equations. lia.
Qed.

(** Case analysis on every comparison of the goal. *)
Ltac zbool :=
  repeat match goal with
         | |- context [?a <=? ?b] => destruct (Z.leb_spec a b)
         | |- context [?a <? ?b] => destruct (Z.ltb_spec a b)
         | |- context [?a =? ?b] => destruct (Z.eqb_spec a b)
         | |- context [?a >? ?b] => rewrite (Z.gtb_ltb a b)
         end.

Section Machine.
Context {E : Type}.
Implicit Types k : kernel E.

(** ** The terminator scan *)

Lemma sob_scan_spec (n : nat) :
  forall (a : Z) k,
    (exists rs,
        log (final (sob_scan n a k)) = log k ++ map EvRead rs
        /\ forall x, In x rs -> a <= x < a + Z.of_nat n)
    /\ (forall b k', sob_scan n a k = Ret b k' ->
          (b = false <->
           exists x, a <= x < a + Z.of_nat n /\ load k x = Some 0)).
Proof.
  induction n as [|n IH]; intros a k.
  - split.
    + exists []. simpl. now rewrite app_nil_r.
    + intros b k' H. inversion H; subst. split; [discriminate|].
      intros (x & Hx & _). lia.
  - cbn [sob_scan]. unfold bind, read_byte.
    destruct (resolve k a) as [c|] eqn:Hres.
    + destruct (mem k c =? 0) eqn:Hb.
      * split.
        -- exists [a]. split; [reflexivity|]. intros x [<-|[]]. lia.
        -- intros b k' H. inversion H; subst. split; [|reflexivity].
           intros _. exists a. split; [lia|].
           unfold load. rewrite Hres. apply Z.eqb_eq in Hb. now rewrite Hb.
      * destruct (IH (a + 1) (add_log (EvRead a) k)) as [(rs & Hlog & Hrs) Hret].
        split.
        -- exists (a :: rs). split.
           ++ rewrite Hlog. simpl. now rewrite <- app_assoc.
           ++ intros x [<-|Hx]; [lia|]. apply Hrs in Hx. lia.
        -- intros b k' H. rewrite (Hret b k' H). split.
           ++ intros (x & Hx & Hl). exists x. split; [lia | exact Hl].
           ++ intros (x & Hx & Hl). exists x. split; [|exact Hl].
              assert (x <> a); [|lia].
              intros ->. unfold load in Hl. rewrite Hres in Hl.
              apply Z.eqb_neq in Hb. congruence.
    + split.
      * exists [a]. split; [reflexivity|]. intros x [<-|[]]. lia.
      * intros b k' H. discriminate.
Qed.

Lemma sob_scan_returns (n : nat) :
  forall (a : Z) k,
    (forall i, 0 <= i < Z.of_nat n -> resolve k (a + i) <> None) ->
    exists b k', sob_scan n a k = Ret b k'.
Proof.
  induction n as [|n IH]; intros a k Hres.
  - now exists true, k.
  - cbn [sob_scan]. unfold bind, read_byte.
    destruct (resolve k a) as [c|] eqn:Hc.
    + destruct (mem k c =? 0); [eexists; eexists; reflexivity|].
      apply IH. intros i Hi. replace (a + 1 + i) with (a + (i + 1)) by lia.
      apply (Hres (i + 1)). lia.
    + exfalso. apply (Hres 0); [lia|]. now rewrite Z.add_0_r.
Qed.

Lemma resolve_same_page k (s x : Z) :
  pg_round_down x = pg_round_down s -> resolve k s <> None -> resolve k x <> None.
Proof.
  intros Hpg. unfold resolve. rewrite Hpg.
  assert (Hside : (PHYS_BASE <=? x) = (PHYS_BASE <=? s)).
  { rewrite !pg_round_down_div in Hpg. unfold PHYS_BASE.
    destruct (Z.leb_spec 3221225472 x); destruct (Z.leb_spec 3221225472 s);
      try reflexivity; exfalso; Z.div_mod_to_equations; lia. }
  rewrite Hside. destruct (PHYS_BASE <=? s); [discriminate|].
  destruct (pagedir k (pg_round_down s)); [discriminate | congruence].
Qed.

(** str_over_boundary returns whenever the byte at [s] can be read. *)
Lemma str_over_boundary_returns k (s : Z) :
  resolve k s <> None -> exists b k', str_over_boundary s k = Ret b k'.
Proof.
  intros Hs. unfold str_over_boundary. rewrite pg_split.
  apply sob_scan_returns. intros i Hi.
  pose proof (pg_ofs_range s). rewrite Z2Nat.id in Hi by lia.
  apply (resolve_same_page k s); [|exact Hs].
  apply (same_page s (s + i)). pose proof (pg_split s). lia.
Qed.


(** ** The byte loops *)

Lemma with_mem_log_id k : with_mem_log (mem k) (log k) k = k.
Proof. destruct k; reflexivity. Qed.

Lemma with_mem_log_twice (m1 m2 : Z -> Z) (l1 l2 : list event) k :
  with_mem_log m2 l2 (with_mem_log m1 l1 k) = with_mem_log m2 l2 k.
Proof. reflexivity. Qed.

Lemma resolve_with_mem_log (m : Z -> Z) (l : list event) k (a : Z) :
  resolve (with_mem_log m l k) a = resolve k a.
Proof. reflexivity. Qed.

Lemma mem_with_mem_log (m : Z -> Z) (l : list event) k :
  mem (with_mem_log m l k) = m.
Proof. reflexivity. Qed.

Lemma read_ok k (a b : Z) :
  load k a = Some b ->
  read_byte a k = Ret b (with_mem_log (mem k) (log k ++ [EvRead a]) k).
Proof.
  unfold load, read_byte. destruct (resolve k a); [|discriminate].
  intros H; inversion H; reflexivity.
Qed.

Lemma resolve_kernel k (a : Z) : PHYS_BASE <= a -> resolve k a = Some a.
Proof.
  intros H. unfold resolve.
  now replace (PHYS_BASE <=? a) with true by (symmetry; apply Z.leb_le; lia).
Qed.

Lemma store_ok k (a v : Z) :
  PHYS_BASE <= a ->
  store a v k
  = Ret tt (with_mem_log (fun x => if x =? a then v else mem k x) (log k) k).
Proof. intros H. unfold store. now rewrite resolve_kernel. Qed.

Lemma peek_load k (a b : Z) : load k a = Some b -> peek k a = b.
Proof. unfold peek. now intros ->. Qed.

Lemma c_string_at_tail k (a j : Z) (b : Z) :
  0 < j -> c_string_at k a j -> c_string_at k (a + 1) (j - 1).
Proof.
  intros Hj [Hrun Hend]. split.
  - intros i Hi. replace (a + 1 + i) with (a + (i + 1)) by lia.
    apply Hrun. lia.
  - now replace (a + 1 + (j - 1)) with (a + j) by lia.
Qed.

Lemma sob_scan_false (n : nat) :
  forall (a j : Z) k,
    0 <= j < Z.of_nat n -> c_string_at k a j ->
    exists l, sob_scan n a k = Ret false (with_mem_log (mem k) l k).
Proof.
  induction n as [|n IH]; intros a j k Hj Hs; [lia|].
  cbn [sob_scan]. unfold bind.
  destruct (Z.eq_dec j 0) as [->|Hne].
  - destruct Hs as [_ Hend]. rewrite Z.add_0_r in Hend.
    rewrite (read_ok k a 0 Hend). simpl. eexists. reflexivity.
  - destruct (proj1 Hs 0) as (b & Hb & Hnz); [lia|].
    rewrite Z.add_0_r in Hb. rewrite (read_ok k a b Hb).
    apply Z.eqb_neq in Hnz. rewrite Hnz.
    apply (c_string_at_tail k a j b) in Hs; [|lia].
    destruct (IH (a + 1) (j - 1) (with_mem_log (mem k) (log k ++ [EvRead a]) k))
      as (l & Hl); [lia | exact Hs |].
    rewrite Hl. eexists. reflexivity.
Qed.

Lemma sob_scan_true (n : nat) :
  forall (a : Z) k,
    (forall i, 0 <= i < Z.of_nat n -> exists b, load k (a + i) = Some b /\ b <> 0) ->
    exists l, sob_scan n a k = Ret true (with_mem_log (mem k) l k).
Proof.
  induction n as [|n IH]; intros a k Hrun.
  - exists (log k). unfold sob_scan, ret. now rewrite with_mem_log_id.
  - cbn [sob_scan]. unfold bind.
    destruct (Hrun 0) as (b & Hb & Hnz); [lia|].
    rewrite Z.add_0_r in Hb. rewrite (read_ok k a b Hb).
    apply Z.eqb_neq in Hnz. rewrite Hnz.
    destruct (IH (a + 1) (with_mem_log (mem k) (log k ++ [EvRead a]) k))
      as (l & Hl).
    + intros i Hi. replace (a + 1 + i) with (a + (i + 1)) by lia.
      apply Hrun. lia.
    + rewrite Hl. eexists. reflexivity.
Qed.

(** strlen finds the terminator when its fuel reaches it. *)
Lemma strlen_terminates (fuel : nat) :
  forall (a j : Z) k,
    0 <= j < Z.of_nat fuel -> c_string_at k a j ->
    exists l, strlen fuel a k = Ret j (with_mem_log (mem k) l k).
Proof.
  induction fuel as [|n IH]; intros a j k Hj Hs; [lia|].
  cbn [strlen]. unfold bind.
  destruct (Z.eq_dec j 0) as [->|Hne].
  - destruct Hs as [_ Hend]. rewrite Z.add_0_r in Hend.
    rewrite (read_ok k a 0 Hend). simpl. eexists. reflexivity.
  - destruct (proj1 Hs 0) as (b & Hb & Hnz); [lia|].
    rewrite Z.add_0_r in Hb. rewrite (read_ok k a b Hb).
    apply Z.eqb_neq in Hnz. rewrite Hnz.
    apply (c_string_at_tail k a j b) in Hs; [|lia].
    destruct (IH (a + 1) (j - 1) (with_mem_log (mem k) (log k ++ [EvRead a]) k))
      as (l & Hl); [lia | exact Hs |].
    rewrite Hl. unfold ret. exists l.
    replace (j - 1 + 1) with j by lia. reflexivity.
Qed.

Lemma sob_scan_false_inv (n : nat) :
  forall (a : Z) k k',
    sob_scan n a k = Ret false k' ->
    (exists j, 0 <= j < Z.of_nat n /\ c_string_at k a j)
    /\ exists l, k' = with_mem_log (mem k) l k.
Proof.
  induction n as [|n IH]; intros a k k' H; [discriminate|].
  cbn [sob_scan] in H. unfold bind, read_byte in H.
  destruct (resolve k a) as [c|] eqn:Hc; [|discriminate].
  destruct (Z.eqb_spec (mem k c) 0) as [Hz|Hnz].
  - inversion H; subst. split; [|eexists; reflexivity].
    exists 0. split; [lia|]. split; [intros i Hi; lia|].
    unfold load. now rewrite Z.add_0_r, Hc, Hz.
  - apply IH in H. destruct H as [(j & Hj & Hrun & Hend) (l & ->)].
    split; [|exists l; reflexivity].
    exists (j + 1). split; [lia|]. split.
    + intros i Hi. destruct (Z.eq_dec i 0) as [->|Hi0].
      * exists (mem k c). unfold load. now rewrite Z.add_0_r, Hc.
      * destruct (Hrun (i - 1)) as (b & Hb & Hbz); [lia|].
        exists b. replace (a + i) with (a + 1 + (i - 1)) by lia. now split.
    + now replace (a + (j + 1)) with (a + 1 + j) by lia.
Qed.

(** In strlbond the fuel of strlen does not run out: once the ASSERT on
    str_over_boundary has passed, strlen returns. *)
Lemma strlen_after_assert k (s : Z) k1 :
  str_over_boundary s k = Ret false k1 ->
  exists j k2, strlen (Z.to_nat (PGSIZE - pg_ofs s)) s k1 = Ret j k2.
Proof.
  unfold str_over_boundary. rewrite pg_split. intros H.
  apply sob_scan_false_inv in H. destruct H as [(j & Hj & Hs) (l & ->)].
  destruct (strlen_terminates (Z.to_nat (PGSIZE - pg_ofs s)) s j
              (with_mem_log (mem k) l k) Hj Hs) as (l' & Hl).
  eexists. eexists. exact Hl.
Qed.

Lemma peek_after_store k (a c d v : Z) (l : list event) :
  resolve k a = Some c -> c <> d ->
  peek (with_mem_log (fun x => if x =? d then v else mem k x) l k) a = peek k a.
Proof.
  intros Hc Hd. unfold peek, load.
  rewrite resolve_with_mem_log, Hc, mem_with_mem_log.
  now replace (c =? d) with false by (symmetry; apply Z.eqb_neq; lia).
Qed.

(** The loop of memcpy, into kernel memory from cells outside the destination. *)
Lemma memcpy_bytes_ok (n : nat) :
  forall (dst src : Z) k,
    PHYS_BASE <= dst ->
    (forall i, 0 <= i < Z.of_nat n ->
       exists c, resolve k (src + i) = Some c
                 /\ (c < dst \/ dst + Z.of_nat n <= c)) ->
    exists m' l,
      memcpy_bytes n dst src k = Ret tt (with_mem_log m' l k)
      /\ forall x, m' x = if (dst <=? x) && (x <? dst + Z.of_nat n)
                         then peek k (src + (x - dst)) else mem k x.
Proof.
  induction n as [|n IH]; intros dst src k Hdst Hsrc.
  - exists (mem k), (log k). split.
    + unfold memcpy_bytes, ret. now rewrite with_mem_log_id.
    + intros x.
      destruct ((dst <=? x) && (x <? dst + Z.of_nat 0)) eqn:Hc; [|reflexivity].
      apply andb_prop in Hc. destruct Hc as [H1 H2].
      apply Z.leb_le in H1. apply Z.ltb_lt in H2. lia.
  - cbn [memcpy_bytes]. unfold bind.
    destruct (Hsrc 0) as (c0 & Hc0 & Hout0); [lia|].
    rewrite Z.add_0_r in Hc0.
    assert (Hl0 : load k src = Some (mem k c0)) by (unfold load; now rewrite Hc0).
    rewrite (read_ok k src _ Hl0).
    rewrite store_ok by exact Hdst. cbn [mem log with_mem_log].
    match goal with
    | |- context [memcpy_bytes n _ _ ?k1] =>
        destruct (IH (dst + 1) (src + 1) k1) as (m' & l & Hrun & Hm')
    end.
    + lia.
    + intros i Hi. destruct (Hsrc (i + 1)) as (c & Hc & Hout); [lia|].
      exists c. replace (src + 1 + i) with (src + (i + 1)) by lia.
      split; [exact Hc | lia].
    + rewrite Hrun. exists m', l. split; [reflexivity|].
      intros x. rewrite Hm', !with_mem_log_twice, !mem_with_mem_log, Nat2Z.inj_succ.
      zbool; cbn [andb]; try lia; try reflexivity.
      * replace (src + 1 + (x - (dst + 1))) with (src + (x - dst)) by lia.
        destruct (Hsrc (x - dst)) as (c & Hc & Hout); [lia|].
        apply peek_after_store with (c := c); [exact Hc | lia].
      * subst x. rewrite Z.sub_diag, Z.add_0_r. symmetry. now apply peek_load.
Qed.

(** memcpy into kernel memory from cells outside the destination. *)
Lemma memcpy_ok (n : nat) :
  forall (dst src : Z) k,
    PHYS_BASE <= dst -> src <> 0 ->
    (forall i, 0 <= i < Z.of_nat n ->
       exists c, resolve k (src + i) = Some c
                 /\ (c < dst \/ dst + Z.of_nat n <= c)) ->
    exists m' l,
      memcpy n dst src k = Ret tt (with_mem_log m' l k)
      /\ forall x, m' x = if (dst <=? x) && (x <? dst + Z.of_nat n)
                         then peek k (src + (x - dst)) else mem k x.
Proof.
  intros dst src k Hdst Hsrc Hcells. unfold memcpy, bind, assert.
  replace (dst =? 0) with false
    by (symmetry; apply Z.eqb_neq; unfold PHYS_BASE in Hdst; lia).
  replace (src =? 0) with false by (symmetry; now apply Z.eqb_neq).
  cbn [negb orb]. now apply memcpy_bytes_ok.
Qed.

(** ** Translation and the kernel alias of a user page *)

Lemma u32_small (z : Z) : 0 <= z < 4294967296 -> u32 z = z.
Proof. intros H. unfold u32. now apply Z.mod_small. Qed.

Lemma user_page_below (a : Z) :
  a < PHYS_BASE -> pg_round_down a + PGSIZE <= PHYS_BASE.
Proof.
  rewrite pg_round_down_div, PGSIZE_val. unfold PHYS_BASE.
  intros H. Z.div_mod_to_equations. lia.
Qed.

Lemma resolve_user k (a kpage : Z) :
  a < PHYS_BASE -> pagedir k (pg_round_down a) = Some kpage ->
  resolve k a = Some (kpage + pg_ofs a).
Proof.
  intros Ha Hp. unfold resolve.
  replace (PHYS_BASE <=? a) with false by (symmetry; apply Z.leb_gt; lia).
  now rewrite Hp.
Qed.

Lemma resolve_user_inv k (a c : Z) :
  a < PHYS_BASE -> resolve k a = Some c ->
  exists kpage, pagedir k (pg_round_down a) = Some kpage /\ c = kpage + pg_ofs a.
Proof.
  intros Ha. unfold resolve.
  replace (PHYS_BASE <=? a) with false by (symmetry; apply Z.leb_gt; lia).
  destruct (pagedir k (pg_round_down a)) as [kp|]; [|discriminate].
  intros H; inversion H. now exists kp.
Qed.

(** Within the page of [src], the bytes at the translated address are the
    bytes the user sees at [src]. *)
Lemma alias k (src kpage i : Z) :
  pagedir_ok k -> src < PHYS_BASE ->
  pagedir k (pg_round_down src) = Some kpage ->
  0 <= i -> pg_ofs src + i < PGSIZE ->
  resolve k (src + i) = Some (kpage + pg_ofs src + i)
  /\ resolve k (kpage + pg_ofs src + i) = Some (kpage + pg_ofs src + i)
  /\ load k (kpage + pg_ofs src + i) = load k (src + i).
Proof.
  intros Hok Hsrc Hp Hi Hin.
  destruct (Hok _ _ Hp) as [Hk _].
  pose proof (pg_ofs_range src) as Ho. pose proof (pg_split src) as Hs.
  pose proof (user_page_below src Hsrc) as Hb.
  destruct (same_page src (src + i)) as [Hpg Hof]; [lia|].
  assert (Hr : resolve k (src + i) = Some (kpage + pg_ofs src + i)).
  { rewrite (resolve_user k (src + i) kpage); [|lia|now rewrite Hpg].
    rewrite Hof. f_equal. lia. }
  assert (Hr' : resolve k (kpage + pg_ofs src + i) = Some (kpage + pg_ofs src + i))
    by (apply resolve_kernel; lia).
  split; [exact Hr|]. split; [exact Hr'|].
  unfold load. now rewrite Hr, Hr'.
Qed.

(** ** The second half of strlbond *)

Lemma strlbond_unfold (dst src size : Z) k :
  strlbond dst src size k
  = (s <- user_vtop src ;;
     over <- str_over_boundary s ;;
     ds <- (if over
            then let n := MIN (PGSIZE - pg_ofs src) (u32 (size - 1)) in
                 memcpy (Z.to_nat n) dst s ;;
                 store (dst + n) 0 ;;
                 ret (n, pg_round_down (u32 (src + PGSIZE)))
            else ret (0, s)) ;;
     copy_tail dst size (fst ds) (snd ds)) k.
Proof. reflexivity. Qed.

Lemma str_over_boundary_false k (s j : Z) :
  0 <= j -> pg_ofs s + j < PGSIZE -> c_string_at k s j ->
  exists l, str_over_boundary s k = Ret false (with_mem_log (mem k) l k).
Proof.
  intros Hj Hin Hs. unfold str_over_boundary. rewrite pg_split.
  apply sob_scan_false with (j := j); [|exact Hs].
  pose proof (pg_ofs_range s). rewrite Z2Nat.id; lia.
Qed.

Lemma str_over_boundary_true k (s : Z) :
  (forall i, 0 <= i -> pg_ofs s + i < PGSIZE ->
     exists b, load k (s + i) = Some b /\ b <> 0) ->
  exists l, str_over_boundary s k = Ret true (with_mem_log (mem k) l k).
Proof.
  intros Hs. unfold str_over_boundary. rewrite pg_split.
  apply sob_scan_true. intros i Hi. apply Hs; [lia|].
  pose proof (pg_ofs_range s). rewrite Z2Nat.id in Hi; lia.
Qed.

Lemma copy_tail_ok k (dst size d s' j : Z) :
  PHYS_BASE <= dst -> 0 <= d < size -> size < 4294967296 -> s' <> 0 ->
  0 <= j -> pg_ofs s' + j < PGSIZE -> c_string_at k s' j ->
  (forall i, 0 <= i <= j ->
     exists c, resolve k (s' + i) = Some c /\ (c < dst \/ dst + size <= c)) ->
  exists m' l,
    copy_tail dst size d s' k = Ret dst (with_mem_log m' l k)
    /\ forall x,
         m' x = if (dst + d <=? x) && (x <? dst + d + Z.min j (size - d - 1))
                then peek k (s' + (x - (dst + d)))
                else if x =? dst + d + Z.min j (size - d - 1) then 0
                     else mem k x.
Proof.
  intros Hdst Hd Hsize Hnull Hj Hin Hs Hcells.
  unfold copy_tail, bind.
  destruct (str_over_boundary_false k s' j Hj Hin Hs) as (l0 & H0).
  rewrite H0. cbn [negb assert]. unfold strlcpy, bind.
  replace (dst + d =? 0) with false
    by (symmetry; apply Z.eqb_neq; unfold PHYS_BASE in Hdst; lia).
  replace (s' =? 0) with false by (symmetry; now apply Z.eqb_neq).
  cbn [negb assert].
  destruct (strlen_terminates (Z.to_nat (PGSIZE - pg_ofs s')) s' j
              (with_mem_log (mem k) l0 k)) as (l1 & H1).
  { pose proof (pg_ofs_range s'). rewrite Z2Nat.id; lia. }
  { exact Hs. }
  rewrite H1, with_mem_log_twice, mem_with_mem_log.
  rewrite u32_small by lia.
  replace (size - d >? 0) with true by (symmetry; apply Z.gtb_lt; lia).
  cbv zeta.
  assert (Hlen : (if j <? size - d - 1 then j else size - d - 1)
                 = Z.min j (size - d - 1)).
  { destruct (Z.ltb_spec j (size - d - 1)); lia. }
  rewrite Hlen. set (n := Z.min j (size - d - 1)).
  assert (Hn : 0 <= n <= j /\ n <= size - d - 1) by (unfold n; lia).
  destruct (memcpy_ok (Z.to_nat n) (dst + d) s' (with_mem_log (mem k) l1 k))
    as (m2 & l2 & H2 & Hm2).
  { lia. }
  { exact Hnull. }
  { intros i Hi. rewrite Z2Nat.id in Hi by lia. rewrite Z2Nat.id by lia.
    rewrite resolve_with_mem_log.
    destruct (Hcells i) as (c & Hc & Hout); [lia|]. exists c. split; [exact Hc|lia]. }
  rewrite H2, with_mem_log_twice.
  rewrite store_ok by lia. rewrite mem_with_mem_log, with_mem_log_twice.
  unfold ret. eexists. eexists. split; [reflexivity|].
  intros x. cbv beta. rewrite Hm2. rewrite Z2Nat.id by lia.
  rewrite mem_with_mem_log.
  zbool; cbn [andb]; try lia; reflexivity.
Qed.

(** ** strlbond on a string that ends in the page of [src] or the next one *)

Lemma pg_aligned_add (kpage o : Z) :
  pg_ofs kpage = 0 -> 0 <= o < PGSIZE ->
  pg_ofs (kpage + o) = o /\ pg_round_down (kpage + o) = kpage.
Proof.
  rewrite !pg_ofs_mod, !pg_round_down_div, PGSIZE_val.
  intros H Ho. Z.div_mod_to_equations. lia.
Qed.

Lemma next_page_start (src : Z) :
  0 <= src < PHYS_BASE ->
  pg_round_down (u32 (src + PGSIZE)) = src + (PGSIZE - pg_ofs src)
  /\ pg_ofs (src + (PGSIZE - pg_ofs src)) = 0.
Proof.
  intros H. rewrite u32_small by (unfold PHYS_BASE, PGSIZE, PGBITS in *; simpl; lia).
  rewrite !pg_ofs_mod, !pg_round_down_div, PGSIZE_val.
  Z.div_mod_to_equations. lia.
Qed.

Lemma c_string_at_head k (a j : Z) :
  0 <= j -> c_string_at k a j -> exists b, load k a = Some b.
Proof.
  intros Hj [Hrun Hend]. destruct (Z.eq_dec j 0) as [->|Hne].
  - rewrite Z.add_0_r in Hend. now exists 0.
  - destruct (Hrun 0) as (b & Hb & _); [lia|]. rewrite Z.add_0_r in Hb. now exists b.
Qed.

Lemma strlbond_copies k (dst src size L : Z) :
  pagedir_ok k ->
  0 <= src -> 0 <= L -> src + L < PHYS_BASE ->
  PHYS_BASE <= dst -> 0 < size < 4294967296 ->
  private_buffer k dst size ->
  c_string_at k src L ->
  src + L < pg_round_down src + 2 * PGSIZE ->
  exists k',
    strlbond dst src size k = Ret dst k'
    /\ (forall i, 0 <= i < Z.min L (size - 1) ->
          load k (src + i) = Some (mem k' (dst + i)))
    /\ mem k' (dst + Z.min L (size - 1)) = 0.
Proof.
  intros Hok Hsrc HL Huser Hdst Hsize Hpriv Hs Hspan.
  assert (Hsrc' : src < PHYS_BASE) by lia.
  destruct (c_string_at_head k src L HL Hs) as (b0 & Hb0).
  assert (Hmap : exists kpage, pagedir k (pg_round_down src) = Some kpage).
  { unfold load in Hb0. destruct (resolve k src) as [c|] eqn:Hc; [|discriminate].
    destruct (resolve_user_inv k src c Hsrc' Hc) as (kp & Hkp & _). now exists kp. }
  destruct Hmap as (kpage & Hkp).
  destruct (Hok _ _ Hkp) as [Hkbase Hkal].
  pose proof (pg_ofs_range src) as Ho. pose proof (pg_split src) as Hsp.
  pose proof PGSIZE_val as HPG.
  set (s := kpage + pg_ofs src).
  destruct (pg_aligned_add kpage (pg_ofs src) Hkal Ho) as [Hsofs Hspg].
  fold s in Hsofs, Hspg.
  assert (Halias : forall i, 0 <= i -> pg_ofs src + i < PGSIZE ->
            resolve k (src + i) = Some (s + i)
            /\ resolve k (s + i) = Some (s + i)
            /\ load k (s + i) = load k (src + i)).
  { intros i Hi Hin. exact (alias k src kpage i Hok Hsrc' Hkp Hi Hin). }
  assert (Hcell : forall i, 0 <= i -> pg_ofs src + i < PGSIZE ->
            s + i < dst \/ dst + size <= s + i).
  { intros i Hi Hin. destruct (Halias i Hi Hin) as (Hr & _).
    apply (Hpriv (src + i)); [|exact Hr].
    pose proof (user_page_below src Hsrc'). lia. }
  rewrite strlbond_unfold. unfold bind at 1. unfold user_vtop.
  replace (translate k src) with s
    by (unfold translate, s;
        replace (src <? PHYS_BASE) with true by (symmetry; apply Z.ltb_lt; lia);
        now rewrite Hkp).
  unfold add_log. unfold bind at 1.
  destruct (Z_lt_le_dec (pg_ofs src + L) PGSIZE) as [Hin | Hover].
  - (* the terminator lies in the page of src *)
    assert (Hs1 : c_string_at k s L).
    { destruct Hs as [Hrun Hend]. split.
      - intros i Hi. destruct (Halias i) as (_ & _ & Hl); [lia|lia|].
        rewrite Hl. now apply Hrun.
      - destruct (Halias L) as (_ & _ & Hl); [lia|lia|]. now rewrite Hl. }
    destruct (str_over_boundary_false (with_mem_log (mem k) (log k ++ [EvTranslate src]) k)
                s L) as (l0 & H0); [lia | lia | exact Hs1 |].
    rewrite H0, with_mem_log_twice, mem_with_mem_log.
    unfold bind at 1. unfold ret at 1. cbn [fst snd].
    destruct (copy_tail_ok (with_mem_log (mem k) l0 k) dst size 0 s L)
      as (m' & l & Hrun & Hm'); try lia.
    { exact Hs1. }
    { intros i Hi. exists (s + i). rewrite resolve_with_mem_log.
      destruct (Halias i) as (_ & Hr & _); [lia|lia|]. split; [exact Hr|].
      apply Hcell; lia. }
    rewrite Hrun, with_mem_log_twice. eexists. split; [reflexivity|].
    rewrite mem_with_mem_log. rewrite !Z.add_0_r, !Z.sub_0_r in Hm'.
    split.
    + intros i Hi. rewrite Hm'.
      replace ((dst <=? dst + i) && (dst + i <? dst + Z.min L (size - 1)))
        with true by (symmetry; apply andb_true_intro; split;
                      [apply Z.leb_le | apply Z.ltb_lt]; lia).
      replace (dst + i - dst) with i by lia.
      destruct (Halias i) as (_ & _ & Hl); [lia|lia|].
      destruct (proj1 Hs i) as (b & Hb & _); [lia|].
      rewrite Hb. f_equal. symmetry. apply peek_load.
      change (load k (s + i) = Some b). now rewrite Hl.
    + rewrite Hm'.
      replace (dst + Z.min L (size - 1) <? dst + Z.min L (size - 1))
        with false by (symmetry; apply Z.ltb_ge; lia).
      rewrite andb_false_r. now rewrite Z.eqb_refl.
  - (* the string runs over the end of the page *)
    set (r := PGSIZE - pg_ofs src) in *.
    assert (Hfirst : forall i, 0 <= i -> pg_ofs src + i < PGSIZE ->
              exists b, load k (s + i) = Some b /\ b <> 0).
    { intros i Hi Hi'. destruct (Halias i Hi Hi') as (_ & _ & Hl).
      rewrite Hl. apply (proj1 Hs). lia. }
    destruct (str_over_boundary_true (with_mem_log (mem k) (log k ++ [EvTranslate src]) k) s)
      as (l0 & H0).
    { intros i Hi Hi'. rewrite Hsofs in Hi'. now apply Hfirst. }
    rewrite H0, with_mem_log_twice, mem_with_mem_log.
    rewrite u32_small by lia. cbv zeta.
    assert (Hmin : MIN r (size - 1) = Z.min r (size - 1)).
    { unfold MIN. rewrite Z.gtb_ltb.
      destruct (Z.ltb_spec (size - 1) r); lia. }
    rewrite Hmin. set (n := Z.min r (size - 1)).
    assert (Hn : 0 <= n <= r /\ n <= size - 1) by (unfold n, r; lia).
    destruct (next_page_start src) as [Hnext Hnofs]; [lia|].
    fold r in Hnext, Hnofs. rewrite Hnext.
    unfold bind at 1. unfold bind at 1.
    destruct (memcpy_ok (Z.to_nat n) dst s (with_mem_log (mem k) l0 k))
      as (m1 & l1 & H1 & Hm1).
    { lia. }
    { unfold s. unfold PHYS_BASE in Hkbase. lia. }
    { intros i Hi. rewrite Z2Nat.id in Hi by lia. rewrite Z2Nat.id by lia.
      rewrite resolve_with_mem_log. exists (s + i).
      destruct (Halias i) as (_ & Hr & _); [lia | unfold r in *; lia |].
      split; [exact Hr|].
      destruct (Hcell i); [lia | unfold r in *; lia | lia | lia]. }
    rewrite Z2Nat.id in Hm1 by lia. rewrite mem_with_mem_log in Hm1.
    rewrite H1, with_mem_log_twice.
    unfold bind at 1. rewrite store_ok by lia.
    rewrite mem_with_mem_log, with_mem_log_twice. unfold ret at 1. cbn [fst snd].
    set (m2 := fun x => if x =? dst + n then 0 else m1 x).
    assert (Hm2 : forall c, c < dst \/ dst + size <= c -> m2 c = mem k c).
    { intros c Hc. unfold m2. rewrite Hm1.
      zbool; cbn [andb]; try lia; reflexivity. }
    assert (Hload2 : forall a, a < PHYS_BASE ->
              load (with_mem_log m2 (log (with_mem_log m1 l1 k)) k) a = load k a).
    { intros a Ha. unfold load. rewrite resolve_with_mem_log, mem_with_mem_log.
      destruct (resolve k a) as [c|] eqn:Hc; [|reflexivity].
      f_equal. apply Hm2. now apply (Hpriv a). }
    destruct (copy_tail_ok (with_mem_log m2 (log (with_mem_log m1 l1 k)) k)
                dst size n (src + r) (L - r))
      as (m3 & l3 & H3 & Hm3); try lia.
    { destruct Hs as [Hrun Hend]. split.
      - intros i Hi. rewrite Hload2 by lia.
        replace (src + r + i) with (src + (r + i)) by lia. apply Hrun. lia.
      - rewrite Hload2 by lia.
        now replace (src + r + (L - r)) with (src + L) by lia. }
    { intros i Hi. rewrite resolve_with_mem_log.
      assert (Hex : exists b, load k (src + r + i) = Some b).
      { destruct Hs as [Hrun Hend].
        destruct (Z.eq_dec (r + i) L) as [He|Hne].
        - exists 0. now replace (src + r + i) with (src + L) by lia.
        - destruct (Hrun (r + i)) as (b & Hb & _); [lia|].
          exists b. now replace (src + r + i) with (src + (r + i)) by lia. }
      destruct Hex as (b & Hb). unfold load in Hb.
      destruct (resolve k (src + r + i)) as [c|] eqn:Hc; [|discriminate].
      exists c. split; [reflexivity|]. apply (Hpriv (src + r + i)); [lia|exact Hc]. }
    rewrite H3, with_mem_log_twice. eexists. split; [reflexivity|].
    rewrite mem_with_mem_log. rewrite mem_with_mem_log in Hm3.
    assert (Hpeek2 : forall i, 0 <= i -> r + i <= L ->
              peek (with_mem_log m2 (log (with_mem_log m1 l1 k)) k) (src + r + i)
              = peek k (src + (r + i))).
    { intros i Hi Hi'. unfold peek. rewrite Hload2 by lia.
      now replace (src + r + i) with (src + (r + i)) by lia. }
    split.
    + intros i Hi. rewrite Hm3.
      destruct (proj1 Hs i) as (b & Hb & _); [lia|]. rewrite Hb. f_equal.
      destruct (Z_lt_le_dec i n) as [Hlt | Hge].
      * (* a byte of the first page *)
        replace ((dst + n <=? dst + i) && (dst + i <? dst + n + Z.min (L - r) (size - n - 1)))
          with false
          by (symmetry; apply andb_false_intro1; apply Z.leb_gt; lia).
        replace (dst + i =? dst + n + Z.min (L - r) (size - n - 1)) with false
          by (symmetry; apply Z.eqb_neq; lia).
        fold (m2 (dst + i)). unfold m2.
        replace (dst + i =? dst + n) with false by (symmetry; apply Z.eqb_neq; lia).
        rewrite Hm1.
        replace ((dst <=? dst + i) && (dst + i <? dst + n)) with true
          by (symmetry; apply andb_true_intro; split;
              [apply Z.leb_le | apply Z.ltb_lt]; lia).
        replace (dst + i - dst) with i by lia.
        symmetry. apply peek_load.
        destruct (Halias i) as (_ & _ & Hl); [lia | unfold r in *; lia |].
        change (load k (s + i) = Some b). now rewrite Hl.
      * (* a byte of the next page *)
        replace ((dst + n <=? dst + i) && (dst + i <? dst + n + Z.min (L - r) (size - n - 1)))
          with true
          by (symmetry; apply andb_true_intro; split;
              [apply Z.leb_le | apply Z.ltb_lt]; lia).
        assert (n = r) by lia.
        replace (dst + i - (dst + n)) with (i - r) by lia.
        rewrite Hpeek2 by lia.
        replace (r + (i - r)) with i by lia.
        symmetry. now apply peek_load.
    + rewrite Hm3.
      replace (dst + Z.min L (size - 1)) with (dst + n + Z.min (L - r) (size - n - 1)) by lia.
      replace (dst + n + Z.min (L - r) (size - n - 1)
               <? dst + n + Z.min (L - r) (size - n - 1))
        with false by (symmetry; apply Z.ltb_ge; lia).
      rewrite andb_false_r. now rewrite Z.eqb_refl.
Qed.

(** C7 (amended): on a source whose terminator, at index [L], lies in the
    page of [src] or in the mapped page after it, strlbond returns; a string
    shorter than [size] (in particular one whose terminator is the last byte
    of its page) is in the buffer in full, terminator included; a string with
    no terminator within [size] is cut to its first [size - 1] bytes and a
    forced terminator. *)
Theorem strlbond_copies_or_truncates k (dst src size L : Z) :
  pagedir_ok k ->
  0 <= src -> 0 <= L -> src + L < PHYS_BASE ->
  PHYS_BASE <= dst -> 0 < size < 4294967296 ->
  private_buffer k dst size ->
  c_string_at k src L ->
  src + L < pg_round_down src + 2 * PGSIZE ->
  exists k',
    strlbond dst src size k = Ret dst k'
    /\ (L < size ->
        forall i, 0 <= i <= L -> load k (src + i) = Some (mem k' (dst + i)))
    /\ (size <= L ->
        (forall i, 0 <= i < size - 1 -> load k (src + i) = Some (mem k' (dst + i)))
        /\ mem k' (dst + (size - 1)) = 0).
Proof.
  intros Hok Hsrc HL Huser Hdst Hsize Hpriv Hs Hspan.
  destruct (strlbond_copies k dst src size L Hok Hsrc HL Huser Hdst Hsize Hpriv Hs Hspan)
    as (k' & Hrun & Hbytes & Hend).
  exists k'. split; [exact Hrun|]. split.
  - intros Hlt i Hi. rewrite Z.min_l in Hbytes, Hend by lia.
    destruct (Z.eq_dec i L) as [->|Hne].
    + rewrite Hend. exact (proj2 Hs).
    + apply Hbytes. lia.
  - intros Hge. rewrite Z.min_r in Hbytes, Hend by lia. now split.
Qed.

End Machine.

(** ** The dispatcher *)

Section Dispatch.
Context {E : Type} (sv : services E).
Implicit Types k : kernel E.

Lemma load_kernel (m : Z -> Z) (l : list event) k (a : Z) :
  PHYS_BASE <= a -> load (with_mem_log m l k) a = Some (m a).
Proof.
  intros H. unfold load. now rewrite resolve_with_mem_log, resolve_kernel.
Qed.

Lemma read_word_ok k (a : Z) :
  PHYS_BASE <= a ->
  read_word a k
  = Ret (word_at k a)
        (with_mem_log (mem k)
           (log k ++ [EvRead a; EvRead (a + 1); EvRead (a + 2); EvRead (a + 3)]) k).
Proof.
  intros H. unfold read_word, bind.
  rewrite <- (with_mem_log_id k) at 1.
  rewrite (read_ok _ a (mem k a)) by (apply load_kernel; lia).
  rewrite with_mem_log_twice, mem_with_mem_log.
  rewrite (read_ok _ (a + 1) (mem k (a + 1))) by (apply load_kernel; lia).
  rewrite with_mem_log_twice, mem_with_mem_log.
  rewrite (read_ok _ (a + 2) (mem k (a + 2))) by (apply load_kernel; lia).
  rewrite with_mem_log_twice, mem_with_mem_log.
  rewrite (read_ok _ (a + 3) (mem k (a + 3))) by (apply load_kernel; lia).
  rewrite with_mem_log_twice, mem_with_mem_log.
  unfold ret, word_at. cbn [log with_mem_log]. now rewrite <- !app_assoc.
Qed.

Lemma handler_valid_stack k (fr : intr_frame) :
  esp fr <> 0 -> esp fr < PHYS_BASE -> PHYS_BASE <= translate k (esp fr) ->
  syscall_handler sv fr k
  = syscall_switch sv fr (translate k (esp fr))
      (s32 (word_at k (translate k (esp fr)))) (at_switch k fr).
Proof.
  intros Hnz Hlt Htr. unfold syscall_handler, bind, assert.
  replace (esp fr =? 0) with false by (symmetry; apply Z.eqb_neq; lia).
  cbn [negb].
  replace (PHYS_BASE <=? esp fr) with false by (symmetry; apply Z.leb_gt; lia).
  unfold ret at 1. unfold user_vtop, add_log.
  replace (translate k (esp fr) =? 0) with false
    by (symmetry; apply Z.eqb_neq; unfold PHYS_BASE in Htr; lia).
  unfold ret at 1.
  rewrite read_word_ok by exact Htr.
  rewrite with_mem_log_twice, mem_with_mem_log.
  unfold at_switch, word_at. cbn [log mem with_mem_log].
  now rewrite <- !app_assoc.
Qed.

Lemma handler_bad_stack k (fr : intr_frame) :
  esp fr <> 0 -> PHYS_BASE <= esp fr \/ translate k (esp fr) = 0 ->
  exists k',
    syscall_handler sv fr k = Exit (-1) k'
    /\ exit_status (cur k') = -1
    /\ console k' = console k ++ [ConExit (name (cur k)) (-1)]
    /\ mem k' = mem k /\ kernel_pool k' = kernel_pool k /\ ext k' = ext k.
Proof.
  intros Hnz Hbad. unfold syscall_handler, bind, assert.
  replace (esp fr =? 0) with false by (symmetry; apply Z.eqb_neq; lia).
  cbn [negb].
  destruct (Z.leb_spec PHYS_BASE (esp fr)) as [Hge | Hlt].
  - unfold exit. eexists. split; [reflexivity|]. cbn. repeat split.
  - destruct Hbad as [Hge | Hz]; [lia|].
    unfold ret at 1. unfold user_vtop. rewrite Hz. cbn [Z.eqb].
    unfold exit. eexists. split; [reflexivity|]. cbn. repeat split.
Qed.

Lemma switch_exec fr esp1 :
  syscall_switch sv fr esp1 SYS_EXEC
  = (a1 <- read_word (esp1 + 4 * 1) ;; r <- exec sv a1 ;; ret (set_eax (u32 r) fr)).
Proof. reflexivity. Qed.

Lemma switch_create fr esp1 :
  syscall_switch sv fr esp1 SYS_CREATE
  = (a1 <- read_word (esp1 + 4 * 1) ;; a2 <- read_word (esp1 + 4 * 2) ;;
     r <- create sv a1 a2 ;; ret (set_eax (Z_of_bool r) fr)).
Proof. reflexivity. Qed.

Lemma switch_remove fr esp1 :
  syscall_switch sv fr esp1 SYS_REMOVE
  = (a1 <- read_word (esp1 + 4 * 1) ;; r <- remove sv a1 ;;
     ret (set_eax (Z_of_bool r) fr)).
Proof. reflexivity. Qed.

Lemma switch_open fr esp1 :
  syscall_switch sv fr esp1 SYS_OPEN
  = (a1 <- read_word (esp1 + 4 * 1) ;; r <- open sv a1 ;; ret (set_eax (u32 r) fr)).
Proof. reflexivity. Qed.

Lemma switch_read fr esp1 :
  syscall_switch sv fr esp1 SYS_READ
  = (a1 <- read_word (esp1 + 4 * 1) ;; a2 <- read_word (esp1 + 4 * 2) ;;
     a3 <- read_word (esp1 + 4 * 3) ;;
     r <- read (s32 a1) a2 a3 ;; ret (set_eax (u32 r) fr)).
Proof. reflexivity. Qed.

Lemma switch_write fr esp1 :
  syscall_switch sv fr esp1 SYS_WRITE
  = (a1 <- read_word (esp1 + 4 * 1) ;; a2 <- read_word (esp1 + 4 * 2) ;;
     a3 <- read_word (esp1 + 4 * 3) ;;
     write (s32 a1) a2 a3 ;; ret fr).
Proof. reflexivity. Qed.

Lemma switch_unknown fr esp1 num :
  ~ 0 <= num <= 19 -> syscall_switch sv fr esp1 num = panic "Wrong System call.".
Proof.
  intros H. unfold syscall_switch.
  repeat match goal with
         | |- context [num =? ?c] =>
             destruct (Z.eqb_spec num c) as [->|_];
             [exfalso; apply H; cbv; split; intro; discriminate|]
         end.
  reflexivity.
Qed.

Lemma write_loop_S (n : nat) (d ub b size wrote : Z) :
  write_loop (E := E) (S n) d ub b size wrote
  = if size >? 0
    then strlbond b ub (MIN (u32 (size + 1)) PGSIZE) ;;
         (if d =? STDOUT_FILENO
          then putbuf b (MIN size (PGSIZE - 1))
          else ret tt) ;;
         write_loop n d ub b
           (u32 (size - MIN size (PGSIZE - 1)))
           (s32 (wrote + MIN size (PGSIZE - 1)))
    else ret wrote.
Proof. reflexivity. Qed.

(** The loop of write has left when its fuel is used up: with [size] rounds
    to go at most, one more round changes nothing. *)
Lemma write_loop_fuel (n : nat) :
  forall (d ub b size wrote : Z) k,
    0 <= size <= Z.of_nat n ->
    write_loop (S n) d ub b size wrote k = write_loop n d ub b size wrote k.
Proof.
  induction n as [|n IH]; intros d ub b size wrote k Hsize.
  - assert (size = 0) by lia. subst size. reflexivity.
  - rewrite (write_loop_S n d ub b size wrote),
      (write_loop_S (S n) d ub b size wrote).
    destruct (Z.gtb_spec size 0) as [Hpos|]; [|reflexivity].
    unfold bind at 1 3. destruct (strlbond b ub (MIN (u32 (size + 1)) PGSIZE) k);
      try reflexivity.
    assert (Hnext : 0 <= u32 (size - MIN size (PGSIZE - 1)) <= Z.of_nat n).
    { assert (Hm : 1 <= MIN size (PGSIZE - 1) <= size).
      { unfold MIN. rewrite Z.gtb_ltb, PGSIZE_val.
        destruct (Z.ltb_spec (4096 - 1) size); lia. }
      unfold u32. split; [apply Z.mod_pos_bound; lia|].
      transitivity (size - MIN size (PGSIZE - 1)); [apply Z.mod_le; lia | lia]. }
    unfold bind.
    destruct (d =? STDOUT_FILENO); [unfold putbuf | unfold ret]; now apply IH.
Qed.

(** Whatever write returns, the dispatcher hands the frame back unchanged. *)
Lemma handler_write_keeps_frame k (fr fr' : intr_frame) k' :
  esp fr <> 0 -> esp fr < PHYS_BASE -> PHYS_BASE <= translate k (esp fr) ->
  s32 (word_at k (translate k (esp fr))) = SYS_WRITE ->
  syscall_handler sv fr k = Ret fr' k' -> fr' = fr.
Proof.
  intros Hnz Hlt Htr Hnum. rewrite handler_valid_stack by assumption.
  rewrite Hnum, switch_write. unfold bind.
  repeat match goal with
         | |- context [match ?m with Ret _ _ => _ | _ => _ end] =>
             destruct m; try discriminate
         end.
  unfold ret. intros H. now inversion H.
Qed.

Lemma word_at_at_switch k fr (a : Z) : word_at (at_switch k fr) a = word_at k a.
Proof. reflexivity. Qed.

Lemma word_at_with_mem_log k (l : list event) (a : Z) :
  word_at (with_mem_log (mem k) l k) a = word_at k a.
Proof. reflexivity. Qed.

(** Words read in a state that has the memory of [k] are words of [k]. *)
Ltac same_words k :=
  repeat match goal with
         | |- context [word_at ?st ?a] =>
             progress change (word_at st a) with (word_at k a)
         end.

(** Closes the goals about the state a guarded call returns in. *)
Ltac in_band_state :=
  eexists; eexists; split; [reflexivity|];
  split; [first [intros _; reflexivity | intros Hw; exfalso; apply Hw; reflexivity]|];
  split;
  [first [ intros Hw; cbv in Hw; discriminate Hw
         | intros _ d n k0; reflexivity ]|];
  cbn [cur console mem kernel_pool ext log with_mem_log at_switch];
  do 5 (split; [reflexivity|]); split;
  [ unfold translations; rewrite ?flat_map_app; cbn [flat_map app];
    rewrite ?app_nil_r; reflexivity
  | let a := fresh "a" in
    let Hin := fresh "Hin" in
    intros a Hin; repeat rewrite in_app_iff in Hin; cbn [In] in Hin;
    repeat match goal with
           | H : _ \/ _ |- _ => destruct H as [H|H]
           end;
    try (now left); try discriminate; try contradiction;
    inversion Hin; subst; right; lia ].

(** C1 (amended): a pointer argument at or above the user/kernel boundary
    makes exec, create, remove, open, read and write return their in-band
    failure value; the dispatcher returns normally to the calling process,
    which is not terminated, and for exec, create, remove, open and read that
    value is in eax (for write the function returns -1; what eax then holds
    is not part of the statement).  The pointer is neither translated nor
    dereferenced: the stack pointer is the only address translated and the
    four stack words are all that is read. *)
Theorem kernel_pointer_fails_in_band k (fr : intr_frame) (num p : Z) :
  esp fr <> 0 -> esp fr < PHYS_BASE -> PHYS_BASE <= translate k (esp fr) ->
  In num [SYS_EXEC; SYS_CREATE; SYS_REMOVE; SYS_OPEN; SYS_READ; SYS_WRITE] ->
  s32 (word_at k (translate k (esp fr))) = num ->
  word_at k (translate k (esp fr) + 4 * pointer_slot num) = p ->
  PHYS_BASE <= p ->
  exists fr' k',
    syscall_handler sv fr k = Ret fr' k'
    /\ (num <> SYS_WRITE -> fr' = in_band_failure num fr)
    /\ (num = SYS_WRITE ->
        forall (d n : Z) (k0 : kernel E), write d p n k0 = Ret (-1) k0)
    /\ cur k' = cur k /\ console k' = console k /\ mem k' = mem k
    /\ kernel_pool k' = kernel_pool k /\ ext k' = ext k
    /\ translations (log k') = translations (log k) ++ [esp fr]
    /\ (forall a, In (EvRead a) (log k') ->
          In (EvRead a) (log k)
          \/ translate k (esp fr) <= a < translate k (esp fr) + 16).
Proof.
  intros Hnz Hlt Htr Hin Hnum Hp Hge.
  rewrite handler_valid_stack by assumption. rewrite Hnum.
  set (esp1 := translate k (esp fr)) in *.
  assert (Hk : PHYS_BASE <= esp1 + 4 * 1 /\ PHYS_BASE <= esp1 + 4 * 2
               /\ PHYS_BASE <= esp1 + 4 * 3) by lia.
  destruct Hk as (Hk1 & Hk2 & Hk3).
  apply Z.leb_le in Hge.
  destruct Hin as [<-|[<-|[<-|[<-|[<-|[<-|[]]]]]]];
    change (pointer_slot _) with 1 in Hp || change (pointer_slot _) with 2 in Hp.
  - rewrite switch_exec. unfold bind. rewrite read_word_ok by exact Hk1.
    rewrite word_at_at_switch, Hp. unfold exec. rewrite Hge. unfold ret.
    unfold at_switch, esp1. in_band_state.
  - rewrite switch_create. unfold bind. rewrite read_word_ok by exact Hk1.
    rewrite word_at_at_switch, Hp. rewrite read_word_ok by exact Hk2.
    unfold create. rewrite Hge. unfold ret.
    unfold at_switch, esp1. in_band_state.
  - rewrite switch_remove. unfold bind. rewrite read_word_ok by exact Hk1.
    rewrite word_at_at_switch, Hp. unfold remove. rewrite Hge. unfold ret.
    unfold at_switch, esp1. in_band_state.
  - rewrite switch_open. unfold bind. rewrite read_word_ok by exact Hk1.
    rewrite word_at_at_switch, Hp. unfold open. rewrite Hge. unfold ret.
    unfold at_switch, esp1. in_band_state.
  - rewrite switch_read. unfold bind. rewrite read_word_ok by exact Hk1.
    rewrite read_word_ok by exact Hk2. rewrite read_word_ok by exact Hk3.
    same_words k. rewrite Hp.
    unfold read. rewrite Hge. unfold ret.
    unfold at_switch, esp1. in_band_state.
  - rewrite switch_write. unfold bind. rewrite read_word_ok by exact Hk1.
    rewrite read_word_ok by exact Hk2. rewrite read_word_ok by exact Hk3.
    same_words k. rewrite Hp.
    unfold write. rewrite Hge. unfold ret.
    unfold at_switch, esp1. in_band_state.
Qed.

(** C6 (amended): on a trap with a non-null stack pointer, a stack pointer
    at or above the boundary, or one that does not translate, terminates the
    calling process with exit status -1 and leaves the kernel running; a
    call number that selects no operation, read from a valid stack, stops
    the kernel at PANIC ("Wrong System call."). *)
Theorem bad_trap_outcomes k (fr : intr_frame) :
  esp fr <> 0 ->
  (PHYS_BASE <= esp fr \/ translate k (esp fr) = 0 ->
   exists k',
     syscall_handler sv fr k = Exit (-1) k'
     /\ exit_status (cur k') = -1
     /\ console k' = console k ++ [ConExit (name (cur k)) (-1)]
     /\ mem k' = mem k /\ kernel_pool k' = kernel_pool k /\ ext k' = ext k)
  /\ (esp fr < PHYS_BASE -> PHYS_BASE <= translate k (esp fr) ->
      ~ 0 <= s32 (word_at k (translate k (esp fr))) <= 19 ->
      exists k', syscall_handler sv fr k = Panic "Wrong System call." k').
Proof.
  intros Hnz. split.
  - intros Hbad. now apply handler_bad_stack.
  - intros Hlt Htr Hnum. rewrite handler_valid_stack by assumption.
    rewrite switch_unknown by exact Hnum. unfold panic. eexists. reflexivity.
Qed.

End Dispatch.

(** ** The scratch page of exec, create, remove, open and write *)

Section ScratchPage.
Context {E : Type} (sv : services E).
Implicit Types k : kernel E.

Lemma neutral_ret {A} (a : A) : pool_neutral (E := E) (ret a).
Proof. intros k. now split. Qed.

Lemma neutral_bind {A B} (m : M (kernel E) A) (g : A -> M (kernel E) B) :
  pool_neutral m -> (forall a, pool_neutral (g a)) -> pool_neutral (bind m g).
Proof.
  intros Hm Hg k. unfold bind. specialize (Hm k).
  destruct (m k) as [a k1|st k1|msg k1|k1|ad k1]; cbn [final] in *;
    try exact Hm.
  destruct (Hg a k1) as [H1 H2]. destruct Hm as [H3 H4].
  split; [now rewrite H1 | now rewrite H2].
Qed.

Lemma neutral_step {A} (m : M (kernel E) A) k (a : A) k1 :
  pool_neutral m -> m k = Ret a k1 ->
  kernel_pool k1 = kernel_pool k /\ pallocs (log k1) = pallocs (log k).
Proof. intros Hm H. specialize (Hm k). now rewrite H in Hm. Qed.

Lemma pallocs_snoc_other (l : list event) (ev : event) :
  (match ev with EvGetPage _ | EvFreePage _ => false | _ => true end) = true ->
  pallocs (l ++ [ev]) = pallocs l.
Proof.
  intros H. unfold pallocs. rewrite filter_app. cbn [filter].
  destruct ev; try discriminate; now rewrite app_nil_r.
Qed.

Lemma neutral_read (a : Z) : pool_neutral (read_byte (E := E) a).
Proof.
  intros k. unfold read_byte.
  destruct (resolve k a); cbn [final kernel_pool log add_log with_mem_log];
    (split; [reflexivity | now apply pallocs_snoc_other]).
Qed.

Lemma neutral_store (a v : Z) : pool_neutral (store (E := E) a v).
Proof. intros k. unfold store. destruct (resolve k a); now split. Qed.

Lemma neutral_user_vtop (ua : Z) : pool_neutral (user_vtop (E := E) ua).
Proof.
  intros k. unfold user_vtop. cbn [final kernel_pool log add_log with_mem_log].
  split; [reflexivity | now apply pallocs_snoc_other].
Qed.

Lemma neutral_assert (c : bool) (msg : string) : pool_neutral (assert (S := kernel E) c msg).
Proof. intros k. unfold assert. destruct c; now split. Qed.

Lemma neutral_panic {A} (msg : string) : pool_neutral (panic (S := kernel E) (A := A) msg).
Proof. intros k. now split. Qed.

Create HintDb neutral.
#[local] Hint Resolve neutral_read neutral_store neutral_user_vtop neutral_assert
  @neutral_ret @neutral_panic : neutral.

(** Takes a computation apart along its binds and branches. *)
Ltac neutral :=
  repeat first
    [ progress auto with neutral
    | apply neutral_bind; [|intros]
    | match goal with
      | |- pool_neutral (if ?c then _ else _) => destruct c
      | |- pool_neutral (match ?x with _ => _ end) => destruct x
      end ].

Lemma neutral_memcpy_bytes (n : nat) :
  forall dst src, pool_neutral (memcpy_bytes (E := E) n dst src).
Proof. induction n as [|n IH]; intros dst src; cbn [memcpy_bytes]; neutral. Qed.

Lemma neutral_memcpy (n : nat) (dst src : Z) :
  pool_neutral (memcpy (E := E) n dst src).
Proof.
  unfold memcpy.
  apply neutral_bind; [apply neutral_assert | intros _].
  apply neutral_bind; [apply neutral_assert | intros _].
  apply neutral_memcpy_bytes.
Qed.

Lemma neutral_strlen (n : nat) : forall s, pool_neutral (strlen (E := E) n s).
Proof. induction n as [|n IH]; intros s; cbn [strlen]; neutral. Qed.

Lemma neutral_sob_scan (n : nat) : forall a, pool_neutral (sob_scan (E := E) n a).
Proof. induction n as [|n IH]; intros a; cbn [sob_scan]; neutral. Qed.

#[local] Hint Resolve neutral_memcpy neutral_strlen neutral_sob_scan : neutral.

Lemma neutral_strlcpy (dst src size : Z) : pool_neutral (strlcpy (E := E) dst src size).
Proof. unfold strlcpy. neutral. Qed.

Lemma neutral_str_over_boundary (s : Z) : pool_neutral (str_over_boundary (E := E) s).
Proof. unfold str_over_boundary. neutral. Qed.

#[local] Hint Resolve neutral_strlcpy neutral_str_over_boundary : neutral.

Lemma neutral_strlbond (dst src size : Z) : pool_neutral (strlbond (E := E) dst src size).
Proof. unfold strlbond. neutral. Qed.

Lemma neutral_putbuf (b n : Z) : pool_neutral (putbuf (E := E) b n).
Proof. intros k. now split. Qed.

Lemma neutral_calloc : pool_neutral (calloc (E := E)).
Proof. intros k. unfold calloc. destruct (heap_free k); now split. Qed.

#[local] Hint Resolve neutral_strlbond neutral_putbuf neutral_calloc : neutral.

Lemma neutral_write_loop (n : nat) :
  forall d ub b size wrote, pool_neutral (write_loop (E := E) n d ub b size wrote).
Proof.
  induction n as [|n IH]; intros d ub b size wrote; cbn [write_loop]; neutral.
Qed.

Lemma neutral_services :
  (forall a, pool_neutral (do_process_execute sv a))
  /\ (forall a, pool_neutral (do_get_thread_by_tid sv a))
  /\ (forall a, pool_neutral (do_sema_down_loaded sv a))
  /\ (forall a n, pool_neutral (do_filesys_create sv a n))
  /\ (forall a, pool_neutral (do_filesys_remove sv a))
  /\ (forall a, pool_neutral (do_filesys_open sv a)).
Proof. repeat split. Qed.

Lemma bind_Ret_inv {A B} (m : M (kernel E) A) (g : A -> M (kernel E) B) k (b : B) k' :
  bind m g k = Ret b k' -> exists a k1, m k = Ret a k1 /\ g a k1 = Ret b k'.
Proof.
  unfold bind. destruct (m k) as [a k1| | | |]; try discriminate.
  intros H. now exists a, k1.
Qed.

Lemma palloc_get_page_inv k (page : Z) k1 :
  ~ In 0 (kernel_pool k) -> palloc_get_page k = Ret page k1 ->
  pallocs (log k1) = pallocs (log k) ++ [EvGetPage page]
  /\ kernel_pool k = if page =? 0 then kernel_pool k1 else page :: kernel_pool k1.
Proof.
  intros Hnull. unfold palloc_get_page.
  destruct (kernel_pool k) as [|p rest] eqn:Hpool; intros H; inversion H; subst;
    cbn [log kernel_pool add_log with_mem_log set_kernel_pool].
  - split; [|now rewrite Hpool]. unfold pallocs. now rewrite filter_app.
  - split; [unfold pallocs; now rewrite filter_app|].
    replace (page =? 0) with false; [reflexivity|].
    symmetry. apply Z.eqb_neq. intros ->. apply Hnull. now left.
Qed.

Lemma palloc_free_page_inv k (page : Z) k1 :
  palloc_free_page page k = Ret tt k1 ->
  pallocs (log k1) = pallocs (log k) ++ [EvFreePage page]
  /\ kernel_pool k1 = if page =? 0 then kernel_pool k else page :: kernel_pool k.
Proof.
  unfold palloc_free_page. destruct (page =? 0); intros H; inversion H; subst;
    cbn [log kernel_pool add_log with_mem_log set_kernel_pool];
    (split; [unfold pallocs; now rewrite filter_app | reflexivity]).
Qed.

(** One page taken, neutral work, the same page given back, neutral work. *)
Lemma bracket_one_page k k1 k2 k3 k' (page : Z) :
  ~ In 0 (kernel_pool k) ->
  palloc_get_page k = Ret page k1 ->
  kernel_pool k2 = kernel_pool k1 /\ pallocs (log k2) = pallocs (log k1) ->
  palloc_free_page page k2 = Ret tt k3 ->
  kernel_pool k' = kernel_pool k3 /\ pallocs (log k') = pallocs (log k3) ->
  kernel_pool k' = kernel_pool k /\ one_scratch_page page k k'.
Proof.
  intros Hnull Hget [Hp2 Hl2] Hfree [Hp' Hl'].
  destruct (palloc_get_page_inv k page k1 Hnull Hget) as [Hlg Hpg].
  destruct (palloc_free_page_inv k2 page k3 Hfree) as [Hlf Hpf].
  split.
  - rewrite Hp', Hpf, Hp2, Hpg. reflexivity.
  - unfold one_scratch_page. rewrite Hl', Hlf, Hl2, Hlg. now rewrite <- app_assoc.
Qed.

(** palloc_get_page hands out the head of the pool, NULL when there is none. *)
Lemma palloc_get_page_head k (page : Z) k1 :
  palloc_get_page k = Ret page k1 ->
  kernel_pool k = page :: tl (kernel_pool k) \/ (page = 0 /\ kernel_pool k = []).
Proof.
  unfold palloc_get_page.
  destruct (kernel_pool k) as [|q rest]; intros H; inversion H; subst;
    [right; now split | left; reflexivity].
Qed.

Ltac inv_bind H :=
  let a := fresh "a" in
  let k1 := fresh "k" in
  let Hs := fresh "Hstep" in
  apply bind_Ret_inv in H; destruct H as (a & k1 & Hs & H).

(** The ASSERTs of memcpy and strlcpy stop a copy into a NULL page. *)
Lemma memcpy_null_inv k (n : nat) (src : Z) k1 :
  memcpy n 0 src k = Ret tt k1 -> n = 0%nat.
Proof.
  destruct n; [reflexivity|]. unfold memcpy, bind, assert. cbn. discriminate.
Qed.

Lemma strlcpy_null_never_returns k (src size v : Z) k1 :
  strlcpy 0 src size k <> Ret v k1.
Proof. unfold strlcpy, bind, assert. cbn. discriminate. Qed.

Lemma strlbond_null_never_returns k (src size v : Z) k' :
  strlbond 0 src size k <> Ret v k'.
Proof.
  intros H. unfold strlbond in H.
  inv_bind H. inv_bind H. inv_bind H.
  assert (Hoff : fst a1 = 0).
  { clear H. destruct a0.
    - cbv zeta in Hstep1.
      remember (MIN (PGSIZE - pg_ofs src) (u32 (size - 1))) as n eqn:Hn.
      assert (Hm : 0 <= n).
      { pose proof (pg_ofs_range src) as Ho.
        assert (Hu : 0 <= u32 (size - 1))
          by (unfold u32; apply Z.mod_pos_bound; lia).
        subst n. unfold MIN. destruct (_ >? _); lia. }
      clear Hn. inv_bind Hstep1. destruct a0.
      apply memcpy_null_inv in Hstep2.
      inv_bind Hstep1. unfold ret in Hstep1.
      injection Hstep1 as Ha _. subst a1. cbn [fst]. lia.
    - unfold ret in Hstep1. injection Hstep1 as Ha _. now subst a1. }
  cbv zeta in H. rewrite Hoff in H.
  inv_bind H. inv_bind H. inv_bind H.
  exact (strlcpy_null_never_returns _ _ _ _ _ Hstep4).
Qed.

(** On a NULL page write returns only when it has nothing to write. *)
Lemma write_loop_null (fuel : nat) (d ub size wrote v : Z) k k' :
  write_loop fuel d ub 0 size wrote k = Ret v k' ->
  (fuel = 0%nat \/ size <= 0) /\ v = wrote.
Proof.
  destruct fuel as [|fuel]; [intros H; inversion H; now split; [left|]|].
  rewrite write_loop_S. destruct (Z.gtb_spec size 0) as [Hpos | Hzero].
  - intros H. inv_bind H. now apply strlbond_null_never_returns in Hstep.
  - intros H. inversion H. split; [right; lia | reflexivity].
Qed.


End ScratchPage.


(** ** Runs on the concrete machine *)

Lemma machine_pagedir_ok both stack ofs data fill :
  pagedir_ok (machine both stack ofs data fill).
Proof.
  intros pg kp. unfold machine; cbn [pagedir].
  destruct (pg =? stack_page); [intros H; inversion H; subst; vm_compute; split; [discriminate|reflexivity]|].
  destruct (pg =? data_page); [intros H; inversion H; subst; vm_compute; split; [discriminate|reflexivity]|].
  destruct (both && (pg =? next_page))%bool; [|discriminate].
  intros H; inversion H; subst; vm_compute; split; [discriminate|reflexivity].
Qed.

Lemma machine_private both stack ofs data fill :
  private_buffer (machine both stack ofs data fill) scratch_page 4096.
Proof.
  intros a c Ha Hc.
  destruct (resolve_user_inv _ a c Ha Hc) as (kp & Hkp & ->).
  pose proof (pg_ofs_range a) as Ho. rewrite PGSIZE_val in Ho.
  left. revert Hkp. unfold machine; cbn [pagedir]. unfold scratch_page.
  destruct (pg_round_down a =? stack_page);
    [intros H; inversion H; subst; unfold stack_frame; lia|].
  destruct (pg_round_down a =? data_page);
    [intros H; inversion H; subst; unfold data_frame; lia|].
  destruct (both && (pg_round_down a =? next_page))%bool; [|discriminate].
  intros H; inversion H; subst; unfold next_frame; lia.
Qed.

Lemma strlbond_copies_or_truncates_witness :
  (let k := machine false [] 4093 [97; 98; 0] 7 in
   pg_ofs (data_page + 4093 + 2) = PGSIZE - 1
   /\ exists k',
        strlbond scratch_page (data_page + 4093) 4096 k = Ret scratch_page k'
        /\ forall i, 0 <= i <= 2 ->
             load k (data_page + 4093 + i) = Some (mem k' (scratch_page + i)))
  /\ (let k := machine true [] 4094 [97; 98; 99; 100; 0] 7 in
      exists k',
        strlbond scratch_page (data_page + 4094) 3 k = Ret scratch_page k'
        /\ (forall i, 0 <= i < 3 - 1 ->
              load k (data_page + 4094 + i) = Some (mem k' (scratch_page + i)))
        /\ mem k' (scratch_page + (3 - 1)) = 0).
Proof.
  split.
  - intros k. split; [reflexivity|].
    destruct (strlbond_copies_or_truncates k scratch_page (data_page + 4093) 4096 2)
      as (k' & Hrun & Hfull & _).
    + apply machine_pagedir_ok.
    + vm_compute; discriminate.
    + lia.
    + vm_compute; reflexivity.
    + vm_compute; discriminate.
    + lia.
    + apply machine_private.
    + split.
      * intros i Hi. assert (Hc : i = 0 \/ i = 1) by lia.
        destruct Hc as [-> | ->]; eexists;
          (split; [vm_compute; reflexivity | discriminate]).
      * vm_compute; reflexivity.
    + vm_compute; reflexivity.
    + exists k'. split; [exact Hrun|]. apply Hfull. lia.
  - intros k.
    destruct (strlbond_copies_or_truncates k scratch_page (data_page + 4094) 3 4)
      as (k' & Hrun & _ & Hcut).
    + apply machine_pagedir_ok.
    + vm_compute; discriminate.
    + lia.
    + vm_compute; reflexivity.
    + vm_compute; discriminate.
    + lia.
    + intros a c Ha Hc.
      destruct (machine_private true [] 4094 [97; 98; 99; 100; 0] 7 a c Ha Hc);
        [left; assumption | right; lia].
    + split.
      * intros i Hi. assert (Hc : i = 0 \/ i = 1 \/ i = 2 \/ i = 3) by lia.
        destruct Hc as [-> | [-> | [-> | ->]]]; eexists;
          (split; [vm_compute; reflexivity | discriminate]).
      * vm_compute; reflexivity.
    + vm_compute; reflexivity.
    + exists k'. split; [exact Hrun|]. apply Hcut. lia.
Defined.

(** C7 (as stated, refuted): with the bound 2 on the string "abc", strlbond
    reads the bytes at indices 2 and 3, past the bound; and on a source with
    no terminator in its page nor in the next one, the call does not truncate
    but stops at its ASSERT. *)
Lemma strlbond_reads_past_the_bound :
  (let k := machine true [] 16 [97; 98; 99; 0] 7 in
   ~ reads_within_bound k (data_page + 16) 2
       (log (final (strlbond scratch_page (data_page + 16) 2 k))))
  /\ (let k := machine true [] 0 [] 7 in
      exists k',
        strlbond scratch_page (data_page + 4094) 2 k
        = Panic "!str_over_boundary (s)" k').
Proof.
  split.
  - intros k H.
    assert (Hin : In (EvRead (data_frame + 19))
                     (log (final (strlbond scratch_page (data_page + 16) 2 k))))
      by (vm_compute; auto 10).
    destruct (H _ Hin) as [[_ Hlt] | [_ Hlt]]; vm_compute in Hlt; discriminate.
  - intros k. eexists. vm_compute. reflexivity.
Qed.

(** C2: the string "ab" ends the data page and the page after it is not
    mapped.  strlbond translates [src] only; it then reads the next page at
    its user address 0x08049000, which was never handed to the translator,
    and faults there.  With the next page mapped the copy goes on through
    the same untranslated address. *)
Theorem strlbond_second_page_not_translated :
  (let o := strlbond scratch_page (data_page + 4094) 4096
              (machine false [] 4094 [97; 98] 7) in
   (exists k', o = Fault next_page k')
   /\ translations (log (final o)) = [data_page + 4094]
   /\ In (EvRead next_page) (log (final o)))
  /\ (let o := strlbond scratch_page (data_page + 4094) 4096
                 (machine true [] 4094 [97; 98; 99; 0] 7) in
      (exists k', o = Ret scratch_page k')
      /\ translations (log (final o)) = [data_page + 4094]
      /\ In (EvRead next_page) (log (final o))).
Proof.
  split; intros o.
  - split; [eexists; vm_compute; reflexivity|].
    split; [vm_compute; reflexivity | vm_compute; auto 10].
  - split; [eexists; vm_compute; reflexivity|].
    split; [vm_compute; reflexivity | vm_compute; auto 10].
Qed.

Lemma kernel_pointer_fails_in_band_witness :
  let k := machine false [SYS_EXEC; PHYS_BASE + 5] 16 [104; 105; 0] 0 in
  exists k',
    syscall_handler stub_services trap_frame k
    = Ret (in_band_failure SYS_EXEC trap_frame) k'
    /\ cur k' = cur k /\ console k' = console k /\ mem k' = mem k
    /\ kernel_pool k' = kernel_pool k /\ ext k' = ext k
    /\ translations (log k') = translations (log k) ++ [esp trap_frame]
    /\ (forall a, In (EvRead a) (log k') ->
          In (EvRead a) (log k)
          \/ translate k (esp trap_frame) <= a < translate k (esp trap_frame) + 16).
Proof.
  intros k.
  destruct (kernel_pointer_fails_in_band stub_services k trap_frame SYS_EXEC
              (PHYS_BASE + 5)) as (fr' & k' & Hrun & Heax & _ & Hrest).
  - vm_compute; discriminate.
  - vm_compute; reflexivity.
  - vm_compute; discriminate.
  - simpl; auto.
  - vm_compute; reflexivity.
  - vm_compute; reflexivity.
  - vm_compute; discriminate.
  - exists k'. rewrite <- Heax by discriminate. split; [exact Hrun | exact Hrest].
Defined.

(** C1 (as stated, refuted): open is called with the pointer 0xC0000000, the
    user/kernel boundary itself.  The dispatcher returns to the process with
    -1 in eax; the process is not terminated. *)
Lemma open_kernel_pointer_returns :
  let k := machine false [SYS_OPEN; PHYS_BASE] 16 [104; 105; 0] 0 in
  ~ kills_caller (syscall_handler stub_services trap_frame k)
  /\ exists k',
       syscall_handler stub_services trap_frame k
       = Ret (set_eax 4294967295 trap_frame) k'
       /\ exit_status (cur k') = exit_status (cur k).
Proof.
  intros k. split.
  - intros (k' & H). vm_compute in H. discriminate.
  - eexists. split; vm_compute; reflexivity.
Qed.

Lemma bad_trap_outcomes_witness :
  (exists k',
      syscall_handler stub_services {| esp := PHYS_BASE + 64; eax := 0 |}
        (machine false [SYS_HALT] 0 [] 0)
      = Exit (-1) k'
      /\ exit_status (cur k') = -1)
  /\ (exists k',
         syscall_handler stub_services {| esp := next_page + 8; eax := 0 |}
           (machine false [SYS_HALT] 0 [] 0)
         = Exit (-1) k'
         /\ exit_status (cur k') = -1)
  /\ (exists k',
         syscall_handler stub_services trap_frame (machine false [20] 0 [] 0)
         = Panic "Wrong System call." k').
Proof.
  split; [|split].
  - destruct (proj1 (bad_trap_outcomes stub_services (machine false [SYS_HALT] 0 [] 0)
                       {| esp := PHYS_BASE + 64; eax := 0 |}
                       ltac:(vm_compute; discriminate)))
      as (k' & H & Hst & _).
    + left. vm_compute. discriminate.
    + exists k'. now split.
  - destruct (proj1 (bad_trap_outcomes stub_services (machine false [SYS_HALT] 0 [] 0)
                       {| esp := next_page + 8; eax := 0 |}
                       ltac:(vm_compute; discriminate)))
      as (k' & H & Hst & _).
    + right. vm_compute. reflexivity.
    + exists k'. now split.
  - apply (proj2 (bad_trap_outcomes stub_services (machine false [20] 0 [] 0)
                    trap_frame ltac:(vm_compute; discriminate))).
    + vm_compute; reflexivity.
    + vm_compute; discriminate.
    + vm_compute. intros [_ H]. now apply H.
Defined.

(** C6 (as stated, refuted): the process traps with the call number 20 on a
    valid stack.  The dispatcher does not terminate the process: it reaches
    PANIC and the kernel halts. *)
Lemma unknown_call_number_panics :
  let k := machine false [20] 0 [] 0 in
  ~ kills_caller (syscall_handler stub_services trap_frame k)
  /\ exists k',
       syscall_handler stub_services trap_frame k = Panic "Wrong System call." k'.
Proof.
  intros k. split.
  - intros (k' & H). vm_compute in H. discriminate.
  - eexists. vm_compute. reflexivity.
Qed.

(** C4: the process calls write (1, "hi", 2) with 57005 in eax.  write
    returns 2 and the two bytes reach the console, but the dispatcher drops
    the result: when it returns, eax still holds 57005. *)
Theorem write_result_not_stored :
  let k := machine false [SYS_WRITE; STDOUT_FILENO; data_page + 16; 2] 16
             [104; 105; 0] 0 in
  (exists k1,
      write (E := unit) STDOUT_FILENO (data_page + 16) 2 k = Ret 2 k1
      /\ console k1 = [ConBuf [104; 105]])
  /\ exists k',
       syscall_handler stub_services trap_frame k = Ret trap_frame k'
       /\ eax trap_frame = 57005
       /\ console k' = [ConBuf [104; 105]].
Proof.
  intros k. split.
  - eexists. split; vm_compute; reflexivity.
  - eexists. split; [vm_compute; reflexivity|]. split; vm_compute; reflexivity.
Qed.

End SyscallFacts.

(** * More of the frame table: lookup, release, allocation *)
Module FrameMore.
Import Vaddr Frame FrameFacts.

(** ** The search of frame_free *)

Lemma clist_next_in_range (c : clist) (e : nat) :
  (e < length (items c))%nat -> (clist_next c e < length (items c))%nat.
Proof.
  intros H. unfold clist_next.
  destruct (Nat.ltb_spec (S e) (length (items c))); lia.
Qed.

Lemma scan_from_untracked (c : clist) (fr : Z) :
  (forall y, In y (items c) -> paddr y <> fr) ->
  forall fuel e, (e < length (items c))%nat -> scan_from fuel c fr e = None.
Proof.
  intros Hno fuel. induction fuel as [|fuel IH]; intros e He; [reflexivity|].
  cbn [scan_from]. destruct (Nat.eqb e (hand c)); [reflexivity|].
  replace (paddr (nth e (items c) init_fte) =? fr) with false
    by (symmetry; apply Z.eqb_neq; apply Hno; now apply nth_In).
  apply IH. now apply clist_next_in_range.
Qed.

Lemma frame_lookup_untracked (c : clist) (fr : Z) :
  (forall y, In y (items c) -> paddr y <> fr) -> frame_lookup c fr = None.
Proof.
  intros Hno. unfold frame_lookup, clist_hand.
  destruct (nth_error (items c) (hand c)) as [p|] eqn:Hp; [|reflexivity].
  assert (Hh : (hand c < length (items c))%nat)
    by (apply nth_error_Some; congruence).
  apply nth_error_In in Hp.
  replace (paddr p =? fr) with false
    by (symmetry; apply Z.eqb_neq; now apply Hno).
  apply scan_from_untracked; [exact Hno | now apply clist_next_in_range].
Qed.

Lemma scan_from_sound (c : clist) (fr : Z) :
  forall fuel e i,
    (e < length (items c))%nat -> scan_from fuel c fr e = Some i ->
    (i < length (items c))%nat /\ paddr (nth i (items c) init_fte) = fr.
Proof.
  induction fuel as [|fuel IH]; intros e i He H; [discriminate|].
  cbn [scan_from] in H. destruct (Nat.eqb e (hand c)); [discriminate|].
  destruct (Z.eqb_spec (paddr (nth e (items c) init_fte)) fr) as [Heq|_].
  - inversion H; subst. now split.
  - apply (IH (clist_next c e)); [now apply clist_next_in_range | exact H].
Qed.

Lemma frame_lookup_sound (c : clist) (fr : Z) (i : nat) :
  frame_lookup c fr = Some i ->
  (i < length (items c))%nat /\ paddr (nth i (items c) init_fte) = fr.
Proof.
  unfold frame_lookup, clist_hand.
  destruct (nth_error (items c) (hand c)) as [p|] eqn:Hp; [|discriminate].
  assert (Hh : (hand c < length (items c))%nat)
    by (apply nth_error_Some; congruence).
  destruct (Z.eqb_spec (paddr p) fr) as [Heq|_].
  - intros H; inversion H; subst. split; [exact Hh|].
    now rewrite (nth_error_nth _ _ init_fte Hp).
  - apply scan_from_sound. now apply clist_next_in_range.
Qed.

Lemma steps_to_hand_inj (c : clist) (i e : nat) :
  (hand c < length (items c))%nat ->
  (i < length (items c))%nat -> (e < length (items c))%nat ->
  steps_to_hand c i = steps_to_hand c e -> i = e.
Proof.
  unfold steps_to_hand. intros Hh Hi He.
  destruct (Nat.leb_spec i (hand c)); destruct (Nat.leb_spec e (hand c)); lia.
Qed.

Lemma steps_to_hand_next (c : clist) (e : nat) :
  (hand c < length (items c))%nat -> (e < length (items c))%nat ->
  e <> hand c -> S (steps_to_hand c (clist_next c e)) = steps_to_hand c e.
Proof.
  unfold steps_to_hand, clist_next. intros Hh He Hne.
  destruct (Nat.ltb_spec (S e) (length (items c)));
    destruct (Nat.leb_spec e (hand c));
    try destruct (Nat.leb_spec (S e) (hand c));
    try destruct (Nat.leb_spec 0 (hand c)); lia.
Qed.

(** A scan that comes back empty-handed has seen every entry between its
    start and the hand. *)
Lemma scan_from_complete (c : clist) (fr : Z) :
  (hand c < length (items c))%nat ->
  forall d e fuel,
    (e < length (items c))%nat -> steps_to_hand c e = d -> (d < fuel)%nat ->
    scan_from fuel c fr e = None ->
    forall i, (i < length (items c))%nat ->
      (0 < steps_to_hand c i <= d)%nat ->
      paddr (nth i (items c) init_fte) <> fr.
Proof.
  intros Hh d. induction d as [|d IH]; intros e fuel He Hd Hf Hnone i Hi Hsteps;
    [lia|].
  destruct fuel as [|fuel]; [lia|]. cbn [scan_from] in Hnone.
  destruct (Nat.eqb_spec e (hand c)) as [Heq|Hne].
  - subst e. unfold steps_to_hand in Hd. rewrite Nat.leb_refl in Hd. lia.
  - destruct (Z.eqb_spec (paddr (nth e (items c) init_fte)) fr) as [|Hpe];
      [discriminate|].
    pose proof (steps_to_hand_next c e Hh He Hne) as Hnext.
    destruct (Nat.eq_dec (steps_to_hand c i) (S d)) as [Hlast|Hearlier].
    + assert (i = e) by (apply (steps_to_hand_inj c); try assumption; lia).
      now subst i.
    + apply (IH (clist_next c e) fuel); try assumption; try lia.
      now apply clist_next_in_range.
Qed.

(** X1: the search of frame_free, from the hand round the circle, finds a
    page exactly when some entry of the table owns it, and what it finds is
    an entry of that page. *)
Theorem frame_lookup_finds_tracked (c : clist) (fr : Z) :
  hand_ok c ->
  (frame_lookup c fr = None <-> forall y, In y (items c) -> paddr y <> fr)
  /\ (forall i, frame_lookup c fr = Some i ->
        (i < length (items c))%nat /\ paddr (nth i (items c) init_fte) = fr).
Proof.
  intros Hok. split; [|intros i; apply frame_lookup_sound].
  split; [|apply frame_lookup_untracked].
  intros Hnone y Hy.
  destruct Hok as [Hh | [Hnil _]]; [|rewrite Hnil in Hy; contradiction].
  destruct (In_nth _ _ init_fte Hy) as (i & Hi & <-).
  unfold frame_lookup, clist_hand in Hnone.
  destruct (nth_error (items c) (hand c)) as [p|] eqn:Hp;
    [|apply nth_error_None in Hp; lia].
  destruct (Z.eqb_spec (paddr p) fr) as [|Hpne]; [discriminate|].
  destruct (Nat.eq_dec i (hand c)) as [->|Hine].
  - now rewrite (nth_error_nth _ _ init_fte Hp).
  - pose proof (clist_next_in_range c (hand c) Hh) as Hn.
    apply (scan_from_complete c fr Hh
             (steps_to_hand c (clist_next c (hand c)))
             (clist_next c (hand c)) (length (items c)) Hn eq_refl
             (steps_to_hand_bound c _ Hh Hn) Hnone i Hi).
    assert (Hpos : (0 < steps_to_hand c i)%nat).
    { unfold steps_to_hand. destruct (Nat.leb_spec i (hand c)); lia. }
    split; [exact Hpos|].
    unfold steps_to_hand, clist_next.
    destruct (Nat.ltb_spec (S (hand c)) (length (items c)));
      destruct (Nat.leb_spec i (hand c));
      try destruct (Nat.leb_spec (S (hand c)) (hand c));
      try destruct (Nat.leb_spec 0 (hand c)); lia.
Qed.

Lemma frame_lookup_finds_tracked_witness :
  let c := {| items := [fresh_fte 7 3223781376 134512640;
                        fresh_fte 7 3223785472 134516736;
                        fresh_fte 8 3223789568 134512640];
              hand := 2 |} in
  frame_lookup c 3223785472 = Some 1%nat
  /\ (frame_lookup c 3223793664 = None <->
      forall y, In y (items c) -> paddr y <> 3223793664).
Proof.
  intros c. split; [reflexivity|].
  apply (frame_lookup_finds_tracked c 3223793664). left. simpl. lia.
Defined.

(** ** Release *)

(** X2: frame_free of a page no entry owns does nothing at all (a second
    release of a freed frame, a page the table never tracked). *)
Theorem frame_free_untracked (k : kernel) (fr : Z) :
  (forall y, In y (items (ft k)) -> paddr y <> fr) ->
  frame_free fr k = Ret tt k.
Proof.
  intros Hno. unfold frame_free. now rewrite frame_lookup_untracked.
Qed.

Lemma frame_free_untracked_witness :
  frame_free 3223781376 (boot 2) = Ret tt (boot 2).
Proof.
  apply (frame_free_untracked (boot 2) 3223781376). intros y [].
Defined.

Lemma nth_update_nth {A} (f : A -> A) (d : A) :
  forall (l : list A) (e : nat),
    (e < length l)%nat -> nth e (update_nth e f l) d = f (nth e l d).
Proof.
  induction l as [|x l IH]; intros e He; [simpl in He; lia|].
  destruct e as [|e]; [reflexivity|]. simpl. apply IH. simpl in He. lia.
Qed.

Lemma update_nth_twice {A} (f g : A -> A) :
  forall (l : list A) (e : nat),
    update_nth e g (update_nth e f l) = update_nth e (fun x => g (f x)) l.
Proof.
  induction l as [|x l IH]; intros e; [destruct e; reflexivity|].
  destruct e as [|e]; [reflexivity|]. simpl. now rewrite IH.
Qed.

Lemma length_update_nth {A} (f : A -> A) :
  forall (l : list A) (e : nat), length (update_nth e f l) = length l.
Proof.
  induction l as [|x l IH]; intros e; [destruct e; reflexivity|].
  destruct e as [|e]; simpl; [reflexivity | now rewrite IH].
Qed.

Lemma remove_update_nth {A} (f : A -> A) :
  forall (l : list A) (e : nat),
    remove_nth e (update_nth e f l) = remove_nth e l.
Proof.
  induction l as [|x l IH]; intros e; [destruct e; reflexivity|].
  destruct e as [|e]; [reflexivity|]. simpl. now rewrite IH.
Qed.

Lemma In_update_nth {A} (f : A -> A) (d : A) :
  forall (l : list A) (e : nat) (x : A),
    In x (update_nth e f l) -> In x l \/ x = f (nth e l d).
Proof.
  induction l as [|y l IH]; intros e x H; [destruct e; contradiction|].
  destruct e as [|e]; simpl in H.
  - destruct H as [<-|H]; [now right | left; now right].
  - destruct H as [<-|H]; [left; now left|].
    destruct (IH e x H) as [Hin|Heq]; [left; now right | now right].
Qed.

Lemma In_remove_nth {A} :
  forall (l : list A) (e : nat) (x : A), In x (remove_nth e l) -> In x l.
Proof.
  induction l as [|y l IH]; intros e x H; [destruct e; contradiction|].
  destruct e as [|e]; simpl in H; [now right|].
  destruct H as [<-|H]; [now left | right; now apply (IH e)].
Qed.

Lemma length_remove_nth {A} :
  forall (l : list A) (e : nat),
    (e < length l)%nat -> S (length (remove_nth e l)) = length l.
Proof.
  induction l as [|y l IH]; intros e He; [simpl in He; lia|].
  destruct e as [|e]; [reflexivity|]. simpl. rewrite IH; [reflexivity|].
  simpl in He. lia.
Qed.

Lemma remove_reference_holder (t : Z) :
  forall l, (exists r, In r l /\ process r = t) ->
    exists l', remove_reference t l = Some l' /\ length l = S (length l').
Proof.
  induction l as [|r l IH]; intros (r0 & Hin & Hp); [contradiction|].
  cbn [remove_reference]. destruct (Z.eqb_spec (process r) t) as [_|Hne].
  - now exists l.
  - destruct Hin as [->|Hin]; [contradiction|].
    destruct IH as (l' & Hl' & Hlen); [now exists r0|].
    rewrite Hl'. exists (r :: l'). split; [reflexivity|]. simpl. now rewrite Hlen.
Qed.

(** What frame_free does once it has found the entry and the reference. *)
Lemma frame_free_found (k : kernel) (fr : Z) (e : nat) (l' : list fte_reference) :
  frame_lookup (ft k) fr = Some e ->
  remove_reference (tid (cur k))
    (reference_list (nth e (items (ft k)) init_fte)) = Some l' ->
  let p' := released (nth e (items (ft k)) init_fte) l' in
  frame_free fr k
  = if refcnt p' =? 0
    then Ret tt {| ft := clist_remove
                           {| items := update_nth e (fun _ => p') (items (ft k));
                              hand := hand (ft k) |} e;
                   user_pool := if fr =? 0 then user_pool k else fr :: user_pool k;
                   heap_free := S (S (heap_free k));
                   mem := mem k; cur := cur k |}
    else Ret tt {| ft := {| items := update_nth e (fun _ => p') (items (ft k));
                            hand := hand (ft k) |};
                   user_pool := user_pool k;
                   heap_free := S (heap_free k);
                   mem := mem k; cur := cur k |}.
Proof.
  intros Hfind Hrem p'.
  destruct (frame_lookup_sound _ _ _ Hfind) as [He _].
  unfold frame_free. rewrite Hfind.
  destruct k as [c pool hf m t]. destruct c as [l h]. cbn [ft items hand cur tid] in *.
  unfold do_frame_free, bind, modify_fte, thread_current, get_fte.
  cbn [ft items hand cur set_ft user_pool heap_free mem].
  rewrite (nth_update_nth _ init_fte l e He).
  cbn [reference_list set_refcnt]. rewrite Hrem.
  unfold bind, modify_fte, free.
  cbn [ft items hand cur set_ft set_heap_free user_pool heap_free mem].
  rewrite update_nth_twice.
  rewrite (nth_update_nth _ init_fte l e He).
  cbn [refcnt set_reference_list set_refcnt paddr reference_list].
  assert (Hupd : update_nth e
            (fun x => set_reference_list l' (set_refcnt (s32 (refcnt x - 1)) x)) l
          = update_nth e (fun _ => p') l).
  { clear -He. subst p'. revert e He.
    induction l as [|x l IH]; intros e He; [simpl in He; lia|].
    destruct e as [|e]; [reflexivity|]. simpl. f_equal. apply IH. simpl in He. lia. }
  rewrite Hupd. subst p'. cbn [released refcnt].
  destruct (s32 (refcnt (nth e l init_fte) - 1) =? 0); [|reflexivity].
  unfold palloc_free_page, unlink_fte.
  destruct (fr =? 0); reflexivity.
Qed.

Lemma s32_small (z : Z) : -2147483648 <= z < 2147483648 -> s32 z = z.
Proof.
  intros H. unfold s32, u32.
  destruct (Z.ltb_spec (z mod 4294967296) 2147483648);
    Z.div_mod_to_equations; lia.
Qed.

(** X3: a release by a process that holds a reference keeps the counts
    right: afterwards every entry of the table still has as many references
    as its count says, and none is left with the count zero. *)
Theorem frame_free_keeps_counts (k : kernel) (fr : Z) :
  counts_ok k -> holds_frame k fr ->
  exists k', frame_free fr k = Ret tt k' /\ counts_ok k'.
Proof.
  intros Hcnt Hhold.
  destruct (frame_lookup (ft k) fr) as [e|] eqn:Hfind.
  2:{ exists k. split; [|exact Hcnt]. unfold frame_free. now rewrite Hfind. }
  destruct (frame_lookup_sound _ _ _ Hfind) as [He Hpa].
  set (p := nth e (items (ft k)) init_fte) in *.
  assert (Hin : In p (items (ft k))) by (now apply nth_In).
  destruct (Hcnt p Hin) as [Hc Hr].
  destruct (remove_reference_holder (tid (cur k)) (reference_list p)
              (Hhold p Hin Hpa)) as (l' & Hrem & Hlen).
  rewrite (frame_free_found k fr e l' Hfind Hrem). fold p.
  assert (Hnew : refcnt (released p l') = refcnt p - 1)
    by (cbn [released refcnt]; apply s32_small; lia).
  assert (Hnewc : fte_counted (released p l')).
  { unfold fte_counted. rewrite Hnew. cbn [released reference_list].
    unfold fte_counted in Hc. rewrite Hc, Hlen. lia. }
  destruct (Z.eqb_spec (refcnt (released p l')) 0) as [Hz|Hnz];
    eexists; (split; [reflexivity|]); intros x Hx; cbn [ft items clist_remove] in Hx.
  - rewrite remove_update_nth in Hx. apply In_remove_nth in Hx. now apply Hcnt.
  - destruct (In_update_nth _ init_fte _ _ _ Hx) as [Hold| ->]; [now apply Hcnt|].
    split; [exact Hnewc | lia].
Qed.

Lemma frame_free_keeps_counts_witness :
  let shared := {| paddr := 3223781376;
                   reference_list := [{| process := 8; vaddr := 134512640 |};
                                      {| process := 7; vaddr := 134516736 |}];
                   refcnt := 2 |} in
  let k := set_ft {| items := [shared]; hand := 0 |} (boot 2) in
  exists k', frame_free 3223781376 k = Ret tt k' /\ counts_ok k'.
Proof.
  intros shared k. apply (frame_free_keeps_counts k 3223781376).
  - intros e [<-|[]]. split; [reflexivity | split; reflexivity].
  - intros e [<-|[]] _. eexists. split; [right; left; reflexivity | reflexivity].
Defined.

(** X4: a release by a holder of a shared frame (count above one) keeps the
    frame resident: the table keeps its length, the page stays out of the
    pool, and one heap block (the reference) is given back.  The release of
    the last reference unlinks the entry, puts the page back in the pool
    and gives back two blocks. *)
Theorem frame_free_shared_or_last (k : kernel) (fr : Z) (e : nat) :
  frame_lookup (ft k) fr = Some e -> fr <> 0 ->
  counts_ok k -> holds_frame k fr ->
  exists k',
    frame_free fr k = Ret tt k'
    /\ (1 < refcnt (nth e (items (ft k)) init_fte) ->
        length (items (ft k')) = length (items (ft k))
        /\ refcnt (nth e (items (ft k')) init_fte)
           = refcnt (nth e (items (ft k)) init_fte) - 1
        /\ user_pool k' = user_pool k
        /\ heap_free k' = S (heap_free k))
    /\ (refcnt (nth e (items (ft k)) init_fte) = 1 ->
        S (length (items (ft k'))) = length (items (ft k))
        /\ items (ft k') = remove_nth e (items (ft k))
        /\ user_pool k' = fr :: user_pool k
        /\ heap_free k' = S (S (heap_free k))).
Proof.
  intros Hfind Hfr Hcnt Hhold.
  destruct (frame_lookup_sound _ _ _ Hfind) as [He Hpa].
  set (p := nth e (items (ft k)) init_fte) in *.
  assert (Hin : In p (items (ft k))) by (now apply nth_In).
  destruct (Hcnt p Hin) as [Hc Hr].
  destruct (remove_reference_holder (tid (cur k)) (reference_list p)
              (Hhold p Hin Hpa)) as (l' & Hrem & Hlen).
  rewrite (frame_free_found k fr e l' Hfind Hrem). fold p.
  assert (Hnew : refcnt (released p l') = refcnt p - 1)
    by (cbn [released refcnt]; apply s32_small; lia).
  apply Z.eqb_neq in Hfr.
  destruct (Z.eqb_spec (refcnt (released p l')) 0) as [Hz|Hnz];
    eexists; (split; [reflexivity|]); cbn [ft items user_pool heap_free clist_remove];
    rewrite ?Hfr; (split; [intros Hgt | intros Hone]); try lia.
  - rewrite remove_update_nth. split; [now apply length_remove_nth|].
    repeat split.
  - rewrite length_update_nth. split; [reflexivity|].
    rewrite (nth_update_nth _ init_fte _ e He). now repeat split.
Qed.

Lemma frame_free_shared_or_last_witness :
  let k1 := final (frame_alloc no_victim 134512640 (boot 2)) in
  exists k',
    frame_free 3223781376 k1 = Ret tt k'
    /\ (1 < refcnt (nth 0 (items (ft k1)) init_fte) ->
        length (items (ft k')) = length (items (ft k1))
        /\ refcnt (nth 0 (items (ft k')) init_fte)
           = refcnt (nth 0 (items (ft k1)) init_fte) - 1
        /\ user_pool k' = user_pool k1
        /\ heap_free k' = S (heap_free k1))
    /\ (refcnt (nth 0 (items (ft k1)) init_fte) = 1 ->
        S (length (items (ft k'))) = length (items (ft k1))
        /\ items (ft k') = remove_nth 0 (items (ft k1))
        /\ user_pool k' = 3223781376 :: user_pool k1
        /\ heap_free k' = S (S (heap_free k1))).
Proof.
  intros k1. apply (frame_free_shared_or_last k1 3223781376 0).
  - reflexivity.
  - discriminate.
  - intros e [<-|[]]. split; [reflexivity | split; reflexivity].
  - intros e [<-|[]] _. eexists. split; [left; reflexivity | reflexivity].
Defined.

(** ** Allocation *)

Section AllocMore.
Variable clock_get_victim : clist -> option fte * clist.

(** X5: with the user pool exhausted frame_alloc never returns: whatever
    the victim policy answers, the kernel stops at PANIC, and neither a heap
    block nor a table entry has been allocated. *)
Theorem frame_alloc_out_of_frames (k : kernel) (va : Z) :
  user_pool k = [] ->
  exists k',
    frame_alloc clock_get_victim va k = Panic "frame_alloc(): Out of frame." k'
    /\ ft k' = snd (clock_get_victim (ft k))
    /\ user_pool k' = [] /\ heap_free k' = heap_free k /\ mem k' = mem k.
Proof.
  intros Hpool. unfold frame_alloc, bind, palloc_get_page_user. rewrite Hpool.
  cbn [Z.eqb]. unfold frame_get_victim, panic.
  destruct (clock_get_victim (ft k)) as [v c]. eexists. split; [reflexivity|].
  cbn. now repeat split.
Qed.

(** X6: when the allocation of the FTE itself fails, frame_alloc returns
    NULL and the kernel state is exactly what it was before the call: the
    page is back in the pool and the table untouched. *)
Theorem frame_alloc_fte_failure_unwound (k : kernel) (va fr : Z) (rest : list Z) :
  user_pool k = fr :: rest -> fr <> 0 -> heap_free k = 0%nat ->
  frame_alloc clock_get_victim va k = Ret 0 k.
Proof.
  intros Hpool Hfr Hheap.
  destruct k as [c pool hf m t]; cbn [user_pool heap_free] in *. subst pool hf.
  unfold frame_alloc, bind, palloc_get_page_user. cbn [user_pool].
  apply Z.eqb_neq in Hfr. rewrite Hfr. unfold ret, automalloc.
  cbn [heap_free set_user_pool negb].
  unfold this_is_disaster, bind, palloc_free_page. rewrite Hfr. reflexivity.
Qed.

(** X7: a successful frame_alloc hands out the first free page of the pool,
    zero-filled and with no other byte of memory changed, and has put one
    entry at the tail of the table: that page, count one, the single
    reference (calling process, vaddr); the hand has not moved. *)
Theorem frame_alloc_success_effect (k k1 : kernel) (va fr : Z) :
  frame_alloc clock_get_victim va k = Ret fr k1 -> fr <> 0 ->
  user_pool k = fr :: user_pool k1
  /\ items (ft k1) = items (ft k) ++ [fresh_fte (tid (cur k)) fr va]
  /\ hand (ft k1) = hand (ft k)
  /\ (forall a, fr <= a < fr + PGSIZE -> mem k1 a = 0)
  /\ (forall a, ~ fr <= a < fr + PGSIZE -> mem k1 a = mem k a)
  /\ heap_free k = S (S (heap_free k1)).
Proof.
  unfold frame_alloc, bind, palloc_get_page_user.
  destruct k as [c pool hf m t]; simpl.
  destruct pool as [|p rest]; simpl.
  - unfold frame_get_victim, panic; simpl.
    destruct (clock_get_victim c); discriminate.
  - destruct (p =? 0) eqn:Hp; simpl.
    + unfold frame_get_victim, panic; simpl.
      destruct (clock_get_victim c); discriminate.
    + unfold ret, automalloc; simpl.
      destruct hf as [|hf]; simpl.
      { unfold this_is_disaster, bind, palloc_free_page, ret. rewrite Hp.
        intros H; inversion H; congruence. }
      destruct hf as [|hf]; simpl.
      { unfold this_is_disaster, bind, palloc_free_page, ret. rewrite Hp.
        intros H; inversion H; congruence. }
      unfold assert. destruct (is_process t) eqn:Ht; [|discriminate].
      simpl. intros H; inversion H; subst; clear H. intros _. simpl.
      rewrite !update_nth_last.
      split; [reflexivity|]. split; [reflexivity|]. split; [reflexivity|].
      split; [|split; [|reflexivity]]; intros a Ha.
      * replace (fr <=? a) with true by (symmetry; apply Z.leb_le; lia).
        now replace (a <? fr + PGSIZE) with true by (symmetry; apply Z.ltb_lt; lia).
      * destruct (Z.leb_spec fr a); destruct (Z.ltb_spec a (fr + PGSIZE));
          try reflexivity. lia.
Qed.

(** X8: a successful frame_alloc keeps the table well formed: the hand is
    still on an entry, no live frame's page is free in the pool (the pool
    holding no page twice), and the pool holds no NULL page. *)
Theorem frame_alloc_keeps_table_ok (k k1 : kernel) (va fr : Z) :
  frame_table_ok k -> NoDup (user_pool k) ->
  frame_alloc clock_get_victim va k = Ret fr k1 -> fr <> 0 ->
  frame_table_ok k1 /\ NoDup (user_pool k1).
Proof.
  intros (Hhand & Hlive & Hnull) Hnd Halloc Hfr.
  destruct (frame_alloc_success clock_get_victim k k1 va fr Halloc Hfr)
    as (rest & n & Hpool & _ & _ & Hft & Hpool1 & _ & _).
  rewrite Hpool in Hnd, Hlive, Hnull. inversion Hnd as [|? ? Hnotin Hnd']; subst.
  split; [|exact Hnd'].
  unfold frame_table_ok. rewrite Hft. cbn [items hand]. split; [|split].
  - left. rewrite length_app. simpl. destruct Hhand as [H | [_ ->]]; lia.
  - intros e He. apply in_app_or in He. destruct He as [He | [<- | []]].
    + intros Hin. apply (Hlive e He). now right.
    + exact Hnotin.
  - intros H0. apply Hnull. now right.
Qed.

End AllocMore.

Lemma frame_alloc_out_of_frames_witness :
  exists k',
    frame_alloc no_victim 134512640 (set_user_pool [] (boot 2))
    = Panic "frame_alloc(): Out of frame." k'
    /\ ft k' = snd (no_victim (ft (set_user_pool [] (boot 2))))
    /\ user_pool k' = [] /\ heap_free k' = heap_free (set_user_pool [] (boot 2))
    /\ mem k' = mem (set_user_pool [] (boot 2)).
Proof.
  apply (frame_alloc_out_of_frames no_victim (set_user_pool [] (boot 2))).
  reflexivity.
Defined.

Lemma frame_alloc_fte_failure_unwound_witness :
  frame_alloc no_victim 134512640 (boot 0) = Ret 0 (boot 0).
Proof.
  apply (frame_alloc_fte_failure_unwound no_victim (boot 0) 134512640
           3223781376 [3223785472]); [reflexivity | discriminate | reflexivity].
Defined.

Lemma frame_alloc_success_effect_witness :
  let k := boot 2 in
  let k1 := final (frame_alloc no_victim 134512640 k) in
  user_pool k = 3223781376 :: user_pool k1
  /\ items (ft k1) = items (ft k) ++ [fresh_fte (tid (cur k)) 3223781376 134512640]
  /\ hand (ft k1) = hand (ft k)
  /\ (forall a, 3223781376 <= a < 3223781376 + PGSIZE -> mem k1 a = 0)
  /\ (forall a, ~ 3223781376 <= a < 3223781376 + PGSIZE -> mem k1 a = mem k a)
  /\ heap_free k = S (S (heap_free k1)).
Proof.
  intros k k1.
  apply (frame_alloc_success_effect no_victim k k1 134512640 3223781376);
    [reflexivity | discriminate].
Defined.

Lemma frame_alloc_keeps_table_ok_witness :
  let k1 := final (frame_alloc no_victim 134512640 (boot 2)) in
  frame_table_ok k1 /\ NoDup (user_pool k1).
Proof.
  intros k1.
  apply (frame_alloc_keeps_table_ok no_victim (boot 2) k1 134512640 3223781376).
  - unfold frame_table_ok; simpl. split; [right; split; reflexivity|].
    split; [intros e []|]. intros [H|[H|[]]]; discriminate.
  - repeat constructor; simpl; intuition discriminate.
  - reflexivity.
  - discriminate.
Defined.

End FrameMore.

(** * More of the system-call layer: copy-in, exec, open, write, exit *)
Module SyscallMore.
Import Vaddr Syscall SyscallFacts.

Section CopyIn.
Context {E : Type}.
Implicit Types k : kernel E.

(** ** Computations that touch only memory and the log *)

Lemma oml_ret {A} (a : A) : only_mem_log (E := E) (ret a).
Proof. intros k. exists (mem k), (log k). cbn. now rewrite with_mem_log_id. Qed.

Lemma oml_bind {A B} (m : M (kernel E) A) (g : A -> M (kernel E) B) :
  only_mem_log m -> (forall a, only_mem_log (g a)) -> only_mem_log (bind m g).
Proof.
  intros Hm Hg k. unfold bind. destruct (Hm k) as (m1 & l1 & H1).
  destruct (m k) as [a k1|st k1|msg k1|k1|ad k1]; cbn [final] in *;
    try (now exists m1, l1).
  destruct (Hg a k1) as (m2 & l2 & H2). exists m2, l2. now rewrite H2, H1.
Qed.

Lemma oml_read_byte (a : Z) : only_mem_log (read_byte (E := E) a).
Proof.
  intros k. unfold read_byte.
  destruct (resolve k a); eexists; eexists; reflexivity.
Qed.

Lemma oml_store (a v : Z) : only_mem_log (store (E := E) a v).
Proof.
  intros k. unfold store. destruct (resolve k a).
  - eexists; eexists; reflexivity.
  - exists (mem k), (log k). cbn. now rewrite with_mem_log_id.
Qed.

Lemma oml_user_vtop (ua : Z) : only_mem_log (user_vtop (E := E) ua).
Proof. intros k. eexists; eexists; reflexivity. Qed.

Lemma oml_assert (c : bool) (msg : string) :
  only_mem_log (assert (S := kernel E) c msg).
Proof.
  intros k. exists (mem k), (log k). unfold assert.
  destruct c; cbn; now rewrite with_mem_log_id.
Qed.

Lemma oml_panic {A} (msg : string) :
  only_mem_log (panic (S := kernel E) (A := A) msg).
Proof. intros k. exists (mem k), (log k). cbn. now rewrite with_mem_log_id. Qed.

Create HintDb oml.
#[local] Hint Resolve oml_read_byte oml_store oml_user_vtop oml_assert
  @oml_ret @oml_panic : oml.

Ltac oml :=
  repeat first
    [ progress auto with oml
    | apply oml_bind; [|intros]
    | match goal with
      | |- only_mem_log (if ?c then _ else _) => destruct c
      | |- only_mem_log (match ?x with _ => _ end) => destruct x
      end ].

Lemma oml_memcpy_bytes (n : nat) :
  forall dst src, only_mem_log (memcpy_bytes (E := E) n dst src).
Proof. induction n as [|n IH]; intros dst src; cbn [memcpy_bytes]; oml. Qed.

Lemma oml_memcpy (n : nat) (dst src : Z) :
  only_mem_log (memcpy (E := E) n dst src).
Proof.
  unfold memcpy.
  apply oml_bind; [apply oml_assert | intros _].
  apply oml_bind; [apply oml_assert | intros _].
  apply oml_memcpy_bytes.
Qed.

Lemma oml_strlen (n : nat) : forall s, only_mem_log (strlen (E := E) n s).
Proof. induction n as [|n IH]; intros s; cbn [strlen]; oml. Qed.

Lemma oml_sob_scan (n : nat) : forall a, only_mem_log (sob_scan (E := E) n a).
Proof. induction n as [|n IH]; intros a; cbn [sob_scan]; oml. Qed.

#[local] Hint Resolve oml_memcpy oml_strlen oml_sob_scan : oml.

Lemma oml_strlbond (dst src size : Z) :
  only_mem_log (strlbond (E := E) dst src size).
Proof. unfold strlbond, strlcpy, str_over_boundary. oml. Qed.

Lemma strlbond_Ret_state (dst src size v : Z) k k' :
  strlbond dst src size k = Ret v k' -> exists m' l', k' = with_mem_log m' l' k.
Proof.
  intros H. destruct (oml_strlbond dst src size k) as (m' & l' & Hf).
  rewrite H in Hf. now exists m', l'.
Qed.

(** ** What the collaborators find in the scratch page *)

Lemma peek_kernel k (a : Z) : PHYS_BASE <= a -> peek k a = mem k a.
Proof. intros H. unfold peek, load. now rewrite resolve_kernel. Qed.

Lemma bytes_at_ext (n : nat) :
  forall k1 k2 (a1 a2 : Z),
    (forall i, 0 <= i < Z.of_nat n -> peek k1 (a1 + i) = peek k2 (a2 + i)) ->
    bytes_at n k1 a1 = bytes_at n k2 a2.
Proof.
  induction n as [|n IH]; intros k1 k2 a1 a2 H; [reflexivity|].
  cbn [bytes_at]. f_equal.
  - specialize (H 0). rewrite !Z.add_0_r in H. apply H. lia.
  - apply IH. intros i Hi.
    replace (a1 + 1 + i) with (a1 + (i + 1)) by lia.
    replace (a2 + 1 + i) with (a2 + (i + 1)) by lia. apply H. lia.
Qed.

Lemma cstring_bytes (fuel : nat) :
  forall (n : nat) k (a : Z),
    (n < fuel)%nat ->
    (forall i, 0 <= i < Z.of_nat n -> peek k (a + i) <> 0) ->
    peek k (a + Z.of_nat n) = 0 ->
    cstring fuel k a = bytes_at n k a.
Proof.
  induction fuel as [|fuel IH]; intros n k a Hn Hrun Hend; [lia|].
  cbn [cstring]. destruct n as [|n].
  - cbn in Hend. rewrite Z.add_0_r in Hend. now rewrite Hend.
  - assert (H0 : peek k a <> 0)
      by (specialize (Hrun 0); rewrite Z.add_0_r in Hrun; apply Hrun; lia).
    apply Z.eqb_neq in H0. rewrite H0. cbn [bytes_at]. f_equal.
    apply IH; [lia | |].
    + intros i Hi. replace (a + 1 + i) with (a + (i + 1)) by lia. apply Hrun. lia.
    + replace (a + 1 + Z.of_nat n) with (a + Z.of_nat (S n)) by lia. exact Hend.
Qed.

(** strlbond into a scratch page leaves there, as a C string, the string the
    user has at [src]. *)
Lemma copy_in k (src L page : Z) :
  fits_scratch k src L page ->
  exists m' l',
    strlbond page src PGSIZE k = Ret page (with_mem_log m' l' k)
    /\ cstring (Z.to_nat PGSIZE) (with_mem_log m' l' k) page
       = bytes_at (Z.to_nat L) k src.
Proof.
  intros (Hok & Hsrc & HL & Huser & Hs & Hspan & Hpage & Hpriv).
  pose proof PGSIZE_val as HPG.
  destruct (strlbond_copies k page src PGSIZE L) as (k' & Hrun & Hbytes & Hend);
    try assumption; try lia.
  destruct (strlbond_Ret_state _ _ _ _ _ _ Hrun) as (m' & l' & ->).
  exists m', l'. split; [exact Hrun|].
  rewrite Z.min_l in Hbytes, Hend by lia. rewrite mem_with_mem_log in Hbytes, Hend.
  rewrite (cstring_bytes _ (Z.to_nat L)).
  - apply bytes_at_ext. intros i Hi. rewrite Z2Nat.id in Hi by lia.
    rewrite peek_kernel by lia. rewrite mem_with_mem_log.
    symmetry. apply peek_load. now apply Hbytes.
  - lia.
  - intros i Hi. rewrite Z2Nat.id in Hi by lia.
    rewrite peek_kernel by lia. rewrite mem_with_mem_log.
    destruct (proj1 Hs i) as (b & Hb & Hnz); [lia|].
    rewrite (Hbytes i) in Hb by lia. congruence.
  - rewrite Z2Nat.id by lia. rewrite peek_kernel by lia.
    now rewrite mem_with_mem_log.
Qed.

(** The common opening of exec, create, remove and open: a scratch page is
    taken and the user's string copied into it. *)
Lemma with_scratch_string {B} (rest : Z -> M (kernel E) B) k (src L page : Z)
  (pool : list Z) :
  kernel_pool k = page :: pool -> fits_scratch k src L page ->
  exists m' l',
    (cmd <- palloc_get_page ;; strlbond cmd src PGSIZE ;; rest cmd) k
    = rest page (with_mem_log m' l' (set_kernel_pool pool k))
    /\ cstring (Z.to_nat PGSIZE) (with_mem_log m' l' (set_kernel_pool pool k)) page
       = bytes_at (Z.to_nat L) k src.
Proof.
  intros Hpool Hfit. unfold bind at 1. unfold palloc_get_page. rewrite Hpool.
  unfold bind at 1.
  destruct (copy_in (add_log (EvGetPage page) (set_kernel_pool pool k)) src L page Hfit)
    as (m' & l' & Hrun & Hstr).
  rewrite Hrun. exists m', l'. split; [reflexivity|].
  change (with_mem_log m' l' (set_kernel_pool pool k))
    with (with_mem_log m' l' (add_log (EvGetPage page) (set_kernel_pool pool k))).
  rewrite Hstr. apply bytes_at_ext. reflexivity.
Qed.

End CopyIn.

(** ** strlbond writes into its destination only *)

Section WritesWithin.
Context {E : Type}.
Implicit Types (k : kernel E) (c : Z).

Lemma keeps_ret {A} c (P : A -> Prop) (a : A) :
  P a -> keeps_cell (E := E) c P (ret a).
Proof.
  intros Ha k. split; [reflexivity|].
  intros a' k' H. inversion H. now subst.
Qed.

Lemma keeps_bind {A B} c (P : A -> Prop) (Q : B -> Prop)
  (m : M (kernel E) A) (g : A -> M (kernel E) B) :
  keeps_cell c P m -> (forall a, P a -> keeps_cell c Q (g a)) ->
  keeps_cell c Q (bind m g).
Proof.
  intros Hm Hg k. destruct (Hm k) as [Hmem Hpost]. unfold bind.
  destruct (m k) as [a k1|st k1|msg k1|k1|ad k1]; cbn [final] in *;
    try (split; [exact Hmem | intros ? ? ?; discriminate]).
  destruct (Hg a (Hpost a k1 eq_refl) k1) as [Hmem2 Hpost2].
  split; [now rewrite Hmem2 | exact Hpost2].
Qed.

Lemma keeps_any {A} c (P : A -> Prop) (m : M (kernel E) A) :
  keeps_cell c P m -> keeps_cell c (fun _ => True) m.
Proof. intros H k. split; [apply H | trivial]. Qed.

Lemma keeps_panic {A} c (P : A -> Prop) (msg : string) :
  keeps_cell (E := E) c P (panic msg).
Proof. intros k. split; [reflexivity | intros ? ? ?; discriminate]. Qed.

Lemma keeps_assert c (b : bool) (msg : string) :
  keeps_cell (E := E) c (fun _ => True) (assert b msg).
Proof. intros k. destruct b; (split; [reflexivity | trivial]). Qed.

Lemma keeps_user_vtop c (ua : Z) :
  keeps_cell (E := E) c (fun _ => True) (user_vtop ua).
Proof. intros k. split; [reflexivity | trivial]. Qed.

Lemma keeps_read_byte c (a : Z) :
  keeps_cell (E := E) c (fun _ => True) (read_byte a).
Proof.
  intros k. unfold read_byte. destruct (resolve k a); (split; [reflexivity | trivial]).
Qed.

Lemma keeps_store c (a v : Z) :
  PHYS_BASE <= a -> a <> c -> keeps_cell (E := E) c (fun _ => True) (store a v).
Proof.
  intros Ha Hc k. rewrite store_ok by exact Ha. split; [|trivial].
  cbn [final]. rewrite mem_with_mem_log.
  now replace (c =? a) with false by (symmetry; apply Z.eqb_neq; lia).
Qed.

Lemma keeps_memcpy_bytes c (n : nat) :
  forall dst src : Z,
    PHYS_BASE <= dst -> c < dst \/ dst + Z.of_nat n <= c ->
    keeps_cell (E := E) c (fun _ => True) (memcpy_bytes n dst src).
Proof.
  induction n as [|n IH]; intros dst src Hdst Hc; [now apply keeps_ret|].
  cbn [memcpy_bytes].
  apply keeps_bind with (P := fun _ => True); [apply keeps_read_byte|].
  intros b _.
  apply keeps_bind with (P := fun _ => True); [apply keeps_store; lia|].
  intros _ _. apply IH; lia.
Qed.

Lemma keeps_memcpy c (n : nat) (dst src : Z) :
  PHYS_BASE <= dst -> c < dst \/ dst + Z.of_nat n <= c ->
  keeps_cell (E := E) c (fun _ => True) (memcpy n dst src).
Proof.
  intros Hdst Hc. unfold memcpy.
  apply keeps_bind with (P := fun _ => True); [apply keeps_assert|].
  intros _ _.
  apply keeps_bind with (P := fun _ => True); [apply keeps_assert|].
  intros _ _. now apply keeps_memcpy_bytes.
Qed.

Lemma keeps_strlen c (fuel : nat) :
  forall s : Z, keeps_cell (E := E) c (fun len => 0 <= len) (strlen fuel s).
Proof.
  induction fuel as [|n IH]; intros s; [apply keeps_panic|].
  cbn [strlen].
  apply keeps_bind with (P := fun _ => True); [apply keeps_read_byte|].
  intros b _. destruct (b =? 0); [apply keeps_ret; lia|].
  apply keeps_bind with (P := fun len => 0 <= len); [apply IH|].
  intros len Hlen. apply keeps_ret. lia.
Qed.

Lemma keeps_sob_scan c (n : nat) :
  forall a : Z, keeps_cell (E := E) c (fun _ => True) (sob_scan n a).
Proof.
  induction n as [|n IH]; intros a; [now apply keeps_ret|].
  cbn [sob_scan].
  apply keeps_bind with (P := fun _ => True); [apply keeps_read_byte|].
  intros b _. destruct (b =? 0); [now apply keeps_ret | apply IH].
Qed.

Lemma keeps_strlcpy c (dst src size : Z) :
  PHYS_BASE <= dst -> 0 < size -> c < dst \/ dst + size <= c ->
  keeps_cell (E := E) c (fun _ => True) (strlcpy dst src size).
Proof.
  intros Hdst Hsize Hc. unfold strlcpy.
  apply keeps_bind with (P := fun _ => True); [apply keeps_assert|].
  intros _ _.
  apply keeps_bind with (P := fun _ => True); [apply keeps_assert|].
  intros _ _.
  apply keeps_bind with (P := fun len => 0 <= len); [apply keeps_strlen|].
  intros src_len Hlen.
  apply keeps_bind with (P := fun _ => True); [|intros; now apply keeps_ret].
  replace (size >? 0) with true by (symmetry; apply Z.gtb_lt; lia).
  cbv zeta.
  assert (Hd : 0 <= (if src_len <? size - 1 then src_len else size - 1) <= size - 1)
    by (destruct (Z.ltb_spec src_len (size - 1)); lia).
  apply keeps_bind with (P := fun _ => True).
  - apply keeps_memcpy; [exact Hdst | rewrite Z2Nat.id by lia; lia].
  - intros _ _. apply keeps_store; lia.
Qed.

Lemma keeps_strlbond c (dst src size : Z) :
  PHYS_BASE <= dst -> 0 < size < 4294967296 -> c < dst \/ dst + size <= c ->
  keeps_cell (E := E) c (fun _ => True) (strlbond dst src size).
Proof.
  intros Hdst Hsize Hc. unfold strlbond.
  pose proof (pg_ofs_range src) as Ho.
  apply keeps_bind with (P := fun _ => True); [apply keeps_user_vtop|].
  intros s _.
  apply keeps_bind with (P := fun _ => True); [apply keeps_sob_scan|].
  intros over _.
  apply keeps_bind with (P := fun ds : Z * Z => 0 <= fst ds <= size - 1).
  - destruct over; [|apply keeps_ret; cbn; lia].
    cbv zeta. rewrite u32_small by lia.
    assert (Hn : 0 <= MIN (PGSIZE - pg_ofs src) (size - 1) <= size - 1).
    { unfold MIN. rewrite Z.gtb_ltb.
      destruct (Z.ltb_spec (size - 1) (PGSIZE - pg_ofs src)); lia. }
    apply keeps_bind with (P := fun _ => True).
    + apply keeps_memcpy; [exact Hdst | rewrite Z2Nat.id by lia; lia].
    + intros _ _. apply keeps_bind with (P := fun _ => True);
        [apply keeps_store; lia|].
      intros _ _. apply keeps_ret. cbn [fst]. exact Hn.
  - intros [doffset s'] Hds. cbn [fst snd] in *.
    apply keeps_bind with (P := fun _ => True); [apply keeps_sob_scan|].
    intros over' _.
    apply keeps_bind with (P := fun _ => True); [apply keeps_assert|].
    intros _ _.
    apply keeps_bind with (P := fun _ => True); [|intros; now apply keeps_ret].
    rewrite u32_small by lia. apply keeps_strlcpy; lia.
Qed.

(** X21: strlbond never writes outside its destination: for a destination
    of [size] bytes in kernel memory, every cell of memory outside
    [dst, dst + size) holds after the call what it held before, whatever the
    source is and however the call ends (return, page fault or ASSERT). *)
Theorem strlbond_writes_within_dst k (dst src size c : Z) :
  PHYS_BASE <= dst -> 0 < size < 4294967296 -> c < dst \/ dst + size <= c ->
  mem (final (strlbond dst src size k)) c = mem k c.
Proof.
  intros Hdst Hsize Hc. now apply (keeps_strlbond c dst src size).
Qed.

End WritesWithin.

Section CallsMore.
Context {E : Type} (sv : services E).
Implicit Types k : kernel E.

Lemma fits_scratch_user k (src L page : Z) :
  fits_scratch k src L page -> (PHYS_BASE <=? src) = false /\ (page =? 0) = false.
Proof.
  intros (_ & Hsrc & HL & Huser & _ & _ & Hpage & _). split.
  - apply Z.leb_gt. lia.
  - apply Z.eqb_neq. unfold PHYS_BASE in Hpage. lia.
Qed.

(** ** exec *)

(** X9: exec on a command line that fits the scratch page hands
    process_execute exactly the user's string; when the new thread is found,
    exec returns the identifier process_execute gave, after waiting on the
    child's load semaphore, with the scratch page back in the pool; when it
    is not found, the kernel stops at ASSERT (child). *)
Theorem exec_hands_over_command_line k (src L page : Z) (pool : list Z) :
  kernel_pool k = page :: pool -> fits_scratch k src L page ->
  let r := process_execute sv (bytes_at (Z.to_nat L) k src) (ext k) in
  (get_thread_by_tid sv (fst r) (snd r) = true ->
   exists k',
     exec sv src k = Ret (fst r) k'
     /\ ext k' = sema_down_loaded sv (fst r) (snd r)
     /\ kernel_pool k' = kernel_pool k
     /\ cur k' = cur k /\ console k' = console k)
  /\ (get_thread_by_tid sv (fst r) (snd r) = false ->
      exists k', exec sv src k = Panic "child" k'
                 /\ kernel_pool k' = kernel_pool k).
Proof.
  intros Hpool Hfit r.
  destruct (fits_scratch_user k src L page Hfit) as [Hguard Hnz].
  destruct (with_scratch_string
              (fun cmd_line =>
                 pid <- do_process_execute sv cmd_line ;;
                 palloc_free_page cmd_line ;;
                 child <- do_get_thread_by_tid sv pid ;;
                 assert child "child" ;;
                 do_sema_down_loaded sv pid ;;
                 ret pid) k src L page pool Hpool Hfit)
    as (m' & l' & Hrun & Hstr).
  unfold exec. rewrite Hguard, Hrun.
  unfold bind, do_process_execute. rewrite Hstr.
  cbn [ext with_mem_log set_kernel_pool]. fold r.
  unfold palloc_free_page. rewrite Hnz.
  unfold do_get_thread_by_tid.
  cbn [ext add_log with_mem_log set_kernel_pool set_ext].
  split; intros Hchild; rewrite Hchild; cbn [assert].
  - unfold do_sema_down_loaded, ret. eexists. split; [reflexivity|].
    cbn. rewrite Hpool. now repeat split.
  - eexists. split; [reflexivity|]. cbn. now rewrite Hpool.
Qed.

(** ** create and remove *)

(** X10: create and remove on a name that fits the scratch page hand the
    file system exactly the user's string (create with the initial size as
    given) and return what the file system answers, with the scratch page
    back in the pool and the collaborators' state as the file system left
    it. *)
Theorem create_remove_delegate k (src L page n : Z) (pool : list Z) :
  kernel_pool k = page :: pool -> fits_scratch k src L page ->
  let name := bytes_at (Z.to_nat L) k src in
  (exists k',
      create sv src n k = Ret (fst (filesys_create sv name n (ext k))) k'
      /\ ext k' = snd (filesys_create sv name n (ext k))
      /\ kernel_pool k' = kernel_pool k /\ cur k' = cur k)
  /\ (exists k',
         remove sv src k = Ret (fst (filesys_remove sv name (ext k))) k'
         /\ ext k' = snd (filesys_remove sv name (ext k))
         /\ kernel_pool k' = kernel_pool k /\ cur k' = cur k).
Proof.
  intros Hpool Hfit name.
  destruct (fits_scratch_user k src L page Hfit) as [Hguard Hnz].
  split.
  - destruct (with_scratch_string
                (fun file =>
                   success <- do_filesys_create sv file n ;;
                   palloc_free_page file ;;
                   ret success) k src L page pool Hpool Hfit)
      as (m' & l' & Hrun & Hstr).
    unfold create. rewrite Hguard, Hrun.
    unfold bind, do_filesys_create. rewrite Hstr.
    cbn [ext with_mem_log set_kernel_pool]. fold name.
    unfold palloc_free_page. rewrite Hnz. unfold ret.
    eexists. split; [reflexivity|]. cbn. rewrite Hpool. now repeat split.
  - destruct (with_scratch_string
                (fun file =>
                   success <- do_filesys_remove sv file ;;
                   palloc_free_page file ;;
                   ret success) k src L page pool Hpool Hfit)
      as (m' & l' & Hrun & Hstr).
    unfold remove. rewrite Hguard, Hrun.
    unfold bind, do_filesys_remove. rewrite Hstr.
    cbn [ext with_mem_log set_kernel_pool]. fold name.
    unfold palloc_free_page. rewrite Hnz. unfold ret.
    eexists. split; [reflexivity|]. cbn. rewrite Hpool. now repeat split.
Qed.

(** ** open *)

Lemma s32_add_s32 (a b : Z) : s32 (s32 a + b) = s32 (a + b).
Proof.
  assert (Hu : u32 (s32 a + b) = u32 (a + b)).
  { unfold s32, u32. destruct (a mod 4294967296 <? 2147483648).
    - now rewrite Z.add_mod_idemp_l by lia.
    - replace (a mod 4294967296 - 4294967296 + b)
        with (a mod 4294967296 + b + (-1) * 4294967296) by lia.
      rewrite Z.mod_add by lia. now rewrite Z.add_mod_idemp_l by lia. }
  unfold s32 at 1 3. now rewrite Hu.
Qed.

Lemma lastfd_restored (t : thread) :
  -2147483648 <= lastfd t < 2147483648 ->
  set_lastfd (s32 (lastfd (set_lastfd (s32 (lastfd t + 1)) t) - 1))
    (set_lastfd (s32 (lastfd t + 1)) t) = t.
Proof.
  intros H. destruct t as [nm st lf ol]. cbn [lastfd set_lastfd] in *.
  unfold set_lastfd; cbn. f_equal.
  replace (s32 (lf + 1) - 1) with (s32 (lf + 1) + (-1)) by lia.
  rewrite s32_add_s32. replace (lf + 1 + -1) with lf by lia.
  now apply FrameMore.s32_small.
Qed.

(** X11: an open that succeeds (the file system opens the name, a block is
    left for the bookkeeping entry) returns the descriptor lastfd + 1,
    makes it the new lastfd and appends the pair (descriptor, file handle)
    to the open-file list; while every descriptor in the list is at most
    lastfd, the new descriptor is none of those already in the list. *)
Theorem open_gives_fresh_descriptor k (src L page h : Z) (pool : list Z) (e' : E) :
  kernel_pool k = page :: pool -> fits_scratch k src L page ->
  filesys_open sv (bytes_at (Z.to_nat L) k src) (ext k) = (Some h, e') ->
  heap_free k <> 0%nat ->
  -2147483648 <= lastfd (cur k) < 2147483647 ->
  exists k',
    open sv src k = Ret (lastfd (cur k) + 1) k'
    /\ lastfd (cur k') = lastfd (cur k) + 1
    /\ open_list (cur k')
       = open_list (cur k) ++ [{| fd := lastfd (cur k) + 1; f := h |}]
    /\ ext k' = e'
    /\ kernel_pool k' = kernel_pool k
    /\ heap_free k = S (heap_free k')
    /\ (fds_bounded (cur k) ->
        fds_bounded (cur k')
        /\ ~ In (lastfd (cur k) + 1) (map fd (open_list (cur k)))).
Proof.
  intros Hpool Hfit Hopen Hheap Hfd.
  destruct (fits_scratch_user k src L page Hfit) as [Hguard Hnz].
  destruct (with_scratch_string
              (fun file =>
                 fh <- do_filesys_open sv file ;;
                 palloc_free_page file ;;
                 match fh with
                 | None => ret (-1)
                 | Some h =>
                     fd' <- incr_lastfd ;;
                     got <- calloc ;;
                     if negb got
                     then decr_lastfd ;; ret (-1)
                     else push_open_list {| fd := fd'; f := h |} ;; ret fd'
                 end) k src L page pool Hpool Hfit)
    as (m' & l' & Hrun & Hstr).
  unfold open. rewrite Hguard, Hrun.
  unfold bind, do_filesys_open. rewrite Hstr.
  cbn [ext with_mem_log set_kernel_pool]. rewrite Hopen. cbn [fst snd].
  unfold palloc_free_page. rewrite Hnz.
  unfold incr_lastfd, calloc.
  cbn [heap_free cur add_log with_mem_log set_kernel_pool set_ext set_cur].
  destruct (heap_free k) as [|hf] eqn:Hhf; [contradiction|]. cbn [negb].
  unfold push_open_list, ret.
  rewrite (FrameMore.s32_small (lastfd (cur k) + 1)) by lia.
  eexists. split; [reflexivity|]. cbn. rewrite Hpool.
  do 5 (split; [reflexivity|]).
  intros Hb. split.
  - intros o Ho. cbn in Ho. apply in_app_or in Ho.
    destruct Ho as [Ho | [<- | []]]; cbn; [apply Hb in Ho; lia | lia].
  - intros Hin. apply in_map_iff in Hin. destruct Hin as (o & Hfo & Ho).
    apply Hb in Ho. lia.
Qed.

(** X12: an open that fails after the copy (the file system does not open
    the name, or no block is left for the bookkeeping entry) returns -1 and
    leaves the thread as it was: lastfd, stepped up before the allocation,
    is stepped back, and the open-file list is untouched; the scratch page
    is back in the pool. *)
Theorem open_failure_leaves_thread k (src L page : Z) (pool : list Z) :
  kernel_pool k = page :: pool -> fits_scratch k src L page ->
  fst (filesys_open sv (bytes_at (Z.to_nat L) k src) (ext k)) = None
  \/ heap_free k = 0%nat ->
  -2147483648 <= lastfd (cur k) < 2147483648 ->
  exists k',
    open sv src k = Ret (-1) k'
    /\ cur k' = cur k
    /\ kernel_pool k' = kernel_pool k
    /\ heap_free k' = heap_free k
    /\ ext k' = snd (filesys_open sv (bytes_at (Z.to_nat L) k src) (ext k)).
Proof.
  intros Hpool Hfit Hfail Hfd.
  destruct (fits_scratch_user k src L page Hfit) as [Hguard Hnz].
  destruct (with_scratch_string
              (fun file =>
                 fh <- do_filesys_open sv file ;;
                 palloc_free_page file ;;
                 match fh with
                 | None => ret (-1)
                 | Some h =>
                     fd' <- incr_lastfd ;;
                     got <- calloc ;;
                     if negb got
                     then decr_lastfd ;; ret (-1)
                     else push_open_list {| fd := fd'; f := h |} ;; ret fd'
                 end) k src L page pool Hpool Hfit)
    as (m' & l' & Hrun & Hstr).
  unfold open. rewrite Hguard, Hrun.
  unfold bind, do_filesys_open. rewrite Hstr.
  cbn [ext with_mem_log set_kernel_pool].
  destruct (filesys_open sv (bytes_at (Z.to_nat L) k src) (ext k)) as [[h|] e'];
    cbn [fst snd] in *; unfold palloc_free_page; rewrite Hnz.
  - destruct Hfail as [Hnone | Hheap]; [discriminate|].
    unfold incr_lastfd, calloc.
    cbn [heap_free cur add_log with_mem_log set_kernel_pool set_ext set_cur].
    rewrite Hheap. cbn [negb]. unfold decr_lastfd, ret.
    cbn [heap_free cur add_log with_mem_log set_kernel_pool set_ext set_cur].
    rewrite (lastfd_restored (cur k) Hfd).
    eexists. split; [reflexivity|]. cbn. rewrite Hpool, Hheap. now repeat split.
  - unfold ret. eexists. split; [reflexivity|]. cbn. rewrite Hpool. now repeat split.
Qed.

(** ** write *)

Lemma s32_idem (z : Z) : s32 (s32 z) = s32 z.
Proof.
  replace (s32 z) with (s32 z + 0) at 1 by lia.
  rewrite s32_add_s32. f_equal. lia.
Qed.

Lemma MIN_min (a b : Z) : MIN a b = Z.min a b.
Proof. unfold MIN. rewrite Z.gtb_ltb. destruct (Z.ltb_spec b a); lia. Qed.

Lemma MIN_chunk (size : Z) :
  0 < size -> 1 <= MIN size (PGSIZE - 1) <= size /\ MIN size (PGSIZE - 1) <= 4095.
Proof.
  intros H. unfold MIN. rewrite Z.gtb_ltb, PGSIZE_val.
  destruct (Z.ltb_spec (4096 - 1) size); lia.
Qed.

Lemma write_loop_returns (fuel : nat) :
  forall (d ub b size wrote v : Z) k k',
    0 <= size <= Z.of_nat fuel -> size < 4294967296 -> s32 wrote = wrote ->
    write_loop fuel d ub b size wrote k = Ret v k' ->
    v = s32 (wrote + size).
Proof.
  induction fuel as [|fuel IH]; intros d ub b size wrote v k k' Hsize Hmax Hw H.
  - assert (size = 0) by lia. subst size. inversion H; subst.
    now rewrite Z.add_0_r, Hw.
  - rewrite write_loop_S in H.
    destruct (Z.gtb_spec size 0) as [Hpos | Hzero].
    + unfold bind in H.
      destruct (strlbond b ub (MIN (u32 (size + 1)) PGSIZE) k) as [a k1| | | |];
        try discriminate.
      destruct (MIN_chunk size Hpos) as [Hm _].
      assert (Hnext : u32 (size - MIN size (PGSIZE - 1)) = size - MIN size (PGSIZE - 1))
        by (apply u32_small; lia).
      rewrite Hnext in H.
      assert (Hgoal : forall k2,
                 write_loop fuel d ub b (size - MIN size (PGSIZE - 1))
                   (s32 (wrote + MIN size (PGSIZE - 1))) k2 = Ret v k' ->
                 v = s32 (wrote + size)).
      { intros k2 H2. apply IH in H2; [|lia|lia|apply s32_idem].
        rewrite H2, s32_add_s32. f_equal. lia. }
      destruct (d =? STDOUT_FILENO); [unfold putbuf in H | unfold ret in H];
        now apply Hgoal in H.
    + assert (size = 0) by lia. subst size. inversion H; subst.
      now rewrite Z.add_0_r, Hw.
Qed.

(** X13: whenever write returns, it returns -1 for a buffer at or above the
    user/kernel boundary and otherwise the length it was asked to write (as
    a C int), for the console and for every other descriptor alike,
    whatever the buffer holds. *)
Theorem write_returns_length k (d p n v : Z) k' :
  0 <= n < 4294967296 ->
  write d p n k = Ret v k' ->
  v = if PHYS_BASE <=? p then -1 else s32 n.
Proof.
  intros Hn H. unfold write in H. destruct (PHYS_BASE <=? p).
  - now inversion H.
  - unfold bind in H.
    destruct (palloc_get_page k) as [buffer k0| | | |]; try discriminate.
    destruct (write_loop (Z.to_nat n) d p buffer n 0 k0) as [w k1| | | |] eqn:Hloop;
      try discriminate.
    apply write_loop_returns in Hloop; [|lia|lia|reflexivity].
    destruct (palloc_free_page buffer k1) as [[] k2| | | |]; try discriminate.
    unfold ret in H. inversion H; subst. reflexivity.
Qed.

Lemma write_loop_zero (fuel : nat) (d ub b wrote : Z) :
  write_loop (E := E) fuel d ub b 0 wrote = ret wrote.
Proof. destruct fuel; reflexivity. Qed.

Lemma private_buffer_shrink k (dst size size' : Z) :
  size' <= size -> private_buffer k dst size -> private_buffer k dst size'.
Proof.
  intros Hle Hp a c Ha Hc. destruct (Hp a c Ha Hc); [now left | right; lia].
Qed.

(** X14: write to the console of n bytes (0 < n < PGSIZE) none of which is
    NUL, from a mapped buffer whose first NUL lies in the buffer's page or
    the mapped next one, returns n and puts exactly those n bytes on the
    console, in order, in one putbuf; the scratch page is back in the pool. *)
Theorem write_console_emits_buffer k (p n L page : Z) (pool : list Z) :
  kernel_pool k = page :: pool ->
  pagedir_ok k -> 0 <= p -> 0 < n < PGSIZE -> n <= L -> p + L < PHYS_BASE ->
  c_string_at k p L -> p + L < pg_round_down p + 2 * PGSIZE ->
  PHYS_BASE <= page -> private_buffer k page PGSIZE ->
  exists k',
    write STDOUT_FILENO p n k = Ret n k'
    /\ console k' = console k ++ [ConBuf (bytes_at (Z.to_nat n) k p)]
    /\ kernel_pool k' = kernel_pool k.
Proof.
  intros Hpool Hok Hp Hn HL Huser Hs Hspan Hpage Hpriv.
  pose proof PGSIZE_val as HPG.
  set (out := bytes_at (Z.to_nat n) k p).
  unfold write.
  replace (PHYS_BASE <=? p) with false by (symmetry; apply Z.leb_gt; lia).
  unfold bind at 1. unfold palloc_get_page. rewrite Hpool.
  destruct (Z.to_nat n) as [|fuel] eqn:Hfuel; [lia|].
  unfold bind at 1. rewrite write_loop_S.
  replace (n >? 0) with true by (symmetry; apply Z.gtb_lt; lia).
  assert (Hsz : MIN (u32 (n + 1)) PGSIZE = n + 1).
  { rewrite u32_small by lia. unfold MIN. rewrite Z.gtb_ltb.
    destruct (Z.ltb_spec PGSIZE (n + 1)); lia. }
  assert (Hch : MIN n (PGSIZE - 1) = n).
  { unfold MIN. rewrite Z.gtb_ltb. destruct (Z.ltb_spec (PGSIZE - 1) n); lia. }
  rewrite Hsz, Hch. unfold bind at 1.
  destruct (strlbond_copies (add_log (EvGetPage page) (set_kernel_pool pool k))
              page p (n + 1) L) as (k1 & Hrun & Hbytes & _);
    try assumption; try lia.
  { apply (private_buffer_shrink _ page PGSIZE); [lia | exact Hpriv]. }
  destruct (strlbond_Ret_state _ _ _ _ _ _ Hrun) as (m' & l' & ->).
  rewrite Hrun. cbn [Z.eqb Pos.eqb STDOUT_FILENO]. unfold bind at 1.
  unfold putbuf. rewrite Z.sub_diag.
  change (u32 0) with 0. rewrite write_loop_zero. unfold ret at 1.
  unfold bind. unfold palloc_free_page.
  replace (page =? 0) with false
    by (symmetry; apply Z.eqb_neq; unfold PHYS_BASE in Hpage; lia).
  unfold ret. rewrite (FrameMore.s32_small (0 + n)) by lia.
  eexists. split; [reflexivity|].
  cbn [console kernel_pool with_mem_log add_log set_kernel_pool add_console].
  split; [|reflexivity].
  f_equal. f_equal. f_equal. subst out. rewrite ?Hfuel.
  apply bytes_at_ext. intros i Hi.
  rewrite peek_kernel by lia. rewrite mem_with_mem_log.
  symmetry. apply peek_load.
  replace (n + 1 - 1) with n in Hbytes by lia.
  rewrite Z.min_r in Hbytes by lia. rewrite mem_with_mem_log in Hbytes.
  apply Hbytes. lia.
Qed.

(** ** write of more than one chunk *)

Lemma same_outside_load k k1 (page a : Z) :
  private_buffer k page PGSIZE -> same_outside page k k1 ->
  a < PHYS_BASE -> load k1 a = load k a.
Proof.
  intros Hpriv [Hpd Hmem] Ha.
  assert (Hres : resolve k1 a = resolve k a) by (unfold resolve; now rewrite Hpd).
  unfold load. rewrite Hres. destruct (resolve k a) as [c|] eqn:Hc; [|reflexivity].
  f_equal. apply Hmem. exact (Hpriv a c Ha Hc).
Qed.

Lemma same_outside_private k k1 (page size : Z) :
  size <= PGSIZE -> private_buffer k page PGSIZE -> same_outside page k k1 ->
  private_buffer k1 page size.
Proof.
  intros Hsz Hpriv [Hpd _] a c Ha Hc.
  assert (Hres : resolve k a = Some c) by (unfold resolve in *; now rewrite <- Hpd).
  destruct (Hpriv a c Ha Hres); [now left | right; lia].
Qed.

Lemma same_outside_string k k1 (page p L : Z) :
  0 <= L -> p + L < PHYS_BASE ->
  private_buffer k page PGSIZE -> same_outside page k k1 ->
  c_string_at k p L -> c_string_at k1 p L.
Proof.
  intros HL Huser Hpriv Hsame [Hrun Hend]. split.
  - intros i Hi. rewrite (same_outside_load k k1 page) by (assumption || lia).
    now apply Hrun.
  - now rewrite (same_outside_load k k1 page) by (assumption || lia).
Qed.

Lemma write_loop_console (fuel : nat) k (p L page : Z) :
  pagedir_ok k -> 0 <= p -> p + L < PHYS_BASE ->
  c_string_at k p L -> p + L < pg_round_down p + 2 * PGSIZE ->
  PHYS_BASE <= page -> private_buffer k page PGSIZE ->
  forall (size wrote : Z) k1,
    0 <= size <= Z.of_nat fuel -> size < 4294967295 ->
    MIN size (PGSIZE - 1) <= L ->
    same_outside page k k1 ->
    exists v k2,
      write_loop fuel STDOUT_FILENO p page size wrote k1 = Ret v k2
      /\ same_outside page k k2
      /\ console k2
         = console k1
           ++ map (fun c => ConBuf (bytes_at (Z.to_nat c) k p)) (chunks fuel size)
      /\ kernel_pool k2 = kernel_pool k1.
Proof.
  intros Hok Hp Huser Hs Hspan Hpage Hpriv.
  pose proof PGSIZE_val as HPG.
  induction fuel as [|fuel IH]; intros size wrote k1 Hsize Hmax HL Hsame.
  - exists wrote, k1. cbn [write_loop chunks map]. rewrite app_nil_r.
    split; [reflexivity|]. split; [exact Hsame|]. split; reflexivity.
  - rewrite write_loop_S. cbn [chunks].
    destruct (Z.gtb_spec size 0) as [Hpos | Hzero].
    2:{ exists wrote, k1. cbn [map]. rewrite app_nil_r.
        split; [reflexivity|]. split; [exact Hsame|]. split; reflexivity. }
    destruct (MIN_chunk size Hpos) as [Hch Hch'].
    set (chunk := MIN size (PGSIZE - 1)) in *.
    assert (Hsz : MIN (u32 (size + 1)) PGSIZE = chunk + 1).
    { rewrite u32_small by lia. unfold chunk, MIN. rewrite !Z.gtb_ltb.
      destruct (Z.ltb_spec PGSIZE (size + 1)), (Z.ltb_spec (PGSIZE - 1) size); lia. }
    rewrite Hsz.
    assert (HL0 : 0 <= L) by lia.
    destruct (strlbond_copies k1 page p (chunk + 1) L) as (k1' & Hrun & Hbytes & _);
      try assumption; try lia.
    { intros pg kp Hkp. apply (Hok pg kp). destruct Hsame as [Hpd _].
      now rewrite <- Hpd. }
    { apply (same_outside_private k k1 page); [lia | assumption | assumption]. }
    { now apply (same_outside_string k k1 page). }
    destruct (strlbond_Ret_state _ _ _ _ _ _ Hrun) as (m' & l' & Hk1').
    assert (Hsame' : same_outside page k k1').
    { destruct Hsame as [Hpd Hmem]. split; [now rewrite Hk1'|].
      intros c Hc.
      destruct (keeps_strlbond c page p (chunk + 1) Hpage ltac:(lia) ltac:(lia) k1)
        as [Hkeep _].
      rewrite Hrun in Hkeep. cbn [final] in Hkeep. rewrite Hkeep. now apply Hmem. }
    replace (Z.min L (chunk + 1 - 1)) with chunk in Hbytes by lia.
    assert (Hout : bytes_at (Z.to_nat chunk) k1' page = bytes_at (Z.to_nat chunk) k p).
    { apply bytes_at_ext. intros i Hi. rewrite Z2Nat.id in Hi by lia.
      rewrite peek_kernel by lia. symmetry. apply peek_load.
      rewrite <- (same_outside_load k k1 page) by (assumption || lia).
      now apply Hbytes. }
    unfold bind at 1. rewrite Hrun.
    cbn [Z.eqb Pos.eqb STDOUT_FILENO]. unfold bind at 1. unfold putbuf.
    rewrite Hout. rewrite (u32_small (size - chunk)) by lia.
    destruct (IH (size - chunk) (s32 (wrote + chunk))
                (add_console (ConBuf (bytes_at (Z.to_nat chunk) k p)) k1'))
      as (v & k2 & Hloop & Hsame2 & Hcon & Hpool).
    { lia. }
    { lia. }
    { rewrite MIN_min. unfold chunk in *. rewrite MIN_min in *. lia. }
    { destruct Hsame' as [Hpd Hmem]. split; [exact Hpd | exact Hmem]. }
    exists v, k2. split; [exact Hloop|]. split; [exact Hsame2|].
    split.
    + rewrite Hcon. cbn [console add_console map]. rewrite Hk1'.
      cbn [console with_mem_log]. now rewrite <- app_assoc.
    + rewrite Hpool, Hk1'. reflexivity.
Qed.

(** X22: write to the console never advances through the user's buffer.
    For a write of n bytes from a mapped buffer (its first NUL at index L,
    in the buffer's page or the next, no earlier than the first chunk ends)
    the call returns n and puts out one putbuf per chunk of at most
    PGSIZE - 1 bytes, and every chunk is taken from the start of the
    buffer: the bytes past the first chunk are never written, the first
    ones are written again. *)
Theorem write_console_restarts_each_chunk k (p n L page : Z) (pool : list Z) :
  kernel_pool k = page :: pool ->
  pagedir_ok k -> 0 <= p -> 0 < n < 4294967295 -> MIN n (PGSIZE - 1) <= L ->
  p + L < PHYS_BASE -> c_string_at k p L ->
  p + L < pg_round_down p + 2 * PGSIZE ->
  PHYS_BASE <= page -> private_buffer k page PGSIZE ->
  exists k',
    write STDOUT_FILENO p n k = Ret (s32 n) k'
    /\ console k'
       = console k
         ++ map (fun c => ConBuf (bytes_at (Z.to_nat c) k p))
              (chunks (Z.to_nat n) n)
    /\ kernel_pool k' = kernel_pool k.
Proof.
  intros Hpool Hok Hp Hn HL Huser Hs Hspan Hpage Hpriv.
  assert (HL0 : 0 <= L) by (destruct (MIN_chunk n); lia).
  unfold write.
  replace (PHYS_BASE <=? p) with false by (symmetry; apply Z.leb_gt; lia).
  unfold bind at 1. unfold palloc_get_page. rewrite Hpool.
  destruct (write_loop_console (Z.to_nat n) k p L page Hok Hp Huser Hs Hspan Hpage
              Hpriv n 0 (add_log (EvGetPage page) (set_kernel_pool pool k)))
    as (v & k2 & Hloop & _ & Hcon & Hpool2); try lia.
  { split; [reflexivity | intros; reflexivity]. }
  assert (Hv : v = s32 (0 + n))
    by (apply write_loop_returns in Hloop; [exact Hloop | lia | lia | reflexivity]).
  unfold bind at 1. rewrite Hloop. unfold bind. unfold palloc_free_page.
  replace (page =? 0) with false
    by (symmetry; apply Z.eqb_neq; unfold PHYS_BASE in Hpage; lia).
  unfold ret. subst v. eexists. split; [reflexivity|].
  cbn [console kernel_pool with_mem_log add_log set_kernel_pool].
  split; [exact Hcon|]. rewrite Hpool2. reflexivity.
Qed.

(** ** An untranslatable pointer *)

Lemma scan_at_null k (l : list event) (m : Z -> Z) :
  pagedir k 0 = None ->
  str_over_boundary 0 (with_mem_log m l k)
  = Fault 0 (with_mem_log m (l ++ [EvRead 0]) k).
Proof.
  intros Hnull. unfold str_over_boundary.
  change (pg_round_down 0 + pg_ofs 0) with 0.
  change (Z.to_nat (PGSIZE - pg_ofs 0)) with (Z.to_nat 4096).
  replace (Z.to_nat 4096) with (S (Z.to_nat 4095)) by lia.
  cbn [sob_scan]. unfold bind, read_byte, resolve.
  cbn [pagedir with_mem_log]. change (pg_round_down 0) with 0.
  change (PHYS_BASE <=? 0) with false. cbv iota. now rewrite Hnull.
Qed.

(** X15: when the translator reports an invalid pointer (NULL) for [src],
    strlbond goes on with it: with page 0 unmapped, the kernel takes a page
    fault reading address 0, before a single byte has been written. *)
Theorem strlbond_untranslated_faults k (dst src size : Z) :
  translate k src = 0 -> pagedir k 0 = None ->
  exists k',
    strlbond dst src size k = Fault 0 k'
    /\ mem k' = mem k
    /\ log k' = log k ++ [EvTranslate src; EvRead 0].
Proof.
  intros Htr Hnull. rewrite strlbond_unfold. unfold bind at 1. unfold user_vtop.
  rewrite Htr. unfold bind at 1. unfold add_log. rewrite scan_at_null by exact Hnull.
  eexists. split; [reflexivity|]. cbn. split; [reflexivity|].
  now rewrite <- app_assoc.
Qed.

(** X16: exec, create, remove, open and write of at least one byte, called
    with a pointer below the boundary that does not translate (page 0 being
    unmapped), end in that page fault with the scratch page taken and not
    given back: the kernel pool is one page short. *)
Theorem unmapped_pointer_faults_holding_page k (p page : Z) (pool : list Z) :
  p < PHYS_BASE -> translate k p = 0 -> pagedir k 0 = None ->
  kernel_pool k = page :: pool ->
  (exists k', exec sv p k = Fault 0 k' /\ kernel_pool k' = pool)
  /\ (forall n, exists k', create sv p n k = Fault 0 k' /\ kernel_pool k' = pool)
  /\ (exists k', remove sv p k = Fault 0 k' /\ kernel_pool k' = pool)
  /\ (exists k', open sv p k = Fault 0 k' /\ kernel_pool k' = pool)
  /\ (forall d n, 0 < n ->
        exists k', write d p n k = Fault 0 k' /\ kernel_pool k' = pool).
Proof.
  intros Hp Htr Hnull Hpool.
  assert (Hguard : (PHYS_BASE <=? p) = false) by (apply Z.leb_gt; lia).
  assert (Hcopy : forall size,
             exists k', strlbond page p size
                          (add_log (EvGetPage page) (set_kernel_pool pool k))
                        = Fault 0 k' /\ kernel_pool k' = pool).
  { intros size.
    destruct (strlbond_untranslated_faults
                (add_log (EvGetPage page) (set_kernel_pool pool k)) page p size
                Htr Hnull) as (k' & Hrun & _).
    exists k'. split; [exact Hrun|].
    destruct (oml_strlbond page p size
                (add_log (EvGetPage page) (set_kernel_pool pool k)))
      as (m' & l' & Hf).
    rewrite Hrun in Hf. cbn [final] in Hf. now rewrite Hf. }
  repeat split; intros.
  - unfold exec. rewrite Hguard. unfold bind at 1, palloc_get_page. rewrite Hpool.
    unfold bind at 1. destruct (Hcopy PGSIZE) as (k' & -> & Hk). now exists k'.
  - unfold create. rewrite Hguard. unfold bind at 1, palloc_get_page. rewrite Hpool.
    unfold bind at 1. destruct (Hcopy PGSIZE) as (k' & -> & Hk). now exists k'.
  - unfold remove. rewrite Hguard. unfold bind at 1, palloc_get_page. rewrite Hpool.
    unfold bind at 1. destruct (Hcopy PGSIZE) as (k' & -> & Hk). now exists k'.
  - unfold open. rewrite Hguard. unfold bind at 1, palloc_get_page. rewrite Hpool.
    unfold bind at 1. destruct (Hcopy PGSIZE) as (k' & -> & Hk). now exists k'.
  - unfold write. rewrite Hguard. unfold bind at 1, palloc_get_page. rewrite Hpool.
    unfold bind at 1.
    destruct (Z.to_nat n) as [|fuel] eqn:Hfuel; [lia|].
    rewrite write_loop_S.
    replace (n >? 0) with true by (symmetry; apply Z.gtb_lt; lia).
    unfold bind at 1.
    destruct (Hcopy (MIN (u32 (n + 1)) PGSIZE)) as (k' & -> & Hk). now exists k'.
Qed.

(** ** A string that does not end within two pages *)

(** X17: on a source that has no NUL from [src] to the end of its page nor
    anywhere in the mapped page after it, strlbond does not truncate: it
    copies what the first page holds and then stops the kernel at its
    ASSERT. *)
Theorem strlbond_long_string_panics k (dst src size : Z) :
  pagedir_ok k ->
  0 <= src -> src + (PGSIZE - pg_ofs src) + PGSIZE <= PHYS_BASE ->
  (forall i, 0 <= i < PGSIZE - pg_ofs src + PGSIZE ->
     exists b, load k (src + i) = Some b /\ b <> 0) ->
  PHYS_BASE <= dst -> 0 < size < 4294967296 ->
  private_buffer k dst size ->
  exists k', strlbond dst src size k = Panic "!str_over_boundary (s)" k'.
Proof.
  intros Hok Hsrc Huser Hrun Hdst Hsize Hpriv.
  pose proof (pg_ofs_range src) as Ho. pose proof (pg_split src) as Hsp.
  pose proof PGSIZE_val as HPG.
  assert (Hsrc' : src < PHYS_BASE) by lia.
  destruct (Hrun 0) as (b0 & Hb0 & _); [lia|]. rewrite Z.add_0_r in Hb0.
  assert (Hmap : exists kpage, pagedir k (pg_round_down src) = Some kpage).
  { unfold load in Hb0. destruct (resolve k src) as [c|] eqn:Hc; [|discriminate].
    destruct (resolve_user_inv k src c Hsrc' Hc) as (kp & Hkp & _). now exists kp. }
  destruct Hmap as (kpage & Hkp).
  destruct (Hok _ _ Hkp) as [Hkbase Hkal].
  set (s := kpage + pg_ofs src).
  destruct (pg_aligned_add kpage (pg_ofs src) Hkal Ho) as [Hsofs Hspg].
  fold s in Hsofs, Hspg.
  assert (Halias : forall i, 0 <= i -> pg_ofs src + i < PGSIZE ->
            resolve k (src + i) = Some (s + i)
            /\ resolve k (s + i) = Some (s + i)
            /\ load k (s + i) = load k (src + i)).
  { intros i Hi Hin. exact (alias k src kpage i Hok Hsrc' Hkp Hi Hin). }
  assert (Hcell : forall i, 0 <= i -> pg_ofs src + i < PGSIZE ->
            s + i < dst \/ dst + size <= s + i).
  { intros i Hi Hin. destruct (Halias i Hi Hin) as (Hr & _).
    apply (Hpriv (src + i)); [lia | exact Hr]. }
  rewrite strlbond_unfold. unfold bind at 1. unfold user_vtop.
  replace (translate k src) with s
    by (unfold translate, s;
        replace (src <? PHYS_BASE) with true by (symmetry; apply Z.ltb_lt; lia);
        now rewrite Hkp).
  unfold add_log. unfold bind at 1.
  set (r := PGSIZE - pg_ofs src) in *.
  destruct (str_over_boundary_true
              (with_mem_log (mem k) (log k ++ [EvTranslate src]) k) s)
    as (l0 & H0).
  { intros i Hi Hi'. rewrite Hsofs in Hi'.
    destruct (Halias i Hi Hi') as (_ & _ & Hl).
    change (exists b, load k (s + i) = Some b /\ b <> 0).
    rewrite Hl. apply Hrun. unfold r. lia. }
  rewrite H0, with_mem_log_twice, mem_with_mem_log.
  rewrite u32_small by lia. cbv zeta.
  assert (Hmin : MIN r (size - 1) = Z.min r (size - 1)).
  { unfold MIN. rewrite Z.gtb_ltb. destruct (Z.ltb_spec (size - 1) r); lia. }
  rewrite Hmin. set (n := Z.min r (size - 1)).
  assert (Hn : 0 <= n <= r /\ n <= size - 1) by (unfold n, r; lia).
  destruct (next_page_start src) as [Hnext Hnofs]; [lia|].
  fold r in Hnext, Hnofs. rewrite Hnext.
  unfold bind at 1. unfold bind at 1.
  destruct (memcpy_ok (Z.to_nat n) dst s (with_mem_log (mem k) l0 k))
    as (m1 & l1 & H1 & Hm1).
  { lia. }
  { unfold s. unfold PHYS_BASE in Hkbase. lia. }
  { intros i Hi. rewrite Z2Nat.id in Hi by lia. rewrite Z2Nat.id by lia.
    rewrite resolve_with_mem_log. exists (s + i).
    destruct (Halias i) as (_ & Hr & _); [lia | unfold r in *; lia |].
    split; [exact Hr|].
    destruct (Hcell i); [lia | unfold r in *; lia | lia | lia]. }
  rewrite Z2Nat.id in Hm1 by lia. rewrite mem_with_mem_log in Hm1.
  rewrite H1, with_mem_log_twice.
  unfold bind at 1. rewrite store_ok by lia.
  rewrite mem_with_mem_log, with_mem_log_twice. unfold ret at 1. cbn [fst snd].
  set (m2 := fun x => if x =? dst + n then 0 else m1 x).
  assert (Hm2 : forall c, c < dst \/ dst + size <= c -> m2 c = mem k c).
  { intros c Hc. unfold m2. rewrite Hm1.
    zbool; cbn [andb]; try lia; reflexivity. }
  assert (Hload2 : forall a, a < PHYS_BASE ->
            load (with_mem_log m2 (log (with_mem_log m1 l1 k)) k) a = load k a).
  { intros a Ha. unfold load. rewrite resolve_with_mem_log, mem_with_mem_log.
    destruct (resolve k a) as [c|] eqn:Hc; [|reflexivity].
    f_equal. apply Hm2. now apply (Hpriv a). }
  unfold copy_tail, bind.
  destruct (str_over_boundary_true
              (with_mem_log m2 (log (with_mem_log m1 l1 k)) k) (src + r))
    as (l2 & H2).
  { intros i Hi Hi'. rewrite Hnofs in Hi'. rewrite Hload2 by (unfold r in *; lia).
    replace (src + r + i) with (src + (r + i)) by lia.
    apply Hrun. unfold r in *. lia. }
  rewrite H2. cbn [negb assert]. eexists. reflexivity.
Qed.

(** ** exit, halt, wait and the calls that are not implemented *)

Lemma switch_halt fr esp1 :
  syscall_switch sv fr esp1 SYS_HALT = (halt ;; ret fr).
Proof. reflexivity. Qed.

Lemma switch_exit fr esp1 :
  syscall_switch sv fr esp1 SYS_EXIT
  = (a1 <- read_word (esp1 + 4 * 1) ;; exit (s32 a1)).
Proof. reflexivity. Qed.

Lemma switch_wait fr esp1 :
  syscall_switch sv fr esp1 SYS_WAIT
  = (a1 <- read_word (esp1 + 4 * 1) ;; r <- wait sv (s32 a1) ;;
     ret (set_eax (u32 r) fr)).
Proof. reflexivity. Qed.

Lemma switch_filesize fr esp1 :
  syscall_switch sv fr esp1 SYS_FILESIZE
  = (a1 <- read_word (esp1 + 4 * 1) ;; r <- filesize (s32 a1) ;;
     ret (set_eax (u32 r) fr)).
Proof. reflexivity. Qed.

Lemma switch_seek fr esp1 :
  syscall_switch sv fr esp1 SYS_SEEK
  = (a1 <- read_word (esp1 + 4 * 1) ;; a2 <- read_word (esp1 + 4 * 2) ;;
     seek (s32 a1) a2 ;; ret fr).
Proof. reflexivity. Qed.

Lemma switch_tell fr esp1 :
  syscall_switch sv fr esp1 SYS_TELL
  = (a1 <- read_word (esp1 + 4 * 1) ;; r <- tell (s32 a1) ;;
     ret (set_eax (u32 r) fr)).
Proof. reflexivity. Qed.

Lemma switch_close fr esp1 :
  syscall_switch sv fr esp1 SYS_CLOSE
  = (a1 <- read_word (esp1 + 4 * 1) ;; close (s32 a1) ;; ret fr).
Proof. reflexivity. Qed.

(** X18: the exit call, on a valid stack, terminates the calling process
    with the status found in its first argument: the status is recorded in
    the thread, "name: exit(status)" goes to the console, and the call does
    not return; the open-file list and the kernel pool are left as they
    are. *)
Theorem exit_call_terminates k (fr : intr_frame) :
  esp fr <> 0 -> esp fr < PHYS_BASE -> PHYS_BASE <= translate k (esp fr) ->
  s32 (word_at k (translate k (esp fr))) = SYS_EXIT ->
  exists k',
    syscall_handler sv fr k
    = Exit (s32 (word_at k (translate k (esp fr) + 4))) k'
    /\ exit_status (cur k') = s32 (word_at k (translate k (esp fr) + 4))
    /\ console k'
       = console k ++ [ConExit (name (cur k))
                         (s32 (word_at k (translate k (esp fr) + 4)))]
    /\ open_list (cur k') = open_list (cur k)
    /\ kernel_pool k' = kernel_pool k /\ mem k' = mem k /\ ext k' = ext k.
Proof.
  intros Hnz Hlt Htr Hnum.
  rewrite handler_valid_stack by assumption. rewrite Hnum, switch_exit.
  unfold bind. rewrite read_word_ok by lia. rewrite word_at_at_switch.
  unfold exit. eexists. split; [reflexivity|]. cbn. now repeat split.
Qed.

(** X19: the wait call, on a valid stack, hands the pid of its first
    argument to process_wait and puts the answer in eax; nothing but the
    collaborators' state changes. *)
Theorem wait_call_delegates k (fr : intr_frame) :
  esp fr <> 0 -> esp fr < PHYS_BASE -> PHYS_BASE <= translate k (esp fr) ->
  s32 (word_at k (translate k (esp fr))) = SYS_WAIT ->
  let r := process_wait sv (s32 (word_at k (translate k (esp fr) + 4))) (ext k) in
  exists k',
    syscall_handler sv fr k = Ret (set_eax (u32 (fst r)) fr) k'
    /\ ext k' = snd r
    /\ cur k' = cur k /\ console k' = console k
    /\ kernel_pool k' = kernel_pool k /\ mem k' = mem k.
Proof.
  intros Hnz Hlt Htr Hnum r.
  rewrite handler_valid_stack by assumption. rewrite Hnum, switch_wait.
  unfold bind. rewrite read_word_ok by lia. rewrite word_at_at_switch.
  unfold wait, do_process_wait, ret. cbn [ext with_mem_log at_switch]. fold r.
  eexists. split; [reflexivity|]. cbn. now repeat split.
Qed.

(** X20: halt powers the machine off, and the calls that are not
    implemented do nothing: filesize and tell answer 0 in eax, seek and
    close leave the frame alone, and none of them changes memory, the
    thread, the console, the pool or the collaborators. *)
Theorem placeholder_calls k (fr : intr_frame) (num : Z) :
  esp fr <> 0 -> esp fr < PHYS_BASE -> PHYS_BASE <= translate k (esp fr) ->
  s32 (word_at k (translate k (esp fr))) = num ->
  (num = SYS_HALT -> exists k', syscall_handler sv fr k = PowerOff k')
  /\ (In num [SYS_FILESIZE; SYS_SEEK; SYS_TELL; SYS_CLOSE] ->
      exists k',
        syscall_handler sv fr k
        = Ret (if (num =? SYS_FILESIZE) || (num =? SYS_TELL)
               then set_eax 0 fr else fr) k'
        /\ mem k' = mem k /\ cur k' = cur k /\ console k' = console k
        /\ kernel_pool k' = kernel_pool k /\ heap_free k' = heap_free k
        /\ ext k' = ext k).
Proof.
  intros Hnz Hlt Htr Hnum.
  rewrite handler_valid_stack by assumption. rewrite Hnum.
  assert (Hk : PHYS_BASE <= translate k (esp fr) + 4 * 1
               /\ PHYS_BASE <= translate k (esp fr) + 4 * 2) by lia.
  destruct Hk as [Hk1 Hk2].
  split.
  - intros ->. rewrite switch_halt. unfold bind, halt. eexists. reflexivity.
  - intros [<-|[<-|[<-|[<-|[]]]]].
    + rewrite switch_filesize. unfold bind. rewrite read_word_ok by exact Hk1.
      unfold filesize, ret. eexists. split; [reflexivity|]. cbn. now repeat split.
    + rewrite switch_seek. unfold bind. rewrite read_word_ok by exact Hk1.
      rewrite read_word_ok by exact Hk2.
      unfold seek, ret. eexists. split; [reflexivity|]. cbn. now repeat split.
    + rewrite switch_tell. unfold bind. rewrite read_word_ok by exact Hk1.
      unfold tell, ret. eexists. split; [reflexivity|]. cbn. now repeat split.
    + rewrite switch_close. unfold bind. rewrite read_word_ok by exact Hk1.
      unfold close, ret. eexists. split; [reflexivity|]. cbn. now repeat split.
Qed.

End CallsMore.

(** ** Runs on the concrete machine *)

(** The string "hi" at offset 16 of the data page fits the scratch page. *)
Lemma machine_fits_hi :
  fits_scratch (machine false [] 16 [104; 105; 0] 7) (data_page + 16) 2 scratch_page.
Proof.
  split; [apply machine_pagedir_ok|].
  split; [vm_compute; discriminate|].
  split; [rewrite PGSIZE_val; lia|].
  split; [vm_compute; reflexivity|].
  split.
  { split.
    - intros i Hi. assert (Hc : i = 0 \/ i = 1) by lia.
      destruct Hc as [-> | ->]; eexists;
        (split; [vm_compute; reflexivity | discriminate]).
    - vm_compute; reflexivity. }
  split; [vm_compute; reflexivity|].
  split; [vm_compute; discriminate|].
  apply machine_private.
Qed.

Lemma exec_hands_over_command_line_witness :
  let k := machine false [] 16 [104; 105; 0] 7 in
  exists k',
    exec stub_services (data_page + 16) k = Ret 3 k'
    /\ kernel_pool k' = kernel_pool k.
Proof.
  intros k.
  destruct (proj1 (exec_hands_over_command_line stub_services k (data_page + 16) 2
                     scratch_page [scratch_page + 4096] eq_refl machine_fits_hi)
              eq_refl) as (k' & Hrun & _ & Hpool & _).
  exists k'. split; [exact Hrun | exact Hpool].
Defined.

Lemma create_remove_delegate_witness :
  let k := machine false [] 16 [104; 105; 0] 7 in
  (exists k', create stub_services (data_page + 16) 64 k = Ret true k'
              /\ kernel_pool k' = kernel_pool k)
  /\ (exists k', remove stub_services (data_page + 16) k = Ret true k'
                 /\ kernel_pool k' = kernel_pool k).
Proof.
  intros k.
  destruct (create_remove_delegate stub_services k (data_page + 16) 2 scratch_page 64
              [scratch_page + 4096] eq_refl machine_fits_hi)
    as [(k1 & H1 & _ & P1 & _) (k2 & H2 & _ & P2 & _)].
  split; [exists k1 | exists k2]; split; assumption.
Defined.

Lemma open_gives_fresh_descriptor_witness :
  let k := machine false [] 16 [104; 105; 0] 7 in
  exists k',
    open stub_services (data_page + 16) k = Ret 3 k'
    /\ open_list (cur k') = [{| fd := 3; f := 100 |}]
    /\ fds_bounded (cur k').
Proof.
  intros k.
  destruct (open_gives_fresh_descriptor stub_services k (data_page + 16) 2
              scratch_page 100 [scratch_page + 4096] tt eq_refl machine_fits_hi
              eq_refl)
    as (k' & Hrun & _ & Hlist & _ & _ & _ & Hfresh).
  - discriminate.
  - vm_compute. split; [discriminate | reflexivity].
  - exists k'. split; [exact Hrun|]. split; [exact Hlist|].
    apply Hfresh. intros o [].
Defined.

Lemma open_failure_leaves_thread_witness :
  let k := machine false [] 16 [104; 105; 0] 7 in
  let sv := {| process_execute := process_execute stub_services;
               get_thread_by_tid := get_thread_by_tid stub_services;
               sema_down_loaded := sema_down_loaded stub_services;
               process_wait := process_wait stub_services;
               filesys_create := filesys_create stub_services;
               filesys_remove := filesys_remove stub_services;
               filesys_open := fun _ e => (None, e) |} in
  exists k', open sv (data_page + 16) k = Ret (-1) k' /\ cur k' = cur k.
Proof.
  intros k sv.
  destruct (open_failure_leaves_thread sv k (data_page + 16) 2 scratch_page
              [scratch_page + 4096] eq_refl machine_fits_hi)
    as (k' & Hrun & Hcur & _).
  - left. reflexivity.
  - vm_compute. split; [discriminate | reflexivity].
  - exists k'. split; [exact Hrun | exact Hcur].
Defined.

Lemma write_returns_length_witness :
  let k := machine false [] 16 [104; 105; 0] 7 in
  write 5 (data_page + 16) 2 k = Ret 2 (final (write 5 (data_page + 16) 2 k))
  /\ 2 = (if PHYS_BASE <=? data_page + 16 then -1 else s32 2).
Proof.
  intros k.
  assert (Hrun : write 5 (data_page + 16) 2 k
                 = Ret 2 (final (write 5 (data_page + 16) 2 k)))
    by (vm_compute; reflexivity).
  split; [exact Hrun|].
  apply (write_returns_length k 5 (data_page + 16) 2 2 _ ltac:(lia) Hrun).
Defined.

Lemma write_console_emits_buffer_witness :
  let k := machine false [] 16 [104; 105; 0] 7 in
  exists k',
    write STDOUT_FILENO (data_page + 16) 2 k = Ret 2 k'
    /\ console k' = [ConBuf [104; 105]].
Proof.
  intros k.
  destruct machine_fits_hi as (Hok & Hsrc & HL & Huser & Hs & Hspan & Hpage & Hpriv).
  destruct (write_console_emits_buffer k (data_page + 16) 2 2 scratch_page
              [scratch_page + 4096] eq_refl Hok Hsrc)
    as (k' & Hrun & Hcon & _); try assumption.
  - rewrite PGSIZE_val. lia.
  - lia.
  - exists k'. split; [exact Hrun|]. rewrite Hcon. vm_compute. reflexivity.
Defined.

Lemma strlbond_untranslated_faults_witness :
  let k := machine false [] 16 [104; 105; 0] 7 in
  exists k', strlbond scratch_page (next_page + 8) 4096 k = Fault 0 k'
             /\ mem k' = mem k.
Proof.
  intros k.
  destruct (strlbond_untranslated_faults k scratch_page (next_page + 8) 4096
              eq_refl eq_refl) as (k' & Hrun & Hmem & _).
  exists k'. split; [exact Hrun | exact Hmem].
Defined.

Lemma unmapped_pointer_faults_holding_page_witness :
  let k := machine false [] 16 [104; 105; 0] 7 in
  exists k', open stub_services (next_page + 8) k = Fault 0 k'
             /\ kernel_pool k' = [scratch_page + 4096].
Proof.
  intros k.
  destruct (unmapped_pointer_faults_holding_page stub_services k (next_page + 8)
              scratch_page [scratch_page + 4096] eq_refl eq_refl eq_refl eq_refl)
    as (_ & _ & _ & Hopen & _).
  exact Hopen.
Defined.

(** On the machine whose every byte is 7, the two mapped data pages hold no
    NUL. *)
Lemma machine_no_nul (i : Z) :
  0 <= i < 2 + 4096 ->
  exists b, load (machine true [] 0 [] 7) (data_page + 4094 + i) = Some b /\ b <> 0.
Proof.
  intros Hi. exists 7. split; [|discriminate].
  unfold load, resolve.
  replace (PHYS_BASE <=? data_page + 4094 + i) with false
    by (symmetry; apply Z.leb_gt; unfold PHYS_BASE, data_page; lia).
  destruct (Z.lt_ge_cases i 2) as [Hlo | Hhi].
  - destruct (pg_aligned_add data_page (4094 + i) eq_refl) as [_ Hpg];
      [rewrite PGSIZE_val; lia|].
    replace (data_page + 4094 + i) with (data_page + (4094 + i)) by lia.
    rewrite Hpg. reflexivity.
  - destruct (pg_aligned_add next_page (i - 2) eq_refl) as [_ Hpg];
      [rewrite PGSIZE_val; lia|].
    replace (data_page + 4094 + i) with (next_page + (i - 2))
      by (unfold data_page, next_page; lia).
    rewrite Hpg. reflexivity.
Qed.

(** On the machine whose only NUL is byte 4200 of the data, the buffer at
    the start of the data page is a string of length 4200. *)
Lemma machine_long_string :
  c_string_at (machine true [] 4200 [0] 7) data_page 4200.
Proof.
  split; [|vm_compute; reflexivity].
  intros i Hi. exists 7. split; [|discriminate].
  unfold load, resolve.
  replace (PHYS_BASE <=? data_page + i) with false
    by (symmetry; apply Z.leb_gt; unfold PHYS_BASE, data_page; lia).
  assert (Hcell : forall x, x <> data_frame + 4200 ->
            mem (machine true [] 4200 [0] 7) x = 7).
  { intros x Hx. unfold machine; cbn [mem map concat place].
    now replace (x =? data_frame + 4200) with false
      by (symmetry; apply Z.eqb_neq; exact Hx). }
  destruct (Z.lt_ge_cases i 4096) as [Hlo | Hhi].
  - destruct (pg_aligned_add data_page i eq_refl) as [Hofs Hpg];
      [rewrite PGSIZE_val; lia|].
    rewrite Hpg, Hofs.
    change (pagedir (machine true [] 4200 [0] 7) data_page) with (Some data_frame).
    cbv beta iota. rewrite Hcell by lia. reflexivity.
  - destruct (pg_aligned_add next_page (i - 4096) eq_refl) as [Hofs Hpg];
      [rewrite PGSIZE_val; lia|].
    replace (data_page + i) with (next_page + (i - 4096))
      by (unfold data_page, next_page; lia).
    rewrite Hpg, Hofs.
    change (pagedir (machine true [] 4200 [0] 7) next_page) with (Some next_frame).
    cbv beta iota. rewrite Hcell by (unfold next_frame, data_frame; lia). reflexivity.
Qed.

Lemma write_console_restarts_each_chunk_witness :
  let k := machine true [] 4200 [0] 7 in
  exists k',
    write STDOUT_FILENO data_page 4100 k = Ret 4100 k'
    /\ console k'
       = [ConBuf (bytes_at (Z.to_nat 4095) k data_page);
          ConBuf (bytes_at (Z.to_nat 5) k data_page)].
Proof.
  intros k.
  destruct (write_console_restarts_each_chunk k data_page 4100 4200 scratch_page
              [scratch_page + 4096] eq_refl)
    as (k' & Hrun & Hcon & _).
  - apply machine_pagedir_ok.
  - vm_compute; discriminate.
  - lia.
  - vm_compute; discriminate.
  - vm_compute; reflexivity.
  - apply machine_long_string.
  - vm_compute; reflexivity.
  - vm_compute; discriminate.
  - apply machine_private.
  - exists k'. split; [exact Hrun|]. rewrite Hcon. reflexivity.
Defined.

Lemma strlbond_writes_within_dst_witness :
  let k := machine false [] 16 [104; 105; 0] 7 in
  mem (final (strlbond scratch_page (data_page + 16) 4096 k)) (data_frame + 16)
  = mem k (data_frame + 16).
Proof.
  intros k.
  apply (strlbond_writes_within_dst k scratch_page (data_page + 16) 4096
           (data_frame + 16)).
  - vm_compute; discriminate.
  - lia.
  - left. vm_compute; reflexivity.
Defined.

Lemma strlbond_long_string_panics_witness :
  exists k',
    strlbond scratch_page (data_page + 4094) 4096 (machine true [] 0 [] 7)
    = Panic "!str_over_boundary (s)" k'.
Proof.
  apply (strlbond_long_string_panics (machine true [] 0 [] 7) scratch_page
           (data_page + 4094) 4096).
  - apply machine_pagedir_ok.
  - vm_compute; discriminate.
  - vm_compute; discriminate.
  - intros i Hi. apply machine_no_nul.
    change (PGSIZE - pg_ofs (data_page + 4094) + PGSIZE) with (2 + 4096) in Hi.
    exact Hi.
  - vm_compute; discriminate.
  - lia.
  - apply machine_private.
Defined.

Lemma exit_call_terminates_witness :
  let k := machine false [SYS_EXIT; 42] 0 [] 0 in
  exists k',
    syscall_handler stub_services trap_frame k = Exit 42 k'
    /\ console k' = [ConExit "main" 42].
Proof.
  intros k.
  destruct (exit_call_terminates stub_services k trap_frame)
    as (k' & Hrun & _ & Hcon & _).
  - vm_compute; discriminate.
  - vm_compute; reflexivity.
  - vm_compute; discriminate.
  - vm_compute; reflexivity.
  - exists k'. split; [exact Hrun | exact Hcon].
Defined.

Lemma wait_call_delegates_witness :
  let k := machine false [SYS_WAIT; 3] 0 [] 0 in
  exists k',
    syscall_handler stub_services trap_frame k = Ret (set_eax 0 trap_frame) k'
    /\ cur k' = cur k.
Proof.
  intros k.
  destruct (wait_call_delegates stub_services k trap_frame)
    as (k' & Hrun & _ & Hcur & _).
  - vm_compute; discriminate.
  - vm_compute; reflexivity.
  - vm_compute; discriminate.
  - vm_compute; reflexivity.
  - exists k'. split; [exact Hrun | exact Hcur].
Defined.

Lemma placeholder_calls_witness :
  let k := machine false [SYS_TELL; 5] 0 [] 0 in
  exists k',
    syscall_handler stub_services trap_frame k = Ret (set_eax 0 trap_frame) k'
    /\ mem k' = mem k.
Proof.
  intros k.
  destruct (placeholder_calls stub_services k trap_frame SYS_TELL) as [_ Hstub].
  - vm_compute; discriminate.
  - vm_compute; reflexivity.
  - vm_compute; discriminate.
  - vm_compute; reflexivity.
  - destruct Hstub as (k' & Hrun & Hmem & _); [cbn; auto|].
    exists k'. split; [exact Hrun | exact Hmem].
Defined.

End SyscallMore.
